(** * django-restql: the mixins of [django_restql/mixins.py]

    A shallow embedding of [DynamicFieldsMixin], [NestedCreateMixin],
    [NestedUpdateMixin] and [RestQLViewMixin], followed by the properties
    proved about them.

    Python dictionaries keep insertion order and the code relies on it
    (the order of the serializer's fields, the order in which operation keys
    are visited), so a dict is an association list with unique keys; the
    exceptions the code raises are values of [exn] carried by [result]. *)

From stdpp Require Import base list strings gmap.
From Stdlib Require Import ZArith.

Open Scope string_scope.
Open Scope list_scope.

Set Warnings "-clear-no-such-hyp".

(** ** Exceptions and the error monad *)

Inductive exn :=
  | KeyError (key : string)
  | TypeError
  | AttributeError
  | DatabaseError (msg : string)
  | AssertionError (msg : string)
  | DoesNotExist (pk : Z)
  | FieldNotFound (msg : string)
  | ValidationError (msg : string).

Inductive result (A : Type) :=
  | Ok (a : A)
  | Raise (e : exn).
Arguments Ok {A} a.
Arguments Raise {A} e.

Definition bind {A B} (m : result A) (k : A → result B) : result B :=
  match m with
  | Ok a => k a
  | Raise e => Raise e
  end.

Notation "'let*' x ':=' m 'in' k" := (bind m (fun x => k))
  (at level 10, x pattern, m at level 100, k at level 200,
   format "'[v' 'let*'  x  ':='  m  'in' '/' k ']'").

(** ** Python dictionaries *)

Module PyDict.
Section Dict.
Context {V : Type}.

Definition dict := list (string * V).

(** [list(d.keys())] *)
Definition keys (d : dict) : list string := d.*1.

(** [d.get(k, None)] *)
Fixpoint get (d : dict) (k : string) : option V :=
  match d with
  | [] => None
  | (k', v) :: d' => if decide (k = k') then Some v else get d' k
  end.

(** [d[k]], raising [KeyError] *)
Definition getitem (d : dict) (k : string) : result V :=
  match get d k with
  | Some v => Ok v
  | None => Raise (KeyError k)
  end.

(** [d[k] = v]: an existing key keeps its position *)
Fixpoint setitem (d : dict) (k : string) (v : V) : dict :=
  match d with
  | [] => [(k, v)]
  | (k', v') :: d' =>
      if decide (k = k') then (k, v) :: d' else (k', v') :: setitem d' k v
  end.

(** [d.update(d2)] *)
Definition update (d d2 : dict) : dict :=
  fold_left (fun acc kv => setitem acc kv.1 kv.2) d2 d.

(** the dict left by [d.pop(k)] when [k] is a key *)
Fixpoint remove (d : dict) (k : string) : dict :=
  match d with
  | [] => []
  | (k', v') :: d' =>
      if decide (k = k') then d' else (k', v') :: remove d' k
  end.

(** [d.pop(k)] without a default: the value and the remaining dict, or
    [None] for a [KeyError] *)
Definition pop (d : dict) (k : string) : option (V * dict) :=
  match get d k with
  | Some v => Some (v, remove d k)
  | None => None
  end.

(** the invariant of a Python dict: no key occurs twice *)
Definition wf (d : dict) : Prop := NoDup (keys d).
End Dict.
Arguments dict V : clear implicits.
End PyDict.

Import PyDict.

(** [x is None] *)
Definition is_none {A} (x : option A) : bool :=
  match x with
  | None => true
  | Some _ => false
  end.

(** [x in l] for a list of strings *)
Definition mem (x : string) (l : list string) : bool := bool_decide (x ∈ l).

(** ** The objects the mixins inspect *)

(** The class of a serializer field, as far as [isinstance] tells. *)
Inductive field_class :=
  | Field
  | Serializer
  | ListSerializer
  | DynamicSerializerMethodField.

(** [getattr(model, field).rel] as far as [isinstance] tells. *)
Inductive rel_class :=
  | ManyToOneRel
  | ManyToManyRel
  | OtherRel.

(** A field object of a serializer: its class, whether it also is a
    [_ReplaceableField] or a [_WritableField], and the model of the nested
    serializer ([Meta.model] of the field, of its [child] for a
    [ListSerializer]). *)
Record field_obj := {
  cls : field_class;
  is_replaceable : bool;
  is_writable : bool;
  nested_model : string
}.

(** What [getattr(model, field)] gives on a model class: the descriptor of a
    relation, with its [.rel] and the name of its [.field]. *)
Record descriptor := {
  rel : rel_class;
  descr_field_name : string
}.

(** A model class: its name and the descriptors of its relations. *)
Record model_class := {
  model_name : string;
  descriptors : dict descriptor
}.

(** ** Parsed queries *)

(** An element of a parsed query is a [str] or a [dict] from a nested field
    to its own parsed query. *)
#[warnings="-register-all"]
Inductive qnode :=
  | QFlat (name : string)
  | QNested (d : list (string * list qnode)).

Definition query_t := list qnode.

(** [repr] of a field name. Field names are identifiers, for which [repr] is
    the name between single quotes. *)
Definition repr_str (s : string) : string := "'" +:+ s +:+ "'".

(** [", ".join(l)] *)
Fixpoint join (sep : string) (l : list string) : string :=
  match l with
  | [] => ""
  | [x] => x
  | x :: l' => x +:+ sep +:+ join sep l'
  end.

(** [repr] of a query element and of a parsed query (a list). *)
Fixpoint repr_qnode (n : qnode) : string :=
  match n with
  | QFlat name => repr_str name
  | QNested d =>
      "{" +:+ join ", "
        (map (fun kv => repr_str kv.1 +:+ ": "
                        +:+ "[" +:+ join ", " (map repr_qnode kv.2) +:+ "]") d)
      +:+ "}"
  end.

(** [str(x)], what [%s] prints: a [str] prints as itself, a [dict] as its
    [repr]. *)
Definition str_qnode (n : qnode) : string :=
  match n with
  | QFlat name => name
  | QNested _ => repr_qnode n
  end.

(** ** Requests and the serializer tree *)

Record request := {
  method : string;
  query_params : dict string
}.

(** An object met through [parent]: all the code asks of it is whether it has
    the attribute [nested_fields_queries], and its value. *)
Record obj := {
  nested_fields_queries_attr : option (dict query_t)
}.

(** [self.parent]: a [ListSerializer] (with its own [field_name] and
    [parent]), a [Serializer], or something else. *)
Inductive parent_obj :=
  | ParentList (list_field_name : option string) (list_parent : option obj)
  | ParentSerializer (p : obj)
  | ParentOther.

(** The state of a serializer that [DynamicFieldsMixin] reads and writes. *)
Record serializer := {
  super_fields : dict field_obj;
  query : option query_t;
  allowed_fields : option (list string);
  excluded_fields : option (list string);
  context_request : option request;
  field_name : option string;
  parent : option parent_obj;
  nested_fields_queries : option (dict query_t)
}.

Definition set_query (self : serializer) (q : option query_t) : serializer :=
  {| super_fields := super_fields self;
     query := q;
     allowed_fields := allowed_fields self;
     excluded_fields := excluded_fields self;
     context_request := context_request self;
     field_name := field_name self;
     parent := parent self;
     nested_fields_queries := nested_fields_queries self |}.

Definition set_nested_fields_queries
    (self : serializer) (n : dict query_t) : serializer :=
  {| super_fields := super_fields self;
     query := query self;
     allowed_fields := allowed_fields self;
     excluded_fields := excluded_fields self;
     context_request := context_request self;
     field_name := field_name self;
     parent := parent self;
     nested_fields_queries := Some n |}.

(** ** DynamicFieldsMixin *)

Module DynamicFieldsMixin.

Definition query_param_name : string := "query".

Definition has_query_param (req : request) : bool :=
  mem query_param_name (keys (query_params req)).

Definition get_raw_query (req : request) : result string :=
  getitem (query_params req) query_param_name.

Definition msg_field_is_not_found (field_name : string) : string :=
  "Field `" +:+ field_name +:+ "` is not found".

(** ["'%s' field is not found" % field] *)
Definition msg_not_found (field : qnode) : string :=
  "'" +:+ str_qnode field +:+ "' field is not found".

(** ["'%s' is not a nested field" % nested_field] *)
Definition msg_not_nested (nested_field : string) : string :=
  "'" +:+ nested_field +:+ "' is not a nested field".

(** [for field_name in not_allowed: fields.pop(field_name)], a [KeyError]
    turned into [FieldNotFound]. *)
Fixpoint pop_not_allowed
    (fields : dict field_obj) (not_allowed : list string)
    : result (dict field_obj) :=
  match not_allowed with
  | [] => Ok fields
  | field_name :: rest =>
      match pop fields field_name with
      | Some (_, fields') => pop_not_allowed fields' rest
      | None => Raise (FieldNotFound (msg_field_is_not_found field_name))
      end
  end.

Definition nested_classes (c : field_class) : bool :=
  match c with
  | Serializer | ListSerializer | DynamicSerializerMethodField => true
  | Field => false
  end.

(** The inner loop [for nested_field in field] over the keys of a nested
    element [field]. *)
Fixpoint check_nested_fields
    (fields : dict field_obj) (all_fields : list string)
    (field : qnode) (nested : list string) : result unit :=
  match nested with
  | [] => Ok tt
  | nested_field :: rest =>
      if negb (mem nested_field all_fields) then
        Raise (ValidationError (msg_not_found field))
      else
        let* f := getitem fields nested_field in
        if negb (nested_classes (cls f)) then
          Raise (ValidationError (msg_not_nested nested_field))
        else check_nested_fields fields all_fields field rest
  end.

(** The loop [for field in self.query], threading [allowed_nested_fields]
    and [allowed_flat_fields]. *)
Fixpoint scan_query
    (fields : dict field_obj) (all_fields : list string) (q : query_t)
    (allowed_nested_fields : dict query_t) (allowed_flat_fields : list string)
    : result (dict query_t * list string) :=
  match q with
  | [] => Ok (allowed_nested_fields, allowed_flat_fields)
  | field :: rest =>
      match field with
      | QNested d =>
          let* _ := check_nested_fields fields all_fields field (keys d) in
          scan_query fields all_fields rest
            (update allowed_nested_fields d) allowed_flat_fields
      | QFlat name =>
          if negb (mem name all_fields) then
            Raise (ValidationError (msg_not_found field))
          else
            scan_query fields all_fields rest
              allowed_nested_fields (allowed_flat_fields ++ [name])
      end
  end.

(** [for field in all_fields: if field not in all_allowed_fields:
    fields.pop(field)] *)
Fixpoint pop_unselected
    (fields : dict field_obj) (all_fields all_allowed_fields : list string)
    : result (dict field_obj) :=
  match all_fields with
  | [] => Ok fields
  | field :: rest =>
      if negb (mem field all_allowed_fields) then
        match pop fields field with
        | Some (_, fields') => pop_unselected fields' rest all_allowed_fields
        | None => Raise (KeyError field)
        end
      else pop_unselected fields rest all_allowed_fields
  end.

(** What lines 116-134 of [fields] decide: the serializer with its [query]
    settled, or the unknown scenario in which [fields] returns at once. *)
Inductive located :=
  | UnknownScenario
  | Located (self : serializer).

Section WithCollaborators.
(** [Parser(raw_query).get_parsed()] of [parser.py]: the parsed query, or
    the [msg] and [text] of a [SyntaxError]. *)
Variable get_parsed : string → (string * string) + query_t.

(** The order in which Python iterates over [set(l)]. *)
Variable set_iter : list string → list string.

Definition get_parsed_query_from_req (req : request) : result query_t :=
  let* raw_query := get_raw_query req in
  match get_parsed raw_query with
  | inr parsed_query => Ok parsed_query
  | inl (msg, text) =>
      Raise (ValidationError ("QueryFormatError: " +:+ msg +:+ " on " +:+ text))
  end.

Definition get_allowed_fields (self : serializer) : result (dict field_obj) :=
  let fields := super_fields self in
  let* fields :=
    match allowed_fields self with
    | Some allowed =>
        let existing := keys fields in
        let not_allowed :=
          set_iter (filter (fun x => x ∉ allowed) existing
                    ++ filter (fun x => x ∉ existing) allowed) in
        pop_not_allowed fields not_allowed
    | None => Ok fields
    end in
  match excluded_fields self with
  | Some excluded => pop_not_allowed fields (set_iter excluded)
  | None => Ok fields
  end.

Definition is_not_a_request_to_process (req : option request) : bool :=
  match req with
  | None => true
  | Some r =>
      negb (bool_decide (method r = "GET")) || negb (has_query_param r)
  end.

Definition is_top_retrieve_request (self : serializer) : bool :=
  is_none (field_name self) && is_none (parent self).

Definition is_top_list_request (self : serializer) : bool :=
  match parent self with
  | Some (ParentList list_field_name list_parent) =>
      is_none list_parent && is_none list_field_name
  | _ => false
  end.

(** [parent_nested_fields.get(field_name, None)] when [parent] has the
    attribute; [self.query] is left as it is otherwise. *)
Definition query_from_parent
    (self : serializer) (name : option string) (p : option obj)
    : serializer :=
  match p ≫= nested_fields_queries_attr with
  | Some parent_nested_fields =>
      set_query self (name ≫= get parent_nested_fields)
  | None => self
  end.

Definition locate_query (self : serializer) (req : request) : result located :=
  if is_top_retrieve_request self || is_top_list_request self then
    match query self with
    | None =>
        let* q := get_parsed_query_from_req req in
        Ok (Located (set_query self (Some q)))
    | Some _ => Ok (Located self)
    end
  else
    match parent self with
    | Some (ParentList list_field_name list_parent) =>
        Ok (Located (query_from_parent self list_field_name list_parent))
    | Some (ParentSerializer p) =>
        Ok (Located (query_from_parent self (field_name self) (Some p)))
    | _ => Ok UnknownScenario
    end.

(** The [fields] property: the visible fields and the serializer as the
    call leaves it ([query] and [nested_fields_queries] are assigned). *)
Definition fields (self : serializer)
    : result (dict field_obj * serializer) :=
  let* fields := get_allowed_fields self in
  if is_not_a_request_to_process (context_request self) then
    Ok (fields, self)
  else
    match context_request self with
    | None => Ok (fields, self)
    | Some req =>
        let* loc := locate_query self req in
        match loc with
        | UnknownScenario => Ok (fields, self)
        | Located self =>
            match query self with
            | None => Ok (fields, self)
            | Some q =>
                let all_fields := keys fields in
                let* (allowed_nested_fields, allowed_flat_fields) :=
                  scan_query fields all_fields q [] [] in
                let self :=
                  set_nested_fields_queries self allowed_nested_fields in
                let all_allowed_fields :=
                  allowed_flat_fields ++ keys allowed_nested_fields in
                let* fields :=
                  pop_unselected fields all_fields all_allowed_fields in
                Ok (fields, self)
            end
        end
    end.
End WithCollaborators.

End DynamicFieldsMixin.

(** ** Written data and the data store *)

(** Modelled from the spec: the operation keys of [operations.py], which is
    not part of the sources at hand. The spec names them ADD, CREATE, REMOVE
    and UPDATE; they are four distinct strings. *)
Definition ADD : string := "add".
Definition CREATE : string := "create".
Definition REMOVE : string := "remove".
Definition UPDATE : string := "update".

Inductive scalar :=
  | SNone
  | SInt (z : Z)
  | SStr (s : string).

#[global] Instance scalar_eq_dec : EqDecision scalar.
Proof. solve_decision. Defined.

(** [{sub_field: value}] *)
Definition row := dict scalar.

(** What stands under an operation key: [[pks]], [[{sub_field: value}]] or
    [{pk: {sub_field: value}}]. *)
Inductive operand :=
  | Pks (pks : list Z)
  | Rows (rows : list row)
  | PkRows (m : list (Z * row)).

(** A value of [validated_data]: a plain value, a model instance (given by
    its key), the data of a nested object, or the operations on a nested
    collection. *)
Inductive value :=
  | Plain (v : scalar)
  | Obj (pk : Z)
  | Data (r : row)
  | Operations (ops : dict operand).

(** The method of the mixins that issues a write. *)
Inductive origin :=
  | ReplaceableFK
  | WritableFK
  | ManyToMany
  | ManyToOne
  | Base.

(** The writes the mixins ask of their collaborators: [serializer.save()]
    of a child serializer (creating or updating), [instance.save()], the
    related manager's [set], [add] and [remove], a queryset's [update] and
    [delete], and the base serializer's [create] and [update]. *)
Inductive call :=
  | SerializerCreate (model : string) (pk : Z) (data : row)
  | SerializerUpdate (model : string) (pk : Z) (data : row)
  | InstanceSave (pk : Z) (field : string) (v : scalar)
  | RelatedSet (pk : Z) (field : string) (pks : list Z)
  | RelatedAdd (pk : Z) (field : string) (pks : list Z)
  | RelatedRemove (pk : Z) (field : string) (pks : list Z)
  | QuerysetUpdate (model : string) (pks : list Z) (column : string) (v : Z)
  | QuerysetDelete (model : string) (pks : list Z)
  | SuperCreate (pk : Z) (data : row)
  | SuperUpdate (pk : Z) (data : row).

Definition event : Type := origin * call.

(** The data store: the rows of every model by primary key, the members of
    every many-to-many relation by owner key and field, the next key the
    store hands out, and the writes made so far, oldest first. *)
Record store := {
  table : gmap (string * Z) row;
  related : gmap (Z * string) (gset Z);
  next_pk : Z;
  log : list event
}.

(** A computation reads and writes the store and may raise; what it wrote
    before raising stays written. *)
Definition M (A : Type) : Type := store → result A * store.

Definition ret {A} (a : A) : M A := fun st => (Ok a, st).

Definition raise {A} (e : exn) : M A := fun st => (Raise e, st).

Definition mbind' {A B} (m : M A) (k : A → M B) : M B :=
  fun st =>
    match m st with
    | (Ok a, st') => k a st'
    | (Raise e, st') => (Raise e, st')
    end.

Notation "'do' x <- m ; k" := (mbind' m (fun x => k))
  (at level 10, x pattern, m at level 100, k at level 200,
   format "'[v' 'do'  x  <-  m ; '/' k ']'").

Definition lift {A} (r : result A) : M A := fun st => (r, st).

(** [for x in l: body(x)] *)
Fixpoint for_each {A} (l : list A) (body : A → M unit) : M unit :=
  match l with
  | [] => ret tt
  | x :: l' => do _ <- body x; for_each l' body
  end.

(** A [for] loop that carries an accumulator. *)
Fixpoint for_fold {A B} (l : list A) (acc : B) (body : B → A → M B) : M B :=
  match l with
  | [] => ret acc
  | x :: l' => do acc' <- body acc x; for_fold l' acc' body
  end.

Definition emit (o : origin) (c : call) : M unit :=
  fun st =>
    (Ok tt, {| table := table st; related := related st;
               next_pk := next_pk st; log := log st ++ [(o, c)] |}).

Definition set_table (t : gmap (string * Z) row) : M unit :=
  fun st =>
    (Ok tt, {| table := t; related := related st;
               next_pk := next_pk st; log := log st |}).

Definition set_related (r : gmap (Z * string) (gset Z)) : M unit :=
  fun st =>
    (Ok tt, {| table := table st; related := r;
               next_pk := next_pk st; log := log st |}).

Definition get_store : M store := fun st => (Ok st, st).

(** A fresh primary key. *)
Definition fresh_pk : M Z :=
  fun st =>
    (Ok (next_pk st),
     {| table := table st; related := related st;
        next_pk := (next_pk st + 1)%Z; log := log st |}).

(** The members of the relation [getattr(instance, field)]. *)
Definition members (st : store) (pk : Z) (field : string) : gset Z :=
  default ∅ (related st !! (pk, field)).

(** ** The collaborators and the two mutation mixins *)

(** The validated data split by [create] and [update] into
    [fields["foreignkey_related"]] and [fields["many_to"]]. *)
Record partition := {
  replaceable : dict value;
  writable : dict value;
  many_related : dict value;
  one_related : dict value
}.

Definition empty_partition : partition :=
  {| replaceable := []; writable := []; many_related := []; one_related := [] |}.

(** [getattr(model, field)] *)
Definition getattr_model (model : model_class) (field : string)
    : result descriptor :=
  match get (descriptors model) field with
  | Some d => Ok d
  | None => Raise AttributeError
  end.

(** [f.child.Meta.model] *)
Definition child_meta_model (f : field_obj) : result string :=
  match cls f with
  | ListSerializer => Ok (nested_model f)
  | _ => Raise AttributeError
  end.

(** The value a model column takes from a value of the validated data. *)
Definition to_scalar (v : value) : result scalar :=
  match v with
  | Plain s => Ok s
  | Obj pk => Ok (SInt pk)
  | Data _ | Operations _ => Raise TypeError
  end.

Fixpoint to_row (d : dict value) : result row :=
  match d with
  | [] => Ok []
  | (k, v) :: d' =>
      let* s := to_scalar v in
      let* r := to_row d' in
      Ok ((k, s) :: r)
  end.

(** [qs.update] of one column to [v], over the rows of [model] with
    [pk__in=pks] *)
Definition update_rows (model : string) (pks : list Z) (column : string)
    (v : Z) (t : gmap (string * Z) row) : gmap (string * Z) row :=
  foldr (fun pk t => alter (fun r => setitem r column (SInt v)) (model, pk) t)
        t pks.

(** Whether the row of [model] with key [pk] points at [owner] through
    [column]: the rows a reverse manager [getattr(instance, field)] sees. *)
Definition is_child (t : gmap (string * Z) row) (model : string)
    (column : string) (owner : Z) (pk : Z) : bool :=
  match t !! (model, pk) with
  | Some r => bool_decide (get r column = Some (SInt owner))
  | None => false
  end.

(** [nested_obj.all().filter(pk__in=pks).delete()]: the rows the queryset
    selects are removed. What the data store deletes along with a row by
    its [on_delete] rules is not followed. *)
Definition delete_children (model : string) (column : string) (owner : Z)
    (pks : list Z) (t : gmap (string * Z) row) : gmap (string * Z) row :=
  foldr (fun pk t =>
           if is_child t model column owner pk then delete (model, pk) t else t)
        t pks.

Section Mixins.
(** [self.get_fields()] and [self.Meta.model] of the serializer. *)
Variable get_fields : dict field_obj.
Variable Meta_model : model_class.

(** Whether a child serializer finds its data valid: [save()] refuses to
    run after a failed [is_valid()]. *)
Variable is_valid : string → row → bool.

(** The message of the exception with which the data store refuses to
    attach, respectively detach, the given keys, if it does. *)
Variable add_error : store → Z → string → list Z → option string.
Variable remove_error : store → Z → string → list Z → option string.

Definition invalid_data : exn :=
  AssertionError "You cannot call `.save()` on a serializer with invalid data.".

(** [SerializerClass(data=values).is_valid()] then [.save()]: a new row of
    the model holding the data; its key is returned. *)
Definition serializer_create (o : origin) (model : string) (data : row)
    : M Z :=
  if is_valid model data then
    do pk <- fresh_pk;
    do st <- get_store;
    do _ <- set_table (<[(model, pk) := data]> (table st));
    do _ <- emit o (SerializerCreate model pk data);
    ret pk
  else raise invalid_data.

(** [SerializerClass(obj, data=values, partial=...).is_valid()] then
    [.save()]: the data written over the row of [obj]. *)
Definition serializer_update (o : origin) (model : string) (pk : Z)
    (data : row) : M unit :=
  if is_valid model data then
    do st <- get_store;
    do _ <- set_table
      (alter (fun r => PyDict.update r data) (model, pk) (table st));
    emit o (SerializerUpdate model pk data)
  else raise invalid_data.

(** [getattr(instance, field).set(pks)] *)
Definition related_set (o : origin) (instance : Z) (field : string)
    (pks : list Z) : M unit :=
  do st <- get_store;
  match add_error st instance field pks with
  | Some msg => raise (DatabaseError msg)
  | None =>
      do _ <- set_related (<[(instance, field) := list_to_set pks]> (related st));
      emit o (RelatedSet instance field pks)
  end.

(** [nested_obj.add] of the keys [pks] *)
Definition related_add (o : origin) (instance : Z) (field : string)
    (pks : list Z) : M unit :=
  do st <- get_store;
  match add_error st instance field pks with
  | Some msg => raise (DatabaseError msg)
  | None =>
      do _ <- set_related
        (<[(instance, field) := members st instance field ∪ list_to_set pks]>
           (related st));
      emit o (RelatedAdd instance field pks)
  end.

(** [nested_obj.remove] of the keys [pks] *)
Definition related_remove (o : origin) (instance : Z) (field : string)
    (pks : list Z) : M unit :=
  do st <- get_store;
  match remove_error st instance field pks with
  | Some msg => raise (DatabaseError msg)
  | None =>
      do _ <- set_related
        (<[(instance, field) := members st instance field ∖ list_to_set pks]>
           (related st));
      emit o (RelatedRemove instance field pks)
  end.

(** [model.objects.filter(pk__in=pks).update] of one column to [v] *)
Definition queryset_update (o : origin) (model : string) (pks : list Z)
    (column : string) (v : Z) : M unit :=
  do st <- get_store;
  do _ <- set_table (update_rows model pks column v (table st));
  emit o (QuerysetUpdate model pks column v).

(** [try: m except Exception as e: raise ValidationError(prefix + str(e))],
    for the exceptions of the data store. *)
Definition reraise_prefixed {A} (prefix : string) (m : M A) : M A :=
  fun st =>
    match m st with
    | (Raise (DatabaseError msg), st') =>
        (Raise (ValidationError (prefix +:+ msg)), st')
    | r => r
    end.

(** The loop of [create] and of [update] over a copy of the validated
    data: every nested field is popped from [validated_data] and filed
    under its kind. *)
Definition classify_field
    (acc : dict value * partition) (field : string)
    : result (dict value * partition) :=
  let (validated_data, fields) := acc in
  let* field_serializer := getitem get_fields field in
  let popped :=
    match pop validated_data field with
    | Some r => Ok r
    | None => Raise (KeyError field)
    end in
  match cls field_serializer with
  | Serializer =>
      if is_replaceable field_serializer then
        let* (value, validated_data) := popped in
        Ok (validated_data,
            {| replaceable := setitem (replaceable fields) field value;
               writable := writable fields;
               many_related := many_related fields;
               one_related := one_related fields |})
      else if is_writable field_serializer then
        let* (value, validated_data) := popped in
        Ok (validated_data,
            {| replaceable := replaceable fields;
               writable := setitem (writable fields) field value;
               many_related := many_related fields;
               one_related := one_related fields |})
      else Ok acc
  | ListSerializer =>
      if is_writable field_serializer || is_replaceable field_serializer then
        let* d := getattr_model Meta_model field in
        match rel d with
        | ManyToOneRel =>
            let* (value, validated_data) := popped in
            Ok (validated_data,
                {| replaceable := replaceable fields;
                   writable := writable fields;
                   many_related := many_related fields;
                   one_related := setitem (one_related fields) field value |})
        | ManyToManyRel =>
            let* (value, validated_data) := popped in
            Ok (validated_data,
                {| replaceable := replaceable fields;
                   writable := writable fields;
                   many_related := setitem (many_related fields) field value;
                   one_related := one_related fields |})
        | OtherRel => Ok acc
        end
      else Ok acc
  | _ => Ok acc
  end.

Fixpoint classify_loop (data : list string) (acc : dict value * partition)
    : result (dict value * partition) :=
  match data with
  | [] => Ok acc
  | field :: rest =>
      let* acc' := classify_field acc field in
      classify_loop rest acc'
  end.

Definition classify (validated_data : dict value)
    : result (dict value * partition) :=
  classify_loop (keys validated_data) (validated_data, empty_partition).

(** *** NestedCreateMixin *)

Definition create_writable_foreignkey_related (data : dict value)
    : M (dict value) :=
  for_fold data [] (fun objs '(field, value) =>
    do f <- lift (getitem get_fields field);
    match value with
    | Data r =>
        do obj <- serializer_create WritableFK (nested_model f) r;
        ret (setitem objs field (Obj obj))
    | _ => raise TypeError
    end).

(** [o] tells which of the two callers the writes are made for. *)
Definition bulk_create_objs (o : origin) (field : string) (data : list row)
    : M (list Z) :=
  do f <- lift (getitem get_fields field);
  do model <- lift (child_meta_model f);
  for_fold data [] (fun pks values =>
    do obj <- serializer_create o model values;
    ret (pks ++ [obj])).

(** The body of [for operation in values] of
    [create_many_to_one_related]. An operand of the wrong shape makes a
    collaborator raise; which exception is not told apart. *)
Definition create_many_to_one_operation (instance : Z) (field : string)
    (foreignkey : string) (field_pks : dict (list Z))
    (operation : string) (operand : operand) : M (dict (list Z)) :=
  if decide (operation = ADD) then
    match operand with
    | Pks pks =>
        do f <- lift (getitem get_fields field);
        do model <- lift (child_meta_model f);
        do _ <- queryset_update ManyToOne model pks foreignkey instance;
        ret (setitem field_pks field pks)
    | _ => raise TypeError
    end
  else if decide (operation = CREATE) then
    match operand with
    | Rows rows =>
        let rows := map (fun v => setitem v foreignkey (SInt instance)) rows in
        do pks <- bulk_create_objs ManyToOne field rows;
        ret (setitem field_pks field pks)
    | _ => raise TypeError
    end
  else ret field_pks.

Definition create_many_to_one_related (instance : Z) (data : dict value)
    : M (dict (list Z)) :=
  for_fold data [] (fun field_pks '(field, values) =>
    do d <- lift (getattr_model Meta_model field);
    let foreignkey := descr_field_name d in
    match values with
    | Operations values =>
        for_fold values field_pks (fun field_pks '(operation, operand) =>
          create_many_to_one_operation instance field foreignkey
            field_pks operation operand)
    | _ => raise TypeError
    end).

(** The body of [for operation in values] of
    [create_many_to_many_related]. *)
Definition create_many_to_many_operation (instance : Z) (field : string)
    (field_pks : dict (list Z))
    (operation : string) (operand : operand) : M (dict (list Z)) :=
  if decide (operation = ADD) then
    match operand with
    | Pks pks =>
        do _ <- related_set ManyToMany instance field pks;
        ret (setitem field_pks field pks)
    | _ => raise TypeError
    end
  else if decide (operation = CREATE) then
    match operand with
    | Rows rows =>
        do pks <- bulk_create_objs ManyToMany field rows;
        do _ <- related_set ManyToMany instance field pks;
        ret (setitem field_pks field pks)
    | _ => raise TypeError
    end
  else ret field_pks.

Definition create_many_to_many_related (instance : Z) (data : dict value)
    : M (dict (list Z)) :=
  for_fold data [] (fun field_pks '(field, values) =>
    match values with
    | Operations values =>
        for_fold values field_pks (fun field_pks '(operation, operand) =>
          create_many_to_many_operation instance field
            field_pks operation operand)
    | _ => raise TypeError
    end).

(** [super().create(data)]: a new row of [Meta.model]. *)
Definition super_create (data : dict value) : M Z :=
  do r <- lift (to_row data);
  do pk <- fresh_pk;
  do st <- get_store;
  do _ <- set_table (<[(model_name Meta_model, pk) := r]> (table st));
  do _ <- emit Base (SuperCreate pk r);
  ret pk.

Definition create (validated_data : dict value) : M Z :=
  do (validated_data, fields) <- lift (classify validated_data);
  do objs <- create_writable_foreignkey_related (writable fields);
  let foreignkey_related := PyDict.update (replaceable fields) objs in
  do instance <-
    super_create (PyDict.update validated_data foreignkey_related);
  do _ <- create_many_to_many_related instance (many_related fields);
  do _ <- create_many_to_one_related instance (one_related fields);
  ret instance.

(** *** NestedUpdateMixin *)

Definition constrain_error_prefix (field : string) : string :=
  "Error on " +:+ field +:+ " field: ".

Definition msg_invalid_operation (operation : string) : string :=
  operation +:+ " is an invalid operation, ".

(** [setattr(instance, field, nested_obj)] then [instance.save()] *)
Definition update_replaceable_foreignkey_related (instance : Z)
    (data : dict value) : M unit :=
  for_each data (fun '(field, nested_obj) =>
    do v <- lift (to_scalar nested_obj);
    do st <- get_store;
    let key := (model_name Meta_model, instance) in
    let r := default [] (table st !! key) in
    do _ <- set_table (<[key := setitem r field v]> (table st));
    emit ReplaceableFK (InstanceSave instance field v)).

(** [getattr(instance, field)] for a single nested object: its key, or
    [None]. *)
Definition getattr_instance (st : store) (instance : Z) (field : string)
    : option Z :=
  match table st !! (model_name Meta_model, instance) ≫= (fun r => get r field) with
  | Some (SInt pk) => Some pk
  | _ => None
  end.

(** A serializer built without an instance creates on [save()]. *)
Definition update_writable_foreignkey_related (instance : Z)
    (data : dict value) : M unit :=
  for_each data (fun '(field, values) =>
    do f <- lift (getitem get_fields field);
    do st <- get_store;
    match values with
    | Data r =>
        match getattr_instance st instance field with
        | Some nested_obj =>
            serializer_update WritableFK (nested_model f) nested_obj r
        | None =>
            do _ <- serializer_create WritableFK (nested_model f) r;
            ret tt
        end
    | _ => raise TypeError
    end).

Definition bulk_create_many_to_many_related (instance : Z) (field : string)
    (data : list row) : M (list Z) :=
  do f <- lift (getitem get_fields field);
  do model <- lift (child_meta_model f);
  do pks <- for_fold data [] (fun pks values =>
    do obj <- serializer_create ManyToMany model values;
    ret (pks ++ [obj]));
  do _ <- related_add ManyToMany instance field pks;
  ret pks.

Definition bulk_create_many_to_one_related (field : string)
    (data : list row) : M (list Z) :=
  do f <- lift (getitem get_fields field);
  do model <- lift (child_meta_model f);
  for_fold data [] (fun pks values =>
    do obj <- serializer_create ManyToOne model values;
    ret (pks ++ [obj])).

(** [nested_obj.get(pk=pk)] looks among the members of the relation. *)
Definition bulk_update_many_to_many_related (instance : Z) (field : string)
    (data : list (Z * row)) : M (list Z) :=
  do f <- lift (getitem get_fields field);
  do model <- lift (child_meta_model f);
  for_fold data [] (fun objs '(pk, values) =>
    do st <- get_store;
    if bool_decide (pk ∈ members st instance field) then
      do _ <- serializer_update ManyToMany model pk values;
      ret (objs ++ [pk])
    else raise (DoesNotExist pk)).

(** [nested_obj.get(pk=pk)] looks among the rows that point at the
    instance. *)
Definition bulk_update_many_to_one_related (field : string) (instance : Z)
    (data : list (Z * row)) : M (list Z) :=
  do f <- lift (getitem get_fields field);
  do model <- lift (child_meta_model f);
  do d <- lift (getattr_model Meta_model field);
  let foreignkey := descr_field_name d in
  for_fold data [] (fun objs '(pk, values) =>
    do st <- get_store;
    if is_child (table st) model foreignkey instance pk then
      let values := setitem values foreignkey (SInt instance) in
      do _ <- serializer_update ManyToOne model pk values;
      ret (objs ++ [pk])
    else raise (DoesNotExist pk)).

(** The body of [for operation in values] of
    [update_many_to_one_related]. *)
Definition update_many_to_one_operation (instance : Z) (field : string)
    (foreignkey : string) (operation : string) (operand : operand)
    : M unit :=
  if decide (operation = ADD) then
    match operand with
    | Pks pks =>
        do f <- lift (getitem get_fields field);
        do model <- lift (child_meta_model f);
        queryset_update ManyToOne model pks foreignkey instance
    | _ => raise TypeError
    end
  else if decide (operation = CREATE) then
    match operand with
    | Rows rows =>
        let rows := map (fun v => setitem v foreignkey (SInt instance)) rows in
        do _ <- bulk_create_many_to_one_related field rows;
        ret tt
    | _ => raise TypeError
    end
  else if decide (operation = REMOVE) then
    match operand with
    | Pks pks =>
        do f <- lift (getitem get_fields field);
        do model <- lift (child_meta_model f);
        do st <- get_store;
        do _ <- set_table
          (delete_children model foreignkey instance pks (table st));
        emit ManyToOne (QuerysetDelete model pks)
    | _ => raise TypeError
    end
  else if decide (operation = UPDATE) then
    match operand with
    | PkRows m =>
        do _ <- bulk_update_many_to_one_related field instance m;
        ret tt
    | _ => raise TypeError
    end
  else raise (ValidationError (msg_invalid_operation operation)).

Definition update_many_to_one_related (instance : Z) (data : dict value)
    : M Z :=
  do _ <- for_each data (fun '(field, values) =>
    do d <- lift (getattr_model Meta_model field);
    let foreignkey := descr_field_name d in
    match values with
    | Operations values =>
        for_each values (fun '(operation, operand) =>
          update_many_to_one_operation instance field foreignkey
            operation operand)
    | _ => raise TypeError
    end);
  ret instance.

(** The body of [for operation in values] of
    [update_many_to_many_related]. *)
Definition update_many_to_many_operation (instance : Z) (field : string)
    (operation : string) (operand : operand) : M unit :=
  if decide (operation = ADD) then
    match operand with
    | Pks pks =>
        reraise_prefixed (constrain_error_prefix field)
          (related_add ManyToMany instance field pks)
    | _ => raise TypeError
    end
  else if decide (operation = CREATE) then
    match operand with
    | Rows rows =>
        do _ <- bulk_create_many_to_many_related instance field rows;
        ret tt
    | _ => raise TypeError
    end
  else if decide (operation = REMOVE) then
    match operand with
    | Pks pks =>
        reraise_prefixed (constrain_error_prefix field)
          (related_remove ManyToMany instance field pks)
    | _ => raise TypeError
    end
  else if decide (operation = UPDATE) then
    match operand with
    | PkRows m =>
        do _ <- bulk_update_many_to_many_related instance field m;
        ret tt
    | _ => raise TypeError
    end
  else raise (ValidationError (msg_invalid_operation operation)).

Definition update_many_to_many_related (instance : Z) (data : dict value)
    : M Z :=
  do _ <- for_each data (fun '(field, values) =>
    match values with
    | Operations values =>
        for_each values (fun '(operation, operand) =>
          update_many_to_many_operation instance field operation operand)
    | _ => raise TypeError
    end);
  ret instance.

(** [super().update(instance, validated_data)]: the data written over the
    row of the instance. *)
Definition super_update (instance : Z) (validated_data : dict value)
    : M Z :=
  do r <- lift (to_row validated_data);
  do st <- get_store;
  do _ <- set_table
    (alter (fun r0 => PyDict.update r0 r) (model_name Meta_model, instance)
       (table st));
  do _ <- emit Base (SuperUpdate instance r);
  ret instance.

Definition update (instance : Z) (validated_data : dict value) : M Z :=
  do (validated_data, fields) <- lift (classify validated_data);
  do _ <- update_replaceable_foreignkey_related instance (replaceable fields);
  do _ <- update_writable_foreignkey_related instance (writable fields);
  do _ <- update_many_to_many_related instance (many_related fields);
  do _ <- update_many_to_one_related instance (one_related fields);
  super_update instance validated_data.
End Mixins.

(** ** RestQLViewMixin *)

(** A value of the dict made by [get_restql_query_dict]: [None] under a flat
    field, the dict of the nested query under a nested one. *)
#[warnings="-register-all"]
Inductive pvalue :=
  | PNone
  | PDict (d : list (string * pvalue)).

(** A value of a [select_related] or [prefetch_related] mapping: [None], a
    string, a list, a [Prefetch] object, or a dict. *)
#[warnings="-register-all"]
Inductive mvalue :=
  | MNone
  | MStr (s : string)
  | MList (l : list mvalue)
  | MPrefetch (lookup : string)
  | MDict (d : list (string * mvalue)).

(** Python's truth value: [None], the empty string, the empty list and the
    empty dict are false. *)
Definition truthy (v : mvalue) : bool :=
  match v with
  | MNone | MStr "" | MList [] | MDict [] => false
  | _ => true
  end.

Module RestQLViewMixin.

(** [get_restql_query_dict]. With no [data], or with an empty one, the code
    starts again from [self.restql_query], so the recursion is not
    structural; [fuel] bounds the depth of the calls, and [None] tells that
    it ran out. [restql_query] is the parsed query of the request. *)
Fixpoint get_restql_query_dict (fuel : nat) (restql_query : query_t)
    (data : option query_t) : option (dict pvalue) :=
  match fuel with
  | O => None
  | S fuel =>
      let data :=
        match data with
        | None | Some [] => restql_query
        | Some data => data
        end in
      let nested :=
        fix nested (keys : dict pvalue) (items : list (string * query_t))
            : option (dict pvalue) :=
          match items with
          | [] => Some keys
          | (key, nested_items) :: rest =>
              nested_keys ← get_restql_query_dict fuel restql_query
                              (Some nested_items);
              nested (setitem keys key (PDict nested_keys)) rest
          end in
      let loop :=
        fix loop (keys : dict pvalue) (data : query_t)
            : option (dict pvalue) :=
          match data with
          | [] => Some keys
          | QFlat item :: rest => loop (setitem keys item PNone) rest
          | QNested item :: rest =>
              keys ← nested keys item;
              loop keys rest
          end in
      loop [] data
  end.

(** The values of a value of the mapping: of a dict, all the values found
    in it and in its nested dicts; of anything else, the value itself. *)
Fixpoint all_values (value : mvalue) : list mvalue :=
  match value with
  | MDict d => flat_map (fun kv => all_values kv.2) d
  | _ => [value]
  end.

(** [get_all_dict_values(dict_to_parse)]; what is no dict has no
    [values()]. *)
Definition get_all_dict_values (dict_to_parse : mvalue)
    : result (list mvalue) :=
  match dict_to_parse with
  | MDict d => Ok (flat_map (fun kv => all_values kv.2) d)
  | _ => Raise AttributeError
  end.

(** [mapping_value.get("base")] and [mapping_value.get("nested")] of a dict,
    the value itself and [None] otherwise. *)
Definition base_and_nested (mapping_value : mvalue) : mvalue * mvalue :=
  match mapping_value with
  | MDict d => (default MNone (get d "base"), default MNone (get d "nested"))
  | _ => (mapping_value, MNone)
  end.

(** [get_mapping_values(parsed, mapping)]. [parsed] comes as the [pvalue] it
    is in the dict it was taken from, and [mapping] as the value it is in
    the mapping it was taken from: [None] has no [items()], and what is no
    dict has no [keys()]. *)
Fixpoint get_mapping_values (parsed : pvalue) (mapping : mvalue)
    {struct parsed} : result (list mvalue) :=
  match parsed with
  | PNone => Raise AttributeError
  | PDict items =>
      (fix loop (items : list (string * pvalue)) (values : list mvalue)
           : result (list mvalue) :=
         match items with
         | [] => Ok values
         | (parsed_key, parsed_value) :: rest =>
             match mapping with
             | MDict mapping =>
                 if mem parsed_key (keys mapping) then
                   let* mapping_value := getitem mapping parsed_key in
                   let (base, nested) := base_and_nested mapping_value in
                   let values :=
                     if truthy base then values ++ [base] else values in
                   if truthy nested then
                     let* nested_values :=
                       match parsed_value with
                       | PDict _ => get_mapping_values parsed_value nested
                       | PNone => get_all_dict_values nested
                       end in
                     loop rest (values ++ nested_values)
                   else loop rest values
                 else loop rest values
             | _ => Raise AttributeError
             end
         end) items []
  end.

End RestQLViewMixin.

(** ** Notions the properties are stated with *)

(** The names a parsed query selects: its flat elements, and the keys of its
    nested elements together with their own queries. *)
Definition leaf_names (q : query_t) : list string :=
  flat_map (fun n => match n with QFlat name => [name] | QNested _ => [] end) q.

Definition nested_items (q : query_t) : dict query_t :=
  flat_map (fun n => match n with QFlat _ => [] | QNested d => d end) q.

Definition nested_keys (q : query_t) : list string := keys (nested_items q).

(** A field of one of the nested classes. *)
Definition is_nested_field (fields : dict field_obj) (name : string) : Prop :=
  ∃ f, get fields name = Some f ∧ DynamicFieldsMixin.nested_classes (cls f) = true.

(** The visible fields a call of [fields] returns. *)
Definition visible {S} (r : result (dict field_obj * S))
    : result (dict field_obj) :=
  let* x := r in Ok x.1.

(** The positions in which no parsed query reaches a serializer that is
    asked for its fields: the request is none to process; or the serializer
    sits under a parent serializer, or in a list under one, whose
    [nested_fields_queries] has nothing under its field name (and, when the
    parent has no such attribute, the serializer was given no query of its
    own); or the parent chain is of no known shape. *)
Inductive no_selection_tree (self : serializer) : Prop :=
  | no_request_to_process :
      DynamicFieldsMixin.is_not_a_request_to_process (context_request self) = true →
      no_selection_tree self
  | nested_field_not_selected p :
      parent self = Some (ParentSerializer p) →
      match nested_fields_queries_attr p with
      | Some scope => field_name self ≫= get scope = None
      | None => query self = None
      end →
      no_selection_tree self
  | list_item_not_selected name p :
      parent self = Some (ParentList name p) →
      ¬ (name = None ∧ p = None) →
      match p ≫= nested_fields_queries_attr with
      | Some scope => name ≫= get scope = None
      | None => query self = None
      end →
      no_selection_tree self
  | unknown_parent :
      parent self = Some ParentOther →
      no_selection_tree self
  | named_without_parent name :
      parent self = None → field_name self = Some name →
      no_selection_tree self.

(** A computation whose writes all come from the methods [P] admits: the
    log it leaves is the log it found followed by writes of those methods. *)
Definition writes_only {A} (P : origin → Prop) (m : M A) : Prop :=
  ∀ st, ∃ evs, log (m st).2 = log st ++ evs ∧ Forall (λ e, P e.1) evs.

(** The writes a run added to the log of the store it started from. *)
Definition new_writes (st st' : store) : list event :=
  drop (length (log st)) (log st').

(** What is kept true of a child that a has-many handler created for
    [instance]: its key is one the store has handed out, and for some
    has-many field among [fields], with the foreign key the model gives for
    it, both the data handed to the child serializer and the row of the
    child in the store hold the key of [instance] under that foreign key. *)
Definition stamped (Meta_model : model_class) (fields : list string)
    (instance : Z) (st : store) (e : event) : Prop :=
  match e with
  | (ManyToOne, SerializerCreate model pk data) =>
      (pk < next_pk st)%Z
      ∧ ∃ field d,
          field ∈ fields
          ∧ get (descriptors Meta_model) field = Some d
          ∧ get data (descr_field_name d) = Some (SInt instance)
          ∧ ∃ r, table st !! (model, pk) = Some r
                 ∧ get r (descr_field_name d) = Some (SInt instance)
  | _ => True
  end.

(** Since the store [st0], every write is one of a stamped child or
    another kind of write. *)
Definition all_stamped (Meta_model : model_class) (fields : list string)
    (instance : Z) (st0 st : store) : Prop :=
  ∃ evs, log st = log st0 ++ evs
         ∧ Forall (stamped Meta_model fields instance st) evs.

(** A computation that keeps [I] true of the store, whether it returns or
    raises. *)
Definition preserves {A} (I : store → Prop) (m : M A) : Prop :=
  ∀ st, I st → I (m st).2.

(** A computation that raises from whatever store it starts. *)
Definition always_raises {A} (m : M A) : Prop :=
  ∀ st, ∃ e, (m st).1 = Raise e.

(** ** The scenario of the specification *)

(** The entity [Post]: [title] is flat, [author] a replaceable single nested
    object, [comments] a has-many collection of [Comment], [tags] a
    many-to-many collection of [Tag]. *)
Definition Post_fields : dict field_obj :=
  [("title", {| cls := Field; is_replaceable := false; is_writable := false;
                nested_model := "" |});
   ("author", {| cls := Serializer; is_replaceable := true; is_writable := false;
                 nested_model := "User" |});
   ("comments", {| cls := ListSerializer; is_replaceable := false;
                   is_writable := true; nested_model := "Comment" |});
   ("tags", {| cls := ListSerializer; is_replaceable := false;
               is_writable := true; nested_model := "Tag" |})].

Definition Post : model_class :=
  {| model_name := "Post";
     descriptors :=
       [("comments", {| rel := ManyToOneRel; descr_field_name := "post" |});
        ("tags", {| rel := ManyToManyRel; descr_field_name := "posts" |})] |}.

(** A GET request with the query parameter. *)
Definition get_request (raw_query : string) : request :=
  {| method := "GET"; query_params := [("query", raw_query)] |}.

(** The [Post] serializer at the top of a retrieve request, built with the
    given [query] argument. *)
Definition Post_serializer (raw_query : string) (q : option query_t)
    : serializer :=
  {| super_fields := Post_fields;
     query := q;
     allowed_fields := None;
     excluded_fields := None;
     context_request := Some (get_request raw_query);
     field_name := None;
     parent := None;
     nested_fields_queries := None |}.

(** The serializer of a [Comment], with the fields text and author, as the
    child of the list serializer that is the field [comments] of a parent
    whose [nested_fields_queries] is [scope] (no such attribute if [None]).
    A list serializer binds its child under the empty field name. *)
Definition Comment_fields : dict field_obj :=
  [("text", {| cls := Field; is_replaceable := false; is_writable := false;
               nested_model := "" |});
   ("author", {| cls := Serializer; is_replaceable := true;
                 is_writable := false; nested_model := "User" |})].

Definition Comment_serializer (raw_query : string)
    (scope : option (dict query_t)) : serializer :=
  {| super_fields := Comment_fields;
     query := None;
     allowed_fields := None;
     excluded_fields := None;
     context_request := Some (get_request raw_query);
     field_name := Some "";
     parent :=
       Some (ParentList (Some "comments")
               (Some {| nested_fields_queries_attr := scope |}));
     nested_fields_queries := None |}.

(** A parser that gives the same parsed query for every text, and the order
    of first occurrence as the order of iteration over a set. *)
Definition constant_parser (q : query_t)
    : string → (string * string) + query_t :=
  fun _ => inr q.

Definition first_occurrence_order (l : list string) : list string :=
  remove_dups l.

(** A [Post] serializer nested under a parent serializer as the field
    [post], the parent having recorded the given nested scope. *)
Definition nested_Post_serializer (scope : dict query_t) : serializer :=
  {| super_fields := Post_fields;
     query := None;
     allowed_fields := None;
     excluded_fields := None;
     context_request := Some (get_request "{title}");
     field_name := Some "post";
     parent := Some (ParentSerializer {| nested_fields_queries_attr := Some scope |});
     nested_fields_queries := None |}.

(** The [Post] serializer at the top of a POST request that carries the
    query parameter, built with the given [query] argument. *)
Definition posted_Post_serializer (q : option query_t) : serializer :=
  {| super_fields := Post_fields;
     query := q;
     allowed_fields := None;
     excluded_fields := None;
     context_request :=
       Some {| method := "POST"; query_params := [("query", "{title}")] |};
     field_name := None;
     parent := None;
     nested_fields_queries := None |}.

(** The selection [["author", {"comments": ["text"]}]] and the mapping
    [{author: "join:author", comments: {base: "prefetch:comments",
    nested: {text: t}}}] of the load-plan scenario. *)
Definition author_and_comment_text : query_t :=
  [QFlat "author"; QNested [("comments", [QFlat "text"])]].

Definition load_mapping (t : mvalue) : mvalue :=
  MDict
    [("author", MStr "join:author");
     ("comments", MDict [("base", MStr "prefetch:comments");
                         ("nested", MDict [("text", t)])])].

(** A data store holding the tags 1 and 2, and a post 5 with the tags 3
    and 4; a data store that refuses nothing and child serializers that
    find every data valid. *)
Definition some_store : store :=
  {| table := {[ ("Tag", 1%Z) := [("name", SStr "a")];
                 ("Tag", 2%Z) := [("name", SStr "b")];
                 ("Post", 5%Z) := [("title", SStr "old")] ]};
     related := {[ (5%Z, "tags") := {[ 3%Z; 4%Z ]} ]};
     next_pk := 10;
     log := [] |}.

Definition no_error : store → Z → string → list Z → option string :=
  fun _ _ _ _ => None.

Definition all_valid : string → row → bool := fun _ _ => true.

(** [{title: "x", tags: {ADD: [1, 2], CREATE: [{name: "c"}]}}] *)
Definition payload_add_and_create_tags : dict value :=
  [("title", Plain (SStr "x"));
   ("tags", Operations [(ADD, Pks [1; 2]%Z);
                        (CREATE, Rows [[("name", SStr "c")]])])].

(** [{title: "x", comments: {CREATE: [{text: "hi"}]}}] *)
Definition payload_create_comment : dict value :=
  [("title", Plain (SStr "x"));
   ("comments", Operations [(CREATE, Rows [[("text", SStr "hi")]])])].

(** [{title: "x", comments: {"replace": [{text: "hi"}]}}], with an
    operation key that is none of the four. *)
Definition payload_unknown_operation : dict value :=
  [("title", Plain (SStr "x"));
   ("comments", Operations [("replace", Rows [[("text", SStr "hi")]])])].

(** ** Further notions *)

(** What iterating over [set(l)] gives, in whatever order: every element of
    [l], once. *)
Definition set_iteration (set_iter : list string → list string) : Prop :=
  ∀ l, NoDup (set_iter l) ∧ ∀ x, x ∈ set_iter l ↔ x ∈ l.

(** The serializer is asked for its fields in a request to process, and
    lines 116-134 of [fields] leave it with the parsed query [q]. *)
Definition selects (get_parsed : string → (string * string) + query_t)
    (self : serializer) (q : query_t) : Prop :=
  ∃ req self',
    context_request self = Some req
    ∧ DynamicFieldsMixin.is_not_a_request_to_process (Some req) = false
    ∧ DynamicFieldsMixin.locate_query get_parsed self req
      = Ok (DynamicFieldsMixin.Located self')
    ∧ query self' = Some q.

(** A [Post] serializer at the top of a GET request, built with the given
    [fields] and [exclude] arguments. *)
Definition Post_serializer_with (fields exclude : option (list string))
    : serializer :=
  {| super_fields := Post_fields;
     query := None;
     allowed_fields := fields;
     excluded_fields := exclude;
     context_request := Some (get_request "{title}");
     field_name := None;
     parent := None;
     nested_fields_queries := None |}.


(** A value filed under one of the four kinds of the partition. *)
Definition filed (fs : partition) (k : string) (v : value) : Prop :=
  get (replaceable fs) k = Some v
  ∨ get (writable fs) k = Some v
  ∨ get (many_related fs) k = Some v
  ∨ get (one_related fs) k = Some v.

(** The partition [fs'] is [fs] with [v] put under [k] in one of the four
    kinds. *)
Definition files (fs : partition) (k : string) (v : value) (fs' : partition)
    : Prop :=
  fs' = {| replaceable := setitem (replaceable fs) k v;
           writable := writable fs;
           many_related := many_related fs;
           one_related := one_related fs |}
  ∨ fs' = {| replaceable := replaceable fs;
             writable := setitem (writable fs) k v;
             many_related := many_related fs;
             one_related := one_related fs |}
  ∨ fs' = {| replaceable := replaceable fs;
             writable := writable fs;
             many_related := setitem (many_related fs) k v;
             one_related := one_related fs |}
  ∨ fs' = {| replaceable := replaceable fs;
             writable := writable fs;
             many_related := many_related fs;
             one_related := setitem (one_related fs) k v |}.

(** A field that [create] and [update] do not write through: it is no
    serializer, or it is neither replaceable nor writable. *)
Definition passes_through (f : field_obj) : Prop :=
  cls f = Field ∨ cls f = DynamicSerializerMethodField
  ∨ (is_replaceable f = false ∧ is_writable f = false).


(** [{title: "x"}]: plain data only. *)
Definition payload_plain : dict value := [("title", Plain (SStr "x"))].


(** A data store with two comments, 21 of the post 5 and 22 of the post 6. *)
Definition comment_store : store :=
  {| table := {[ ("Post", 5%Z) := [("title", SStr "a")];
                 ("Post", 6%Z) := [("title", SStr "b")];
                 ("Comment", 21%Z) := [("text", SStr "one"); ("post", SInt 5)];
                 ("Comment", 22%Z) := [("text", SStr "two"); ("post", SInt 6)] ]};
     related := ∅;
     next_pk := 30;
     log := [] |}.


(** ** RestQLViewMixin: the queryset *)

(** A queryset is known by the calls of [select_related] and
    [prefetch_related] made on it, oldest first. *)
Inductive queryset_call :=
  | SelectRelated (value : mvalue)
  | PrefetchRelated (value : mvalue).

Definition QuerySet := list queryset_call.

(** [serializer_class.Meta], with its attributes [select_related] and
    [prefetch_related] when it has them. *)
Record meta_class := {
  meta_select_related : option mvalue;
  meta_prefetch_related : option mvalue
}.

(** What [get_serializer_class()] gives: whether the class has the attribute
    [query_param_name], and its [Meta] when it has one. *)
Record serializer_class := {
  has_query_param_name : bool;
  Meta : option meta_class
}.

(** A view: the queryset of [super().get_queryset()], the attributes
    [select_related] and [prefetch_related] when the view has them, its
    serializer class ([None] when there is none) and its request. *)
Record view := {
  super_get_queryset : QuerySet;
  view_select_related : option mvalue;
  view_prefetch_related : option mvalue;
  get_serializer_class : option serializer_class;
  view_request : request
}.

Module RestQLView.
Import DynamicFieldsMixin RestQLViewMixin.

Section WithParser.
Variable get_parsed : string → (string * string) + query_t.

(** The property [restql_query]: [None] when the serializer class has no
    [query_param_name]. *)
Definition restql_query (self : view) : result (option query_t) :=
  match get_serializer_class self with
  | Some serializer_class =>
      if has_query_param_name serializer_class then
        let* q := get_parsed_query_from_req get_parsed (view_request self) in
        Ok (Some q)
      else Ok None
  | None => Ok None
  end.

Definition get_prefetch_related_mapping (self : view) : mvalue :=
  match view_prefetch_related self with
  | Some mapping => mapping
  | None =>
      match (get_serializer_class self ≫= Meta) ≫= meta_prefetch_related with
      | Some mapping => mapping
      | None => MDict []
      end
  end.

Definition get_select_related_mapping (self : view) : mvalue :=
  match view_select_related self with
  | Some mapping => mapping
  | None =>
      match (get_serializer_class self ≫= Meta) ≫= meta_select_related with
      | Some mapping => mapping
      | None => MDict []
      end
  end.

(** [for value in select_mapped]: a string is one call, a list one call for
    each of its elements, anything else none. *)
Fixpoint select_related_loop (queryset : QuerySet) (values : list mvalue)
    : QuerySet :=
  match values with
  | [] => queryset
  | value :: rest =>
      let queryset :=
        match value with
        | MStr _ => queryset ++ [SelectRelated value]
        | MList l =>
            fold_left
              (fun queryset select_value =>
                 queryset ++ [SelectRelated select_value])
              l queryset
        | _ => queryset
        end in
      select_related_loop queryset rest
  end.

(** [for value in prefetch_mapped]: a string or a [Prefetch] object is one
    call, a list one call for each of its elements, anything else none. *)
Fixpoint prefetch_related_loop (queryset : QuerySet) (values : list mvalue)
    : QuerySet :=
  match values with
  | [] => queryset
  | value :: rest =>
      let queryset :=
        match value with
        | MStr _ | MPrefetch _ => queryset ++ [PrefetchRelated value]
        | MList l =>
            fold_left
              (fun queryset prefetch_value =>
                 queryset ++ [PrefetchRelated prefetch_value])
              l queryset
        | _ => queryset
        end in
      prefetch_related_loop queryset rest
  end.

(** [apply_restql_orm_mapping(queryset)]. [get_restql_query_dict()] is
    called without data, so it starts from [self.restql_query], which must
    be a list to iterate over; [None] for the whole tells that
    [get_restql_query_dict] ran out of [fuel]. *)
Definition apply_restql_orm_mapping (fuel : nat) (self : view)
    (queryset : QuerySet) : option (result QuerySet) :=
  match restql_query self with
  | Raise e => Some (Raise e)
  | Ok None => Some (Raise TypeError)
  | Ok (Some q) =>
      parsed_keys ← get_restql_query_dict fuel q None;
      let select := get_select_related_mapping self in
      let prefetch := get_prefetch_related_mapping self in
      Some
        (let* select_mapped := get_mapping_values (PDict parsed_keys) select in
         let* prefetch_mapped :=
           get_mapping_values (PDict parsed_keys) prefetch in
         let queryset := select_related_loop queryset select_mapped in
         let queryset := prefetch_related_loop queryset prefetch_mapped in
         Ok queryset)
  end.

Definition get_restql_queryset (fuel : nat) (self : view)
    (queryset : QuerySet) : option (result QuerySet) :=
  match restql_query self with
  | Raise e => Some (Raise e)
  | Ok None => Some (Ok queryset)
  | Ok (Some _) => apply_restql_orm_mapping fuel self queryset
  end.

Definition get_queryset (fuel : nat) (self : view)
    : option (result QuerySet) :=
  let queryset := super_get_queryset self in
  match restql_query self with
  | Raise e => Some (Raise e)
  | Ok None => Some (Ok queryset)
  | Ok (Some _) => get_restql_queryset fuel self queryset
  end.
End WithParser.

End RestQLView.

(** A view over posts whose serializer class filters by the query, with
    the given mappings on the view, at a GET request with the given query
    text. *)
Definition Post_view (select prefetch : option mvalue) (raw_query : string)
    : view :=
  {| super_get_queryset := [];
     view_select_related := select;
     view_prefetch_related := prefetch;
     get_serializer_class :=
       Some {| has_query_param_name := true; Meta := None |};
     view_request := get_request raw_query |}.

(** The calls of [select_related], and of [prefetch_related], that a list
    of mapped values stands for. *)
Definition select_calls (values : list mvalue) : QuerySet :=
  flat_map
    (fun value =>
       match value with
       | MStr _ => [SelectRelated value]
       | MList l => map SelectRelated l
       | _ => []
       end) values.

Definition prefetch_calls (values : list mvalue) : QuerySet :=
  flat_map
    (fun value =>
       match value with
       | MStr _ | MPrefetch _ => [PrefetchRelated value]
       | MList l => map PrefetchRelated l
       | _ => []
       end) values.

(** The loop of [get_mapping_values] over the items of the selection, by
    name: [get_mapping_values (PDict items) mapping] is
    [mapping_values_loop mapping items []]. *)
Definition mapping_values_loop (mapping : mvalue)
    : list (string * pvalue) → list mvalue → result (list mvalue) :=
  fix loop (items : list (string * pvalue)) (values : list mvalue)
      : result (list mvalue) :=
    match items with
    | [] => Ok values
    | (parsed_key, parsed_value) :: rest =>
        match mapping with
        | MDict mapping =>
            if mem parsed_key (keys mapping) then
              let* mapping_value := getitem mapping parsed_key in
              let (base, nested) :=
                RestQLViewMixin.base_and_nested mapping_value in
              let values :=
                if truthy base then values ++ [base] else values in
              if truthy nested then
                let* nested_values :=
                  match parsed_value with
                  | PDict _ =>
                      RestQLViewMixin.get_mapping_values parsed_value nested
                  | PNone => RestQLViewMixin.get_all_dict_values nested
                  end in
                loop rest (values ++ nested_values)
              else loop rest values
            else loop rest values
        | _ => Raise AttributeError
        end
    end.

(** A value of a mapping that stands for itself: it is true and no dict. *)
Definition plain_directive (v : mvalue) : Prop :=
  truthy v = true ∧ ∀ d, v ≠ MDict d.

(** The dict that [get_restql_query_dict] builds from a parsed query,
    element by element: [None] under a flat name, the dict of the nested
    query under a nested key; a name met again keeps its place and takes
    the later value. *)
Fixpoint node_keys (keys : dict pvalue) (n : qnode) : dict pvalue :=
  match n with
  | QFlat item => setitem keys item PNone
  | QNested d =>
      fold_left
        (fun keys kv => setitem keys kv.1 (PDict (fold_left node_keys kv.2 [])))
        d keys
  end.

Definition query_dict (q : query_t) : dict pvalue := fold_left node_keys q [].

(** The depth of nesting of a parsed query, and whether every nested query
    in it has an element. *)
Fixpoint node_depth (n : qnode) : nat :=
  match n with
  | QFlat _ => 0
  | QNested d =>
      S (foldr (fun kv acc =>
                  Nat.max (foldr (fun n acc => Nat.max (node_depth n) acc) 0 kv.2)
                          acc) 0 d)
  end.

Definition query_depth (q : query_t) : nat :=
  foldr (fun n acc => Nat.max (node_depth n) acc) 0 q.

Fixpoint node_selects (n : qnode) : bool :=
  match n with
  | QFlat _ => true
  | QNested d =>
      forallb (fun kv => match kv.2 with
                         | [] => false
                         | _ => forallb node_selects kv.2
                         end) d
  end.

Definition query_selects (q : query_t) : bool :=
  match q with
  | [] => false
  | _ => forallb node_selects q
  end.

(** The two loops of [get_restql_query_dict], by name: over the items of a
    nested element, and over the elements of the data. With [S fuel] the
    function is [query_dict_loop fuel restql_query []] on its data. *)
Definition query_dict_nested (fuel : nat) (restql_query : query_t)
    : dict pvalue → list (string * query_t) → option (dict pvalue) :=
  fix nested (keys : dict pvalue) (items : list (string * query_t))
      : option (dict pvalue) :=
    match items with
    | [] => Some keys
    | (key, nested_items) :: rest =>
        nested_keys ← RestQLViewMixin.get_restql_query_dict fuel restql_query
                        (Some nested_items);
        nested (setitem keys key (PDict nested_keys)) rest
    end.

Definition query_dict_loop (fuel : nat) (restql_query : query_t)
    : dict pvalue → query_t → option (dict pvalue) :=
  fix loop (keys : dict pvalue) (data : query_t) : option (dict pvalue) :=
    match data with
    | [] => Some keys
    | QFlat item :: rest => loop (setitem keys item PNone) rest
    | QNested item :: rest =>
        keys ← query_dict_nested fuel restql_query keys item;
        loop keys rest
    end.

(** A value of a mapping that carries no directive: neither what it gives
    as [base] nor what it gives as [nested] is true. [None], the empty
    string, the empty list and the empty dict are such values. *)
Definition no_directive (v : mvalue) : Prop :=
  truthy (RestQLViewMixin.base_and_nested v).1 = false
  ∧ truthy (RestQLViewMixin.base_and_nested v).2 = false.

(** The values found in a value of a mapping at any depth: the value
    itself when it is no dict, and what is found in the value of one of
    its entries when it is one. *)
Inductive leaf_of : mvalue → mvalue → Prop :=
  | leaf_here (v : mvalue) : (∀ d, v ≠ MDict d) → leaf_of v v
  | leaf_under (d : dict mvalue) (key : string) (inner v : mvalue) :
      (key, inner) ∈ d → leaf_of inner v → leaf_of (MDict d) v.

(** * Properties *)

(** ** Facts about dictionaries *)

Section DictFacts.
Context {V : Type}.
Implicit Types (d : dict V) (k : string).

Lemma get_Some_elem_of d k v : get d k = Some v → (k, v) ∈ d.
Proof.
  induction d as [|[k' v'] d IH]; simpl; [done|].
  destruct (decide (k = k')) as [->|]; intros H.
  - injection H as ->. apply elem_of_cons; by left.
  - apply elem_of_cons; right; auto.
Qed.

Lemma get_is_Some d k : k ∈ keys d ↔ is_Some (get d k).
Proof.
  unfold keys. induction d as [|[k' v'] d IH]; simpl.
  - split; [intros H; inversion H | intros [? ?]; done].
  - destruct (decide (k = k')) as [->|Hne].
    + split; [eauto | intros _; apply elem_of_cons; by left].
    + rewrite elem_of_cons, IH. naive_solver.
Qed.

Lemma get_None d k : k ∉ keys d ↔ get d k = None.
Proof. rewrite get_is_Some, eq_None_not_Some. done. Qed.

Lemma get_app_notin pre d k : k ∉ keys pre → get (pre ++ d) k = get d k.
Proof.
  unfold keys. induction pre as [|[k' v'] pre IH]; simpl; [done|].
  rewrite not_elem_of_cons. intros [Hne Hnotin].
  destruct (decide (k = k')); [done | auto].
Qed.

Lemma remove_app_notin pre d k :
  k ∉ keys pre → remove (pre ++ d) k = pre ++ remove d k.
Proof.
  unfold keys. induction pre as [|[k' v'] pre IH]; simpl; [done|].
  rewrite not_elem_of_cons. intros [Hne Hnotin].
  destruct (decide (k = k')); [done|]. by rewrite IH.
Qed.

Lemma keys_remove_sublist d k : sublist (keys (remove d k)) (keys d).
Proof.
  unfold keys. induction d as [|[k' v'] d IH]; simpl; [done|].
  destruct (decide (k = k')); simpl.
  - by apply sublist_cons.
  - by apply sublist_skip.
Qed.

Lemma wf_remove d k : wf d → wf (remove d k).
Proof. unfold wf. apply (λ H, sublist_NoDup _ _ H (keys_remove_sublist d k)). Qed.

Lemma keys_setitem d k v :
  ∀ x, x ∈ keys (setitem d k v) ↔ x = k ∨ x ∈ keys d.
Proof.
  unfold keys. induction d as [|[k' v'] d IH]; simpl; intros x.
  - rewrite list_elem_of_singleton. split; [auto|]. intros [?|H]; [done|].
    inversion H.
  - destruct (decide (k = k')) as [->|Hne]; simpl.
    + rewrite !elem_of_cons. naive_solver.
    + rewrite !elem_of_cons, IH. naive_solver.
Qed.

Lemma keys_update d d2 :
  ∀ x, x ∈ keys (PyDict.update d d2) ↔ x ∈ keys d ∨ x ∈ keys d2.
Proof.
  unfold PyDict.update. revert d.
  induction d2 as [|[k v] d2 IH]; simpl; intros d x.
  - split; [auto|]. intros [?|H]; [done|]. inversion H.
  - rewrite IH, keys_setitem. unfold keys at 3. simpl.
    rewrite elem_of_cons. unfold keys. naive_solver.
Qed.

Lemma update_app d d1 d2 :
  PyDict.update d (d1 ++ d2) = PyDict.update (PyDict.update d d1) d2.
Proof. unfold PyDict.update. apply fold_left_app. Qed.
End DictFacts.

(** ** DynamicFieldsMixin *)

Section DynamicFieldsFacts.
Import DynamicFieldsMixin.
Variable get_parsed : string → (string * string) + query_t.
Variable set_iter : list string → list string.

Lemma is_none_true {A} (x : option A) : is_none x = true ↔ x = None.
Proof. destruct x; simpl; split; congruence. Qed.

Lemma fields_not_to_process self :
  is_not_a_request_to_process (context_request self) = true →
  fields get_parsed set_iter self
  = (let* f := get_allowed_fields set_iter self in Ok (f, self)).
Proof. intros H. unfold fields. by rewrite H. Qed.

Lemma fields_query_None self req self' :
  is_not_a_request_to_process (context_request self) = false →
  context_request self = Some req →
  locate_query get_parsed self req = Ok (Located self') →
  query self' = None →
  fields get_parsed set_iter self
  = (let* f := get_allowed_fields set_iter self in Ok (f, self')).
Proof.
  intros Hp Hreq Hloc Hq. unfold fields.
  destruct (get_allowed_fields set_iter self) as [f|e]; simpl; [|done].
  rewrite Hp, Hreq, Hloc. simpl. by rewrite Hq.
Qed.

Lemma fields_unknown_scenario self req :
  context_request self = Some req →
  locate_query get_parsed self req = Ok UnknownScenario →
  fields get_parsed set_iter self
  = (let* f := get_allowed_fields set_iter self in Ok (f, self)).
Proof.
  intros Hreq Hloc. unfold fields.
  destruct (get_allowed_fields set_iter self) as [f|e]; simpl; [|done].
  destruct (is_not_a_request_to_process (context_request self)); [done|].
  by rewrite Hreq, Hloc.
Qed.

Lemma visible_bind self (self' : serializer) :
  visible (let* f := get_allowed_fields set_iter self in Ok (f, self'))
  = get_allowed_fields set_iter self.
Proof. unfold visible. by destruct (get_allowed_fields set_iter self). Qed.
End DynamicFieldsFacts.

(** C9. Resolving with no selection tree is the identity: in every position
    in which no parsed query reaches the serializer, the visible fields
    [fields] returns are the full fields [get_allowed_fields] gives,
    unchanged and in the same order (and [fields] raises exactly when
    [get_allowed_fields] does). *)
Theorem fields_without_selection_tree_is_identity
    (get_parsed : string → (string * string) + query_t)
    (set_iter : list string → list string) (self : serializer) :
  no_selection_tree self →
  visible (DynamicFieldsMixin.fields get_parsed set_iter self)
  = DynamicFieldsMixin.get_allowed_fields set_iter self.
Proof.
  intros Hno.
  destruct (DynamicFieldsMixin.is_not_a_request_to_process (context_request self))
    eqn:Hproc.
  { rewrite fields_not_to_process by done. apply visible_bind. }
  destruct (context_request self) as [req|] eqn:Hreq; [|done].
  destruct Hno as [H | p Hp Hscope | name p Hp Hnot Hscope | Hp | name Hp Hname].
  - rewrite Hreq in H. simpl in *. congruence.
  - destruct (nested_fields_queries_attr p) as [scope|] eqn:Hattr.
    + rewrite (fields_query_None _ _ self req
                 (set_query self (field_name self ≫= get scope))); try done; try (by rewrite Hreq).
      * apply visible_bind.
      * unfold DynamicFieldsMixin.locate_query,
          DynamicFieldsMixin.is_top_retrieve_request,
          DynamicFieldsMixin.is_top_list_request,
          DynamicFieldsMixin.query_from_parent.
        rewrite Hp. simpl. rewrite Hattr. by rewrite andb_false_r.
    + rewrite (fields_query_None _ _ self req self); try done; try (by rewrite Hreq).
      * apply visible_bind.
      * unfold DynamicFieldsMixin.locate_query,
          DynamicFieldsMixin.is_top_retrieve_request,
          DynamicFieldsMixin.is_top_list_request,
          DynamicFieldsMixin.query_from_parent.
        rewrite Hp. simpl. rewrite Hattr. by rewrite andb_false_r.
  - assert (Htop : DynamicFieldsMixin.is_top_retrieve_request self
                   || DynamicFieldsMixin.is_top_list_request self = false).
    { unfold DynamicFieldsMixin.is_top_retrieve_request,
        DynamicFieldsMixin.is_top_list_request.
      rewrite Hp. simpl. rewrite andb_false_r. simpl.
      destruct p, name; simpl; try done. by destruct Hnot. }
    destruct (p ≫= nested_fields_queries_attr) as [scope|] eqn:Hattr.
    + rewrite (fields_query_None _ _ self req
                 (set_query self (name ≫= get scope))); try done; try (by rewrite Hreq).
      * apply visible_bind.
      * unfold DynamicFieldsMixin.locate_query. rewrite Htop, Hp.
        unfold DynamicFieldsMixin.query_from_parent. by rewrite Hattr.
    + rewrite (fields_query_None _ _ self req self); try done; try (by rewrite Hreq).
      * apply visible_bind.
      * unfold DynamicFieldsMixin.locate_query. rewrite Htop, Hp.
        unfold DynamicFieldsMixin.query_from_parent. by rewrite Hattr.
  - rewrite fields_unknown_scenario with (req := req); try done; try (by rewrite Hreq).
    + apply visible_bind.
    + unfold DynamicFieldsMixin.locate_query,
        DynamicFieldsMixin.is_top_retrieve_request,
        DynamicFieldsMixin.is_top_list_request.
      rewrite Hp. simpl. by rewrite andb_false_r.
  - rewrite fields_unknown_scenario with (req := req); try done; try (by rewrite Hreq).
    + apply visible_bind.
    + unfold DynamicFieldsMixin.locate_query,
        DynamicFieldsMixin.is_top_retrieve_request,
        DynamicFieldsMixin.is_top_list_request.
      rewrite Hp, Hname. done.
Qed.

(** C10. Filtering by the query applies only to GET requests that carry the
    query parameter: with no request in the context, with a method other
    than GET, or without the query parameter, [fields] returns what
    [get_allowed_fields] gives (the full fields after the [fields] and
    [exclude] arguments) and leaves the serializer as it is, whatever
    [query] it was built with. *)
Theorem fields_unfiltered_unless_GET_with_query_param
    (get_parsed : string → (string * string) + query_t)
    (set_iter : list string → list string) (self : serializer) :
  (context_request self = None
   ∨ ∃ req, context_request self = Some req
            ∧ (method req ≠ "GET"
               ∨ DynamicFieldsMixin.query_param_name ∉ keys (query_params req))) →
  DynamicFieldsMixin.fields get_parsed set_iter self
  = (let* f := DynamicFieldsMixin.get_allowed_fields set_iter self in
     Ok (f, self)).
Proof.
  intros H. apply fields_not_to_process.
  destruct H as [-> | (req & -> & H)]; [done|]. simpl.
  unfold DynamicFieldsMixin.has_query_param, mem.
  destruct H as [H|H].
  - by rewrite (bool_decide_false _ H).
  - rewrite (bool_decide_false _ H). simpl. apply orb_true_r.
Qed.

Section ResolveFacts.
Import DynamicFieldsMixin.

Lemma mem_true x l : mem x l = true ↔ x ∈ l.
Proof. unfold mem. apply bool_decide_eq_true. Qed.

Lemma mem_false x l : mem x l = false ↔ x ∉ l.
Proof. unfold mem. apply bool_decide_eq_false. Qed.

Lemma check_nested_fields_ok fs all field ks :
  (∀ k, k ∈ ks → k ∈ all ∧ is_nested_field fs k) →
  check_nested_fields fs all field ks = Ok tt.
Proof.
  induction ks as [|k ks IH]; simpl; intros H; [done|].
  destruct (H k) as [Hin (f & Hget & Hcls)]; [apply elem_of_cons; by left|].
  apply mem_true in Hin. rewrite Hin. simpl.
  unfold getitem. rewrite Hget. simpl. rewrite Hcls. simpl.
  apply IH. intros k' Hk'. apply H, elem_of_cons. by right.
Qed.

Lemma scan_query_ok fs all q :
  (∀ name, name ∈ leaf_names q → name ∈ all) →
  (∀ name, name ∈ nested_keys q → name ∈ all ∧ is_nested_field fs name) →
  ∀ nested flat,
    scan_query fs all q nested flat
    = Ok (PyDict.update nested (nested_items q), flat ++ leaf_names q).
Proof.
  unfold nested_keys.
  induction q as [|[name|d] q IH]; simpl; intros Hleaf Hnest nested flat.
  - by rewrite app_nil_r.
  - assert (Hin : mem name all = true).
    { apply mem_true, Hleaf, elem_of_cons. by left. }
    rewrite Hin. simpl. rewrite IH.
    + by rewrite <- app_assoc.
    + intros x Hx. apply Hleaf, elem_of_cons. by right.
    + done.
  - rewrite check_nested_fields_ok. 2:{
      intros k Hk. apply Hnest. unfold keys in *.
      rewrite fmap_app. apply elem_of_app. by left. }
    simpl. rewrite IH.
    + by rewrite update_app.
    + done.
    + intros x Hx. apply Hnest. unfold keys in *.
      rewrite fmap_app. apply elem_of_app. by right.
Qed.

Lemma pop_unselected_filter allowed (pre post : dict field_obj) :
  wf (pre ++ post) →
  pop_unselected (pre ++ post) (keys post) allowed
  = Ok (pre ++ filter (λ kv, kv.1 ∈ allowed) post).
Proof.
  revert pre. induction post as [|[k v] post IH]; simpl; intros pre Hwf.
  - done.
  - assert (Hk : k ∉ keys pre).
    { unfold wf, keys in *. rewrite fmap_app in Hwf.
      apply NoDup_app in Hwf as (_ & Hdisj & _).
      intros Hin. apply (Hdisj k Hin). simpl. apply elem_of_cons. by left. }
    unfold dict in *. rewrite filter_cons. simpl.
    destruct (mem k allowed) eqn:Hmem; simpl.
    + apply mem_true in Hmem. rewrite decide_True by done.
      specialize (IH (pre ++ [(k, v)])). rewrite <- !app_assoc in IH.
      simpl in IH. apply IH. done.
    + apply mem_false in Hmem. rewrite decide_False by done.
      unfold pop. rewrite get_app_notin by done. simpl.
      rewrite decide_True by done.
      rewrite remove_app_notin by done. simpl.
      rewrite decide_True by done.
      apply IH. unfold wf, keys in *. rewrite fmap_app in *. simpl in Hwf.
      apply NoDup_app in Hwf as (H1 & H2 & H3). apply NoDup_app.
      split; [done|]. split.
      * intros x Hx Hx'. apply (H2 x Hx), elem_of_cons. by right.
      * by apply NoDup_cons in H3 as [_ ?].
Qed.

Lemma wf_pop_not_allowed fs names fs' :
  wf fs → pop_not_allowed fs names = Ok fs' → wf fs'.
Proof.
  revert fs. induction names as [|k names IH]; simpl; intros fs Hwf.
  - by intros [= <-].
  - unfold pop. destruct (get fs k); [|done]. apply IH. by apply wf_remove.
Qed.

Lemma wf_get_allowed_fields set_iter self fs :
  wf (super_fields self) →
  get_allowed_fields set_iter self = Ok fs → wf fs.
Proof.
  unfold get_allowed_fields. intros Hwf.
  destruct (allowed_fields self) as [allowed|]; simpl.
  - destruct (pop_not_allowed _ _) as [fs1|] eqn:H1; simpl; [|done].
    apply wf_pop_not_allowed in H1; [|done].
    destruct (excluded_fields self); [|by intros [= <-]].
    by apply wf_pop_not_allowed.
  - destruct (excluded_fields self); [|by intros [= <-]].
    by apply wf_pop_not_allowed.
Qed.
End ResolveFacts.

Lemma DynamicFieldsFacts_scan (full : dict field_obj) (q : query_t) :
  (∀ name, name ∈ leaf_names q → name ∈ keys full) →
  (∀ name, name ∈ nested_keys q →
           name ∈ keys full ∧ is_nested_field full name) →
  DynamicFieldsMixin.scan_query full (keys full) q [] []
  = Ok (PyDict.update [] (nested_items q), leaf_names q).
Proof. intros H1 H2. by rewrite (scan_query_ok full (keys full) q H1 H2). Qed.

(** C3, as amended. For a selection tree all of whose leaf names and
    nested-key names exist in the full fields and all of whose nested keys
    name fields of a nested class, [fields] returns exactly the full fields
    named by a leaf or by a nested key: a sublist of the full fields, in
    their order. *)
Theorem fields_resolves_valid_selection
    (get_parsed : string → (string * string) + query_t)
    (set_iter : list string → list string)
    (self self' : serializer) (req : request) (q : query_t)
    (full : dict field_obj) :
  wf (super_fields self) →
  DynamicFieldsMixin.get_allowed_fields set_iter self = Ok full →
  context_request self = Some req →
  DynamicFieldsMixin.is_not_a_request_to_process (Some req) = false →
  DynamicFieldsMixin.locate_query get_parsed self req
  = Ok (DynamicFieldsMixin.Located self') →
  query self' = Some q →
  (∀ name, name ∈ leaf_names q → name ∈ keys full) →
  (∀ name, name ∈ nested_keys q →
           name ∈ keys full ∧ is_nested_field full name) →
  ∃ vis self'',
    DynamicFieldsMixin.fields get_parsed set_iter self = Ok (vis, self'')
    ∧ vis = filter (λ kv, kv.1 ∈ leaf_names q ++ nested_keys q) full
    ∧ vis `sublist_of` full
    ∧ (∀ name, name ∈ keys vis ↔ name ∈ leaf_names q ∨ name ∈ nested_keys q)
    ∧ nested_fields_queries self''
      = Some (PyDict.update [] (nested_items q)).
Proof.
  intros Hwf Hfull Hreq Hproc Hloc Hq Hleaf Hnest.
  apply wf_get_allowed_fields in Hfull as Hwf'; [|done].
  set (P := λ kv : string * field_obj, kv.1 ∈ leaf_names q ++ nested_keys q).
  assert (Hpop :
    DynamicFieldsMixin.pop_unselected full (keys full)
      (leaf_names q ++ keys (PyDict.update [] (nested_items q)))
    = Ok (filter P full)).
  { rewrite (pop_unselected_filter _ [] full Hwf'). simpl. f_equal.
    apply list_filter_iff. intros [k v]. simpl. unfold P. simpl.
    rewrite !elem_of_app, keys_update. unfold nested_keys.
    split; [|tauto]. intros [?|[H|?]]; [tauto| |tauto]. inversion H. }
  exists (filter P full),
    (set_nested_fields_queries self' (PyDict.update [] (nested_items q))).
  split; [|split; [done|split; [|split; [|done]]]].
  - unfold DynamicFieldsMixin.fields. rewrite Hfull. simpl.
    rewrite Hreq, Hproc, Hloc. simpl. rewrite Hq.
    rewrite (DynamicFieldsFacts_scan full q Hleaf Hnest). simpl.
    by rewrite Hpop.
  - unfold dict in *. apply sublist_filter.
  - intros name. unfold keys. rewrite list_elem_of_fmap. split.
    + intros ([k v] & -> & Hin). apply list_elem_of_filter in Hin as [HP _].
      unfold P in HP. simpl in *. by apply elem_of_app in HP.
    + intros Hname.
      assert (Hin : name ∈ keys full).
      { destruct Hname as [?|?]; [by apply Hleaf | by apply Hnest]. }
      apply get_is_Some in Hin as [v Hv]. exists (name, v). split; [done|].
      apply list_elem_of_filter. split.
      * unfold P. simpl. by apply elem_of_app.
      * by apply get_Some_elem_of.
Qed.

Lemma fields_resolves_valid_selection_witness :
  ∃ vis self'',
    DynamicFieldsMixin.fields
      (constant_parser [QFlat "title"; QNested [("comments", [QFlat "text"])]])
      first_occurrence_order (Post_serializer "{title, comments{text}}" None)
    = Ok (vis, self'')
    ∧ vis = filter (λ kv, kv.1 ∈ ["title"] ++ ["comments"]) Post_fields
    ∧ vis `sublist_of` Post_fields
    ∧ (∀ name, name ∈ keys vis ↔ name ∈ ["title"] ∨ name ∈ ["comments"])
    ∧ nested_fields_queries self'' = Some [("comments", [QFlat "text"])].
Proof.
  apply (fields_resolves_valid_selection
           (constant_parser [QFlat "title"; QNested [("comments", [QFlat "text"])]])
           first_occurrence_order
           (Post_serializer "{title, comments{text}}" None)
           (Post_serializer "{title, comments{text}}"
              (Some [QFlat "title"; QNested [("comments", [QFlat "text"])]]))
           (get_request "{title, comments{text}}")
           [QFlat "title"; QNested [("comments", [QFlat "text"])]]
           Post_fields).
  - apply (bool_decide_unpack _). vm_compute. reflexivity.
  - reflexivity.
  - reflexivity.
  - reflexivity.
  - reflexivity.
  - reflexivity.
  - intros name H. apply (bool_decide_unpack _).
    apply list_elem_of_singleton in H. rewrite H. vm_compute. reflexivity.
  - intros name H. apply list_elem_of_singleton in H. rewrite H. split.
    + apply (bool_decide_unpack _). vm_compute. reflexivity.
    + eexists. split; reflexivity.
Defined.

(** C3, the claim as it was stated, refuted: in the query
    [[{"title": ["text"]}]] every name exists among the fields of [Post],
    yet [fields] raises, because [title] is no nested field. *)
Lemma fields_nested_key_of_flat_field_raises :
  let q := [QNested [("title", [QFlat "text"])]] in
  let self := Post_serializer "{title{text}}" (Some q) in
  (∀ name, name ∈ leaf_names q ++ nested_keys q →
           name ∈ keys (super_fields self))
  ∧ DynamicFieldsMixin.fields (constant_parser q) first_occurrence_order self
    = Raise (ValidationError "'title' is not a nested field")
  ∧ ¬ ∃ vis self',
        DynamicFieldsMixin.fields (constant_parser q) first_occurrence_order self
        = Ok (vis, self').
Proof.
  split; [|split].
  - intros name H. apply list_elem_of_singleton in H. rewrite H.
    apply (bool_decide_unpack _). vm_compute. reflexivity.
  - reflexivity.
  - intros (vis & self' & H). discriminate H.
Qed.

(** C4. Over [Post] with the fields title, author, comments and tags, the
    query [["title", {"comments": ["text"]}]] of a GET request leaves the
    visible fields title and comments, and records the nested scope
    [{"comments": ["text"]}] in [nested_fields_queries]; the serializer of
    the comments finds its query [["text"]] there and shows text only. *)
Theorem Post_title_and_comment_text
    (get_parsed : string → (string * string) + query_t)
    (set_iter : list string → list string) (raw_query : string) :
  get_parsed raw_query
  = inr [QFlat "title"; QNested [("comments", [QFlat "text"])]] →
  ∃ vis self' vis_child child',
    DynamicFieldsMixin.fields get_parsed set_iter
      (Post_serializer raw_query None)
    = Ok (vis, self')
    ∧ keys vis = ["title"; "comments"]
    ∧ nested_fields_queries self' = Some [("comments", [QFlat "text"])]
    ∧ DynamicFieldsMixin.fields get_parsed set_iter
        (Comment_serializer raw_query (nested_fields_queries self'))
      = Ok (vis_child, child')
    ∧ query child' = Some [QFlat "text"]
    ∧ keys vis_child = ["text"].
Proof.
  intros Hparsed.
  unfold DynamicFieldsMixin.fields, DynamicFieldsMixin.locate_query,
    DynamicFieldsMixin.get_parsed_query_from_req. simpl.
  rewrite Hparsed. simpl. eexists _, _, _, _. split; [reflexivity|].
  split; [reflexivity|]. split; [reflexivity|]. simpl.
  split; [reflexivity|]. split; reflexivity.
Qed.

Lemma Post_title_and_comment_text_witness :
  ∃ vis self' vis_child child',
    DynamicFieldsMixin.fields
      (constant_parser [QFlat "title"; QNested [("comments", [QFlat "text"])]])
      first_occurrence_order
      (Post_serializer "{title, comments{text}}" None)
    = Ok (vis, self')
    ∧ keys vis = ["title"; "comments"]
    ∧ nested_fields_queries self' = Some [("comments", [QFlat "text"])]
    ∧ DynamicFieldsMixin.fields
        (constant_parser [QFlat "title"; QNested [("comments", [QFlat "text"])]])
        first_occurrence_order
        (Comment_serializer "{title, comments{text}}"
           (nested_fields_queries self'))
      = Ok (vis_child, child')
    ∧ query child' = Some [QFlat "text"]
    ∧ keys vis_child = ["text"].
Proof.
  apply (Post_title_and_comment_text
           (constant_parser [QFlat "title"; QNested [("comments", [QFlat "text"])]])
           first_occurrence_order "{title, comments{text}}").
  reflexivity.
Defined.

(** C8, evaluated where the code departs from it: for a nested key that is
    no field of [Post], the message of the error carries the [repr] of the
    whole nested element, not the name of the field. *)
Theorem fields_absent_nested_key_message :
  let q := [QNested [("replies", [QFlat "text"])]] in
  DynamicFieldsMixin.fields (constant_parser q) first_occurrence_order
    (Post_serializer "{replies{text}}" None)
  = Raise (ValidationError "'{'replies': ['text']}' field is not found")
  ∧ "'{'replies': ['text']}' field is not found"
    ≠ DynamicFieldsMixin.msg_not_found (QFlat "replies").
Proof. split; [reflexivity | discriminate]. Qed.

(** For a flat element that is no field, the message names it. *)
Lemma fields_absent_leaf_message :
  let q := [QFlat "title"; QFlat "replies"] in
  DynamicFieldsMixin.fields (constant_parser q) first_occurrence_order
    (Post_serializer "{title, replies}" None)
  = Raise (ValidationError "'replies' field is not found").
Proof. reflexivity. Qed.

Lemma fields_without_selection_tree_is_identity_witness :
  visible (DynamicFieldsMixin.fields (constant_parser [QFlat "title"])
             first_occurrence_order
             (nested_Post_serializer [("author", [QFlat "name"])]))
  = DynamicFieldsMixin.get_allowed_fields first_occurrence_order
      (nested_Post_serializer [("author", [QFlat "name"])]).
Proof.
  apply (fields_without_selection_tree_is_identity
           (constant_parser [QFlat "title"]) first_occurrence_order
           (nested_Post_serializer [("author", [QFlat "name"])])).
  apply (nested_field_not_selected _
           {| nested_fields_queries_attr := Some [("author", [QFlat "name"])] |}).
  - reflexivity.
  - reflexivity.
Defined.

Lemma fields_unfiltered_unless_GET_with_query_param_witness :
  DynamicFieldsMixin.fields (constant_parser [QFlat "title"])
    first_occurrence_order (posted_Post_serializer (Some [QFlat "title"]))
  = Ok (Post_fields, posted_Post_serializer (Some [QFlat "title"])).
Proof.
  apply (fields_unfiltered_unless_GET_with_query_param
           (constant_parser [QFlat "title"]) first_occurrence_order
           (posted_Post_serializer (Some [QFlat "title"]))).
  right. eexists. split; [reflexivity|]. left. discriminate.
Defined.

(** ** RestQLViewMixin *)

(** C7. The selection [["author", {"comments": ["text"]}]] becomes the dict
    [{author: None, comments: {text: None}}]. Against the mapping of the
    scenario, with under [text] a value that carries no directive, the
    values are exactly [join:author] and [prefetch:comments]: the call on
    the nested mapping with the nested selection gives nothing, and goes no
    further. *)
Theorem load_plan_of_author_and_comment_text (fuel : nat) (t : mvalue) :
  no_directive t →
  RestQLViewMixin.get_restql_query_dict (S (S fuel)) author_and_comment_text None
  = Some [("author", PNone); ("comments", PDict [("text", PNone)])]
  ∧ RestQLViewMixin.get_mapping_values
      (PDict [("author", PNone); ("comments", PDict [("text", PNone)])])
      (load_mapping t)
    = Ok [MStr "join:author"; MStr "prefetch:comments"]
  ∧ RestQLViewMixin.get_mapping_values
      (PDict [("text", PNone)]) (MDict [("text", t)])
    = Ok [].
Proof.
  intros [Hbase Hnested]. split; [reflexivity|].
  assert (Htext : RestQLViewMixin.get_mapping_values
                    (PDict [("text", PNone)]) (MDict [("text", t)])
                  = Ok []).
  { simpl.
    destruct (RestQLViewMixin.base_and_nested t) as [base nested].
    simpl in Hbase, Hnested. by rewrite Hbase, Hnested. }
  split; [|exact Htext].
  simpl in Htext |- *.
  destruct (RestQLViewMixin.base_and_nested t) as [base nested].
  simpl in Hbase, Hnested. by rewrite Hbase, Hnested.
Qed.

Lemma load_plan_of_author_and_comment_text_witness :
  RestQLViewMixin.get_restql_query_dict 2 author_and_comment_text None
  = Some [("author", PNone); ("comments", PDict [("text", PNone)])]
  ∧ RestQLViewMixin.get_mapping_values
      (PDict [("author", PNone); ("comments", PDict [("text", PNone)])])
      (load_mapping MNone)
    = Ok [MStr "join:author"; MStr "prefetch:comments"]
  ∧ RestQLViewMixin.get_mapping_values
      (PDict [("text", PNone)]) (MDict [("text", MNone)])
    = Ok [].
Proof.
  apply (load_plan_of_author_and_comment_text 0 MNone).
  split; reflexivity.
Defined.

(** A value under [text] that stands for itself, a string that is not
    empty or a [Prefetch] object, is taken for a directive whatever it
    says: it comes third. *)
Lemma load_plan_with_a_value_under_text (t : mvalue) :
  plain_directive t →
  RestQLViewMixin.get_mapping_values
    (PDict [("author", PNone); ("comments", PDict [("text", PNone)])])
    (load_mapping t)
  = Ok [MStr "join:author"; MStr "prefetch:comments"; t].
Proof.
  intros [Htruthy Hnodict]. simpl.
  assert (Hbase : RestQLViewMixin.base_and_nested t = (t, MNone)).
  { destruct t; try done. by destruct (Hnodict d). }
  by rewrite Hbase, Htruthy.
Qed.

(** ** The writes of the mutation mixins *)

Section WritesOnly.
Context {P : origin → Prop}.

Lemma writes_only_silent {A} (m : M A) :
  (∀ st, log (m st).2 = log st) → writes_only P m.
Proof.
  intros H st. exists []. rewrite H, app_nil_r. by split.
Qed.

Lemma writes_only_ret {A} (a : A) : writes_only P (ret a).
Proof. by apply writes_only_silent. Qed.

Lemma writes_only_raise {A} e : writes_only P (@raise A e).
Proof. by apply writes_only_silent. Qed.

Lemma writes_only_lift {A} (r : result A) : writes_only P (lift r).
Proof. by apply writes_only_silent. Qed.

Lemma writes_only_get_store : writes_only P get_store.
Proof. by apply writes_only_silent. Qed.

Lemma writes_only_set_table t : writes_only P (set_table t).
Proof. by apply writes_only_silent. Qed.

Lemma writes_only_set_related r : writes_only P (set_related r).
Proof. by apply writes_only_silent. Qed.

Lemma writes_only_fresh_pk : writes_only P fresh_pk.
Proof. by apply writes_only_silent. Qed.

Lemma writes_only_emit o c : P o → writes_only P (emit o c).
Proof.
  intros Ho st. exists [(o, c)]. split; [done|]. by repeat constructor.
Qed.

Lemma writes_only_bind {A B} (m : M A) (k : A → M B) :
  writes_only P m → (∀ a, writes_only P (k a)) →
  writes_only P (do a <- m; k a).
Proof.
  intros Hm Hk st. unfold mbind'.
  destruct (Hm st) as (evs & Hlog & Hall).
  destruct (m st) as [[a|e] st'] eqn:Hrun; simpl in *.
  - destruct (Hk a st') as (evs' & Hlog' & Hall').
    exists (evs ++ evs'). split.
    + by rewrite Hlog', Hlog, app_assoc.
    + by apply Forall_app.
  - by exists evs.
Qed.

Lemma writes_only_for_each {A} (l : list A) (body : A → M unit) :
  (∀ x, writes_only P (body x)) → writes_only P (for_each l body).
Proof.
  intros Hbody. induction l as [|x l IH]; simpl.
  - apply writes_only_ret.
  - apply writes_only_bind; [apply Hbody | by intros _].
Qed.

Lemma writes_only_for_fold {A B} (l : list A) (acc : B)
    (body : B → A → M B) :
  (∀ acc x, writes_only P (body acc x)) →
  writes_only P (for_fold l acc body).
Proof.
  intros Hbody. revert acc. induction l as [|x l IH]; simpl; intros acc.
  - apply writes_only_ret.
  - apply writes_only_bind; [apply Hbody | intros acc'; apply IH].
Qed.
End WritesOnly.

(** Goals [writes_only P m] for a [m] built from the primitives. *)
Ltac writes_only_step :=
  first
    [ apply writes_only_ret
    | apply writes_only_raise
    | apply writes_only_lift
    | apply writes_only_get_store
    | apply writes_only_set_table
    | apply writes_only_set_related
    | apply writes_only_fresh_pk
    | apply writes_only_emit; solve [auto]
    | apply writes_only_bind; [|intros ?]
    | apply writes_only_for_each; intros ?
    | apply writes_only_for_fold; intros ? ?
    | match goal with
      | |- writes_only _ (match ?x with _ => _ end) => destruct x
      | |- writes_only _ (let '(_, _) := ?x in _) => destruct x
      end ].

Ltac writes_only_auto := repeat writes_only_step.

Section MixinWrites.
Variable get_fields : dict field_obj.
Variable Meta_model : model_class.
Variable is_valid : string → row → bool.
Variable add_error : store → Z → string → list Z → option string.
Variable remove_error : store → Z → string → list Z → option string.
Context {P : origin → Prop}.

Lemma writes_only_reraise_prefixed {A} prefix (m : M A) :
  writes_only P m → writes_only P (reraise_prefixed prefix m).
Proof.
  intros Hm st. destruct (Hm st) as (evs & Hlog & Hall). exists evs.
  unfold reraise_prefixed. by destruct (m st) as [[a|[]] st'].
Qed.

Lemma writes_only_serializer_create o model data :
  P o → writes_only P (serializer_create is_valid o model data).
Proof. intros. unfold serializer_create. writes_only_auto. Qed.

Lemma writes_only_serializer_update o model pk data :
  P o → writes_only P (serializer_update is_valid o model pk data).
Proof. intros. unfold serializer_update. writes_only_auto. Qed.

Lemma writes_only_related_set o instance field pks :
  P o → writes_only P (related_set add_error o instance field pks).
Proof. intros. unfold related_set. writes_only_auto. Qed.

Lemma writes_only_related_add o instance field pks :
  P o → writes_only P (related_add add_error o instance field pks).
Proof. intros. unfold related_add. writes_only_auto. Qed.

Lemma writes_only_related_remove o instance field pks :
  P o → writes_only P (related_remove remove_error o instance field pks).
Proof. intros. unfold related_remove. writes_only_auto. Qed.

Lemma writes_only_queryset_update o model pks column v :
  P o → writes_only P (queryset_update o model pks column v).
Proof. intros. unfold queryset_update. writes_only_auto. Qed.

Lemma writes_only_bulk_create_objs o field data :
  P o → writes_only P (bulk_create_objs get_fields is_valid o field data).
Proof.
  intros. unfold bulk_create_objs. writes_only_auto.
  by apply writes_only_serializer_create.
Qed.

Lemma writes_only_update_replaceable instance data :
  P ReplaceableFK →
  writes_only P (update_replaceable_foreignkey_related Meta_model instance data).
Proof.
  intros. unfold update_replaceable_foreignkey_related. writes_only_auto.
Qed.

Lemma writes_only_update_writable instance data :
  P WritableFK →
  writes_only P
    (update_writable_foreignkey_related get_fields Meta_model is_valid
       instance data).
Proof.
  intros. unfold update_writable_foreignkey_related. writes_only_auto.
  - by apply writes_only_serializer_update.
  - by apply writes_only_serializer_create.
Qed.

Lemma writes_only_update_many_to_many instance data :
  P ManyToMany →
  writes_only P
    (update_many_to_many_related get_fields is_valid add_error remove_error
       instance data).
Proof.
  intros. unfold update_many_to_many_related, update_many_to_many_operation,
    bulk_create_many_to_many_related, bulk_update_many_to_many_related.
  writes_only_auto;
    first [ apply writes_only_reraise_prefixed | idtac ];
    first [ by apply writes_only_related_add
          | by apply writes_only_related_remove
          | by apply writes_only_serializer_create
          | by apply writes_only_serializer_update ].
Qed.

Lemma writes_only_update_many_to_one instance data :
  P ManyToOne →
  writes_only P
    (update_many_to_one_related get_fields Meta_model is_valid instance data).
Proof.
  intros. unfold update_many_to_one_related, update_many_to_one_operation,
    bulk_create_many_to_one_related, bulk_update_many_to_one_related.
  writes_only_auto;
    first [ by apply writes_only_queryset_update
          | by apply writes_only_serializer_create
          | by apply writes_only_serializer_update ].
Qed.

Lemma writes_only_create_many_to_many instance data :
  P ManyToMany →
  writes_only P
    (create_many_to_many_related get_fields is_valid add_error instance data).
Proof.
  intros. unfold create_many_to_many_related, create_many_to_many_operation.
  writes_only_auto;
    first [ by apply writes_only_related_set
          | by apply writes_only_bulk_create_objs
          | by apply writes_only_serializer_create ].
Qed.

Lemma writes_only_create_many_to_one instance data :
  P ManyToOne →
  writes_only P
    (create_many_to_one_related get_fields Meta_model is_valid instance data).
Proof.
  intros. unfold create_many_to_one_related, create_many_to_one_operation.
  writes_only_auto;
    first [ by apply writes_only_queryset_update
          | by apply writes_only_bulk_create_objs
          | by apply writes_only_serializer_create ].
Qed.
End MixinWrites.

(** One step of a sequence: either the first computation returns and the
    rest runs from the store it leaves, or it raises and the sequence stops
    there; its writes are in the log in both cases. *)
Lemma run_stage {A B} (P : origin → Prop) (m : M A) (k : A → M B) (st : store) :
  writes_only P m →
  ∃ evs, Forall (λ e, P e.1) evs
    ∧ ((∃ a st', log st' = log st ++ evs ∧ (do a <- m; k a) st = k a st')
       ∨ (∃ e st', log st' = log st ++ evs
                   ∧ (do a <- m; k a) st = (Raise e, st'))).
Proof.
  intros Hm. destruct (Hm st) as (evs & Hlog & Hall). exists evs.
  split; [done|]. unfold mbind'.
  destruct (m st) as [[a|e] st']; simpl in *; [left | right]; eauto.
Qed.

(** Runs the first computation of the sequence [Hrun] tells of. *)
Ltac run_stage_in Hrun P fk a st' Hfk Hlog :=
  lazymatch type of Hrun with
  | _ = mbind' ?m ?k ?st =>
      let H := fresh "Hwrites" in
      let Heq := fresh "Heq" in
      assert (H : writes_only P m);
      [ | destruct (run_stage P m k st H)
            as (fk & Hfk & [(a & st' & Hlog & Heq) | (? & st' & Hlog & Heq)]);
          rewrite Heq in Hrun; clear Heq H ]
  end.

(** C5. The writes of [update] come in a fixed order: first those for the
    single nested objects, then every write of the many-to-many relations,
    then every write of the has-many (many-to-one) relations, and last, when
    nothing has raised, the base update, once. *)
Theorem update_writes_in_order
    (get_fields : dict field_obj) (Meta_model : model_class)
    (is_valid : string → row → bool)
    (add_error remove_error : store → Z → string → list Z → option string)
    (instance : Z) (validated_data : dict value) (st : store) :
  let run :=
    update get_fields Meta_model is_valid add_error remove_error
      instance validated_data st in
  ∃ fk m2m m2o base,
    log (run.2) = log st ++ fk ++ m2m ++ m2o ++ base
    ∧ Forall (λ e, e.1 = ReplaceableFK ∨ e.1 = WritableFK) fk
    ∧ Forall (λ e, e.1 = ManyToMany) m2m
    ∧ Forall (λ e, e.1 = ManyToOne) m2o
    ∧ match run.1 with
      | Ok i => i = instance ∧ ∃ r, base = [(Base, SuperUpdate instance r)]
      | Raise _ => base = []
      end.
Proof.
  cbv zeta.
  remember (update get_fields Meta_model is_valid add_error remove_error
              instance validated_data st) as r eqn:Hrun.
  unfold update in Hrun. unfold mbind' at 1, lift at 1 in Hrun.
  destruct (classify get_fields Meta_model validated_data)
    as [[validated_data' fields]|e]; cbv beta iota in Hrun.
  2:{ exists [], [], [], []. subst r. simpl. by rewrite app_nil_r. }
  run_stage_in Hrun (λ o, o = ReplaceableFK ∨ o = WritableFK)
    fk1 a1 st1 Hfk1 Hlog1.
  { apply writes_only_update_replaceable. by left. }
  2:{ exists fk1, [], [], []. subst r. simpl. by rewrite !app_nil_r. }
  run_stage_in Hrun (λ o, o = ReplaceableFK ∨ o = WritableFK)
    fk2 a2 st2 Hfk2 Hlog2.
  { apply writes_only_update_writable. by right. }
  2:{ exists (fk1 ++ fk2), [], [], []. subst r. simpl.
      rewrite Hlog2, Hlog1, !app_nil_r, app_assoc.
      split; [done|]. split; [by apply Forall_app|]. done. }
  run_stage_in Hrun (λ o, o = ManyToMany) m2m a3 st3 Hm2m Hlog3.
  { by apply writes_only_update_many_to_many. }
  2:{ exists (fk1 ++ fk2), m2m, [], []. subst r. simpl.
      rewrite Hlog3, Hlog2, Hlog1, !app_nil_r, <- !app_assoc.
      split; [done|]. split; [by apply Forall_app|]. done. }
  run_stage_in Hrun (λ o, o = ManyToOne) m2o a4 st4 Hm2o Hlog4.
  { by apply writes_only_update_many_to_one. }
  2:{ exists (fk1 ++ fk2), m2m, m2o, []. subst r. simpl.
      rewrite Hlog4, Hlog3, Hlog2, Hlog1, !app_nil_r, <- !app_assoc.
      split; [done|]. split; [by apply Forall_app|]. done. }
  unfold super_update, mbind' at 1, lift at 1 in Hrun.
  destruct (to_row validated_data') as [row|e]; subst r.
  - exists (fk1 ++ fk2), m2m, m2o, [(Base, SuperUpdate instance row)]. simpl.
    rewrite Hlog4, Hlog3, Hlog2, Hlog1, <- !app_assoc.
    split; [done|]. split; [by apply Forall_app|]. eauto.
  - exists (fk1 ++ fk2), m2m, m2o, []. simpl.
    rewrite Hlog4, Hlog3, Hlog2, Hlog1, !app_nil_r, <- !app_assoc.
    split; [done|]. split; [by apply Forall_app|]. done.
Qed.

(** ** NestedCreateMixin and NestedUpdateMixin *)

(** C1, evaluated where the code departs from it: with both ADD and CREATE
    under a many-to-many field, [create] calls [set] twice, and the second
    call replaces what the first attached. After the call the relation
    holds the created tag 11 only; the tags 1 and 2 of ADD are not in it. *)
Theorem create_add_and_create_keeps_last_only :
  let run :=
    create Post_fields Post all_valid no_error payload_add_and_create_tags
      some_store in
  run.1 = Ok 10%Z
  ∧ log (run.2)
    = [(Base, SuperCreate 10 [("title", SStr "x")]);
       (ManyToMany, RelatedSet 10 "tags" [1; 2]%Z);
       (ManyToMany, SerializerCreate "Tag" 11 [("name", SStr "c")]);
       (ManyToMany, RelatedSet 10 "tags" [11]%Z)]
  ∧ elements (members (run.2) 10 "tags") = [11%Z]
  ∧ (1%Z ∉ members (run.2) 10 "tags")
  ∧ (2%Z ∉ members (run.2) 10 "tags").
Proof.
  cbv zeta. split; [by vm_compute|]. split; [by vm_compute|].
  split; [by vm_compute|].
  split; apply (bool_decide_unpack _); by vm_compute.
Qed.

(** C2, evaluated where the code departs from it: [create] returns normally
    on a payload whose operation key is none of ADD, CREATE, REMOVE and
    UPDATE, and writes nothing for it, while [update] raises the error that
    names the key. *)
Theorem create_ignores_unknown_operation :
  let created :=
    create Post_fields Post all_valid no_error payload_unknown_operation
      some_store in
  let updated :=
    update Post_fields Post all_valid no_error no_error 5 payload_unknown_operation
      some_store in
  created.1 = Ok 10%Z
  ∧ log (created.2) = [(Base, SuperCreate 10 [("title", SStr "x")])]
  ∧ updated.1 = Raise (ValidationError "replace is an invalid operation, ").
Proof. cbv zeta. split; [by vm_compute|]. split; by vm_compute. Qed.

Section OperationKeys.
Variable get_fields : dict field_obj.
Variable Meta_model : model_class.
Variable is_valid : string → row → bool.
Variable add_error : store → Z → string → list Z → option string.
Variable remove_error : store → Z → string → list Z → option string.

(** The two handlers of [create] pass over every operation key other than
    ADD and CREATE. *)
Lemma create_many_to_one_operation_other
    instance field foreignkey field_pks operation operand :
  operation ∉ [ADD; CREATE] →
  create_many_to_one_operation get_fields is_valid instance field foreignkey
    field_pks operation operand
  = ret field_pks.
Proof.
  intros H. unfold create_many_to_one_operation.
  rewrite !not_elem_of_cons in H. destruct H as (? & ? & _).
  by rewrite !decide_False.
Qed.

Lemma create_many_to_many_operation_other
    instance field field_pks operation operand :
  operation ∉ [ADD; CREATE] →
  create_many_to_many_operation get_fields is_valid add_error instance field
    field_pks operation operand
  = ret field_pks.
Proof.
  intros H. unfold create_many_to_many_operation.
  rewrite !not_elem_of_cons in H. destruct H as (? & ? & _).
  by rewrite !decide_False.
Qed.

(** The two handlers of [update] raise on every operation key other than
    the four. *)
Lemma update_many_to_one_operation_other
    instance field foreignkey operation operand :
  operation ∉ [ADD; CREATE; REMOVE; UPDATE] →
  update_many_to_one_operation get_fields Meta_model is_valid instance field
    foreignkey operation operand
  = raise (ValidationError (msg_invalid_operation operation)).
Proof.
  intros H. unfold update_many_to_one_operation.
  rewrite !not_elem_of_cons in H. destruct H as (? & ? & ? & ? & _).
  by rewrite !decide_False.
Qed.

Lemma update_many_to_many_operation_other
    instance field operation operand :
  operation ∉ [ADD; CREATE; REMOVE; UPDATE] →
  update_many_to_many_operation get_fields is_valid add_error remove_error
    instance field operation operand
  = raise (ValidationError (msg_invalid_operation operation)).
Proof.
  intros H. unfold update_many_to_many_operation.
  rewrite !not_elem_of_cons in H. destruct H as (? & ? & ? & ? & _).
  by rewrite !decide_False.
Qed.
End OperationKeys.

(** ** Foreign keys of created children *)

Section Preserves.
Context (I : store → Prop).

Lemma preserves_ret {A} (a : A) : preserves I (ret a).
Proof. by intros st. Qed.

Lemma preserves_raise {A} e : preserves I (@raise A e).
Proof. by intros st. Qed.

Lemma preserves_bind {A B} (m : M A) (k : A → M B) :
  preserves I m → (∀ a, preserves I (k a)) →
  preserves I (do a <- m; k a).
Proof.
  intros Hm Hk st HI. unfold mbind'. specialize (Hm st HI).
  destruct (m st) as [[a|e] st']; simpl in *; [by apply Hk | done].
Qed.

Lemma preserves_bind_lift {A B} (r : result A) (k : A → M B) :
  (∀ a, r = Ok a → preserves I (k a)) →
  preserves I (do a <- lift r; k a).
Proof.
  intros Hk st HI. unfold mbind', lift.
  destruct r as [a|e]; simpl; [by apply (Hk a) | done].
Qed.

Lemma preserves_for_fold {A B} (l : list A) (acc : B) (body : B → A → M B) :
  (∀ acc x, x ∈ l → preserves I (body acc x)) →
  preserves I (for_fold l acc body).
Proof.
  revert acc. induction l as [|x l IH]; simpl; intros acc Hbody.
  - apply preserves_ret.
  - apply preserves_bind.
    + apply Hbody, elem_of_cons. by left.
    + intros acc'. apply IH. intros acc'' y Hy.
      apply Hbody, elem_of_cons. by right.
Qed.
End Preserves.

Lemma get_setitem {V} (d : dict V) k v k' :
  get (setitem d k v) k' = if decide (k' = k) then Some v else get d k'.
Proof.
  induction d as [|[k0 v0] d IH]; simpl.
  - done.
  - destruct (decide (k = k0)) as [->|Hne]; simpl.
    + destruct (decide (k' = k0)); [done|]. done.
    + destruct (decide (k' = k0)) as [->|Hne'].
      * by rewrite decide_False.
      * done.
Qed.

Lemma update_rows_stamp (model : string) (pks : list Z) (column : string)
    (v : Z) (t : gmap (string * Z) row) (key : string * Z) (r : row)
    (c : string) :
  t !! key = Some r → get r c = Some (SInt v) →
  ∃ r', update_rows model pks column v t !! key = Some r'
        ∧ get r' c = Some (SInt v).
Proof.
  intros Ht Hr. unfold update_rows, row, dict in *.
  induction pks as [|pk pks (r1 & Hr1 & Hc1)]; simpl.
  - eauto.
  - rewrite lookup_alter. destruct (decide ((model, pk) = key)) as [->|Hne].
    + rewrite Hr1. simpl. eexists. split; [done|].
      rewrite get_setitem. by destruct (decide (c = column)).
    + eauto.
Qed.

Section Stamped.
Variable get_fields : dict field_obj.
Variable Meta_model : model_class.
Variable is_valid : string → row → bool.
Variable fields : list string.
Variable instance : Z.
Variable st0 : store.

Lemma stamped_mono st st' e :
  stamped Meta_model fields instance st e →
  (next_pk st ≤ next_pk st')%Z →
  (∀ model pk r c,
     (pk < next_pk st)%Z →
     table st !! (model, pk) = Some r → get r c = Some (SInt instance) →
     ∃ r', table st' !! (model, pk) = Some r'
           ∧ get r' c = Some (SInt instance)) →
  stamped Meta_model fields instance st' e.
Proof.
  destruct e as [[] []]; simpl; try done.
  intros (Hlt & field & d & Hin & Hd & Hdata & r & Hr & Hc) Hle Hrows.
  split; [lia|]. exists field, d. repeat (split; [done|]). eauto.
Qed.

Lemma preserves_queryset_update model pks column :
  preserves (all_stamped Meta_model fields instance st0)
    (queryset_update ManyToOne model pks column instance).
Proof.
  intros st (evs & Hlog & Hall).
  exists (evs ++ [(ManyToOne, QuerysetUpdate model pks column instance)]).
  simpl. split; [by rewrite Hlog, app_assoc|].
  apply Forall_app. split; [|by repeat constructor].
  eapply Forall_impl; [exact Hall|]. intros e He.
  eapply stamped_mono; [exact He | simpl; lia |]. simpl.
  intros model' pk r c _ Hr Hc. by eapply update_rows_stamp.
Qed.

Lemma preserves_serializer_create model data field d :
  field ∈ fields →
  get (descriptors Meta_model) field = Some d →
  get data (descr_field_name d) = Some (SInt instance) →
  preserves (all_stamped Meta_model fields instance st0)
    (serializer_create is_valid ManyToOne model data).
Proof.
  intros Hin Hd Hdata st (evs & Hlog & Hall). unfold serializer_create.
  destruct (is_valid model data); [|by exists evs].
  exists (evs ++ [(ManyToOne, SerializerCreate model (next_pk st) data)]).
  simpl. split; [by rewrite Hlog, app_assoc|].
  apply Forall_app. split.
  - eapply Forall_impl; [exact Hall|]. intros e He.
    eapply stamped_mono; [exact He | simpl; lia |]. simpl.
    intros model' pk r c Hlt Hr Hc. exists r. split; [|done].
    rewrite lookup_insert_ne; [done|]. intros [= _ ?]. lia.
  - repeat constructor; simpl; [lia|].
    exists field, d. repeat (split; [done|]).
    exists data. split; [|done]. apply lookup_insert_eq.
Qed.

Lemma preserves_create_many_to_one_related data :
  (∀ field, field ∈ keys data → field ∈ fields) →
  preserves (all_stamped Meta_model fields instance st0)
    (create_many_to_one_related get_fields Meta_model is_valid instance data).
Proof.
  intros Hfields. unfold create_many_to_one_related.
  apply preserves_for_fold. intros field_pks [field values] Hfield.
  assert (Hin : field ∈ fields).
  { apply Hfields. unfold keys. apply list_elem_of_fmap.
    by exists (field, values). }
  apply preserves_bind_lift. intros d Hd.
  assert (Hget : get (descriptors Meta_model) field = Some d).
  { unfold getattr_model in Hd.
    destruct (get (descriptors Meta_model) field); by inversion Hd. }
  destruct values as [| | |ops]; try apply preserves_raise.
  apply preserves_for_fold. intros acc [operation operand] _.
  unfold create_many_to_one_operation.
  destruct (decide (operation = ADD)).
  { destruct operand; try apply preserves_raise.
    apply preserves_bind_lift. intros f _.
    apply preserves_bind_lift. intros model _.
    apply preserves_bind; [apply preserves_queryset_update|].
    intros _. apply preserves_ret. }
  destruct (decide (operation = CREATE)); [|apply preserves_ret].
  destruct operand; try apply preserves_raise.
  apply preserves_bind; [|intros ?; apply preserves_ret].
  unfold bulk_create_objs.
  apply preserves_bind_lift. intros f _.
  apply preserves_bind_lift. intros model _.
  apply preserves_for_fold. intros pks values Hvalues.
  apply preserves_bind; [|intros ?; apply preserves_ret].
  apply (preserves_serializer_create _ _ field d); [done..|].
  apply list_elem_of_fmap in Hvalues as (v & -> & _).
  rewrite get_setitem. by rewrite decide_True.
Qed.
End Stamped.

(** The has-many fields [classify] files under [one_related] are keys of the
    validated data whose descriptor on the model is a [ManyToOneRel]. *)
Lemma classify_loop_one_related
    (get_fields : dict field_obj) (Meta_model : model_class)
    (all : list string) (data : list string)
    (acc acc' : dict value * partition) :
  classify_loop get_fields Meta_model data acc = Ok acc' →
  (∀ field, field ∈ data → field ∈ all) →
  (∀ field, field ∈ keys (one_related acc.2) →
     field ∈ all
     ∧ ∃ d, get (descriptors Meta_model) field = Some d
            ∧ rel d = ManyToOneRel) →
  ∀ field, field ∈ keys (one_related acc'.2) →
    field ∈ all
    ∧ ∃ d, get (descriptors Meta_model) field = Some d ∧ rel d = ManyToOneRel.
Proof.
  revert acc. induction data as [|field0 data IH]; simpl; intros acc Hrun Hall Hacc.
  - by injection Hrun as <-.
  - destruct (classify_field get_fields Meta_model acc field0) as [acc1|]
      eqn:Hstep; simpl in Hrun; [|done].
    apply (IH acc1 Hrun).
    { intros f Hf. apply Hall, elem_of_cons. by right. }
    clear IH Hrun. destruct acc as [vd fs]. unfold classify_field in Hstep.
    assert (Hfield0 : field0 ∈ all) by (apply Hall, elem_of_cons; by left).
    destruct (getitem get_fields field0) as [f|]; simpl in Hstep; [|done].
    destruct (pop vd field0) as [[value vd']|]; simpl in Hstep;
      destruct (cls f); simpl in Hstep;
      repeat match type of Hstep with
             | context [if ?b then _ else _] => destruct b; simpl in Hstep
             end;
      try (destruct (getattr_model Meta_model field0) as [d|] eqn:Hd;
           simpl in Hstep; [|done];
           destruct (rel d) eqn:Hrel; simpl in Hstep);
      try done; injection Hstep as <-; simpl in *; try done.
    intros field Hin. apply keys_setitem in Hin as [->|Hin]; [|by apply Hacc].
    split; [done|]. exists d. split; [|done].
    unfold getattr_model in Hd.
    destruct (get (descriptors Meta_model) field0); by inversion Hd.
Qed.

Lemma bind_Ok_inv {A B} (m : M A) (k : A → M B) (st st' : store) (b : B) :
  (do a <- m; k a) st = (Ok b, st') →
  ∃ a st1, m st = (Ok a, st1) ∧ k a st1 = (Ok b, st').
Proof.
  unfold mbind'. destruct (m st) as [[a|e] st1]; [eauto | done].
Qed.

Lemma writes_only_log {A} (P : origin → Prop) (m : M A) st r st' :
  writes_only P m → m st = (r, st') →
  ∃ evs, log st' = log st ++ evs ∧ Forall (λ e, P e.1) evs.
Proof. intros Hm Hrun. specialize (Hm st). by rewrite Hrun in Hm. Qed.

Lemma writes_only_create_writable
    (get_fields : dict field_obj) (is_valid : string → row → bool)
    (P : origin → Prop) (data : dict value) :
  P WritableFK →
  writes_only P (create_writable_foreignkey_related get_fields is_valid data).
Proof.
  intros. unfold create_writable_foreignkey_related. writes_only_auto.
  by apply writes_only_serializer_create.
Qed.

Lemma writes_only_super_create
    (Meta_model : model_class) (P : origin → Prop) (data : dict value) :
  P Base → writes_only P (super_create Meta_model data).
Proof. intros. unfold super_create. writes_only_auto. Qed.

(** C6. In a [create] that returns, every child created for a has-many
    field was created from data stamped with the key of the new parent
    under the foreign key of that field, and its row in the store holds
    that key under that foreign key when [create] returns. The field is a
    key of the validated data whose relation on the model is many-to-one. *)
Theorem create_stamps_foreign_key
    (get_fields : dict field_obj) (Meta_model : model_class)
    (is_valid : string → row → bool)
    (add_error : store → Z → string → list Z → option string)
    (validated_data : dict value) (st st' : store) (instance : Z)
    (model : string) (pk : Z) (data : row) :
  create get_fields Meta_model is_valid add_error validated_data st
  = (Ok instance, st') →
  (ManyToOne, SerializerCreate model pk data) ∈ new_writes st st' →
  ∃ field d,
    field ∈ keys validated_data
    ∧ get (descriptors Meta_model) field = Some d
    ∧ rel d = ManyToOneRel
    ∧ get data (descr_field_name d) = Some (SInt instance)
    ∧ ∃ r, table st' !! (model, pk) = Some r
           ∧ get r (descr_field_name d) = Some (SInt instance).
Proof.
  intros Hrun Hin. unfold create in Hrun.
  apply bind_Ok_inv in Hrun as ([vd fields] & st1 & Hclass & Hrun).
  unfold lift in Hclass. injection Hclass as Hclass <-.
  apply bind_Ok_inv in Hrun as (objs & st1 & Hwritable & Hrun).
  apply bind_Ok_inv in Hrun as (inst & st2 & Hbase & Hrun).
  apply bind_Ok_inv in Hrun as (pks3 & st3 & Hm2m & Hrun).
  apply bind_Ok_inv in Hrun as (pks4 & st4 & Hm2o & Hrun).
  injection Hrun as <- <-.
  eapply (writes_only_log (λ o, o = WritableFK)) in Hwritable
    as (evs1 & Hlog1 & Hevs1); [|by apply writes_only_create_writable].
  eapply (writes_only_log (λ o, o = Base)) in Hbase
    as (evs2 & Hlog2 & Hevs2); [|by apply writes_only_super_create].
  eapply (writes_only_log (λ o, o = ManyToMany)) in Hm2m
    as (evs3 & Hlog3 & Hevs3); [|by apply writes_only_create_many_to_many].
  pose proof (preserves_create_many_to_one_related get_fields Meta_model
                is_valid (keys (one_related fields)) inst st3
                (one_related fields) (λ _ H, H) st3) as Hpres.
  rewrite Hm2o in Hpres. simpl in Hpres.
  destruct Hpres as (evs4 & Hlog4 & Hevs4).
  { exists []. by rewrite app_nil_r. }
  unfold new_writes in Hin.
  rewrite Hlog4, Hlog3, Hlog2, Hlog1, <- !app_assoc, drop_app_length in Hin.
  rewrite !elem_of_app in Hin.
  destruct Hin as [Hin|[Hin|[Hin|Hin]]].
  - by apply (proj1 (Forall_forall _ _) Hevs1) in Hin.
  - by apply (proj1 (Forall_forall _ _) Hevs2) in Hin.
  - by apply (proj1 (Forall_forall _ _) Hevs3) in Hin.
  - apply (proj1 (Forall_forall _ _) Hevs4) in Hin. simpl in Hin.
    destruct Hin as (_ & field & d & Hfield & Hd & Hdata & Hrow).
    exists field, d.
    destruct (classify_loop_one_related get_fields Meta_model
                (keys validated_data) (keys validated_data)
                (validated_data, empty_partition) (vd, fields) Hclass
                (λ _ H, H)) with (field := field)
      as (Hkey & d' & Hd' & Hrel); [|done|].
    { simpl. intros f Hf. inversion Hf. }
    rewrite Hd in Hd'. injection Hd' as <-. done.
Qed.

Lemma create_stamps_foreign_key_witness :
  ∃ field d,
    field ∈ keys payload_create_comment
    ∧ get (descriptors Post) field = Some d
    ∧ rel d = ManyToOneRel
    ∧ get [("text", SStr "hi"); ("post", SInt 10)] (descr_field_name d)
      = Some (SInt 10)
    ∧ ∃ r,
        table (create Post_fields Post all_valid no_error
                 payload_create_comment some_store).2
        !! ("Comment", 11%Z) = Some r
        ∧ get r (descr_field_name d) = Some (SInt 10).
Proof.
  apply (create_stamps_foreign_key Post_fields Post all_valid no_error
           payload_create_comment some_store
           (create Post_fields Post all_valid no_error
              payload_create_comment some_store).2
           10 "Comment" 11 [("text", SStr "hi"); ("post", SInt 10)]).
  - vm_compute. reflexivity.
  - vm_compute. apply list_elem_of_further, list_elem_of_here.
Defined.

(** What [set] leaves in a relation is what it was given: whatever the
    relation held before is gone. *)
Lemma related_set_members
    (add_error : store → Z → string → list Z → option string)
    (o : origin) (instance : Z) (field : string) (pks : list Z)
    (st st' : store) :
  related_set add_error o instance field pks st = (Ok tt, st') →
  members st' instance field = list_to_set pks.
Proof.
  unfold related_set, mbind', get_store.
  destruct (add_error st instance field pks); [done|]. simpl.
  intros [= <-]. unfold members. simpl. by rewrite lookup_insert_eq.
Qed.

(** After the CREATE operation of [create_many_to_many_related] the relation
    holds the created objects and nothing else, whatever an earlier ADD had
    attached. *)
Lemma create_many_to_many_CREATE_replaces
    (get_fields : dict field_obj) (is_valid : string → row → bool)
    (add_error : store → Z → string → list Z → option string)
    (instance : Z) (field : string) (field_pks field_pks' : dict (list Z))
    (rows : list row) (st st' : store) :
  create_many_to_many_operation get_fields is_valid add_error instance field
    field_pks CREATE (Rows rows) st
  = (Ok field_pks', st') →
  ∃ pks, field_pks' = setitem field_pks field pks
         ∧ members st' instance field = list_to_set pks.
Proof.
  unfold create_many_to_many_operation.
  rewrite decide_False by done. rewrite decide_True by done.
  intros Hrun.
  apply bind_Ok_inv in Hrun as (pks & st1 & _ & Hrun).
  apply bind_Ok_inv in Hrun as ([] & st2 & Hset & Hrun).
  injection Hrun as <- <-. exists pks. split; [done|].
  by eapply related_set_members.
Qed.

(** The loop of [bulk_create_objs], when it returns: one child per data, in
    order, each created from its data as it stands. *)
Lemma bulk_create_loop_writes
    (is_valid : string → row → bool) (o : origin) (model : string)
    (data : list row) (acc pks : list Z) (st st' : store) :
  for_fold data acc
    (fun pks values =>
       do obj <- serializer_create is_valid o model values;
       ret (pks ++ [obj])) st
  = (Ok pks, st') →
  ∃ new,
    pks = acc ++ new
    ∧ length new = length data
    ∧ log st'
      = log st
        ++ zip_with (λ pk values, (o, SerializerCreate model pk values))
             new data.
Proof.
  revert acc st. induction data as [|values data IH]; simpl; intros acc st Hrun.
  - injection Hrun as <- <-. exists []. by rewrite !app_nil_r.
  - apply bind_Ok_inv in Hrun as (acc1 & st1 & Hstep & Hrun).
    apply bind_Ok_inv in Hstep as (obj & st2 & Hcreate & Hret).
    injection Hret as <- <-.
    apply IH in Hrun as (new & -> & Hlen & Hlog).
    unfold serializer_create in Hcreate.
    destruct (is_valid model values); [|done].
    injection Hcreate as <- <-. simpl in Hlog.
    exists (next_pk st :: new). simpl.
    rewrite <- app_assoc. split; [done|]. split; [by rewrite Hlen|].
    by rewrite Hlog, <- app_assoc.
Qed.

(** X11. The CREATE operation of [create_many_to_one_related], when it
    returns, has created one child per sub-payload, in order, each from its
    sub-payload with the key of the instance written under the foreign
    key. *)
Lemma create_many_to_one_CREATE_creates_all
    (get_fields : dict field_obj) (is_valid : string → row → bool)
    (instance : Z) (field foreignkey : string)
    (field_pks field_pks' : dict (list Z)) (rows : list row)
    (st st' : store) :
  create_many_to_one_operation get_fields is_valid instance field foreignkey
    field_pks CREATE (Rows rows) st
  = (Ok field_pks', st') →
  ∃ model pks,
    field_pks' = setitem field_pks field pks
    ∧ length pks = length rows
    ∧ new_writes st st'
      = zip_with
          (λ pk values,
             (ManyToOne,
              SerializerCreate model pk
                (setitem values foreignkey (SInt instance))))
          pks rows.
Proof.
  unfold create_many_to_one_operation.
  rewrite decide_False by done. rewrite decide_True by done.
  intros Hrun.
  apply bind_Ok_inv in Hrun as (pks & st1 & Hbulk & Hret).
  injection Hret as <- <-. unfold bulk_create_objs in Hbulk.
  apply bind_Ok_inv in Hbulk as (f & st2 & Hf & Hbulk).
  apply bind_Ok_inv in Hbulk as (model & st3 & Hmodel & Hbulk).
  unfold lift in Hf, Hmodel. injection Hf as _ <-. injection Hmodel as _ <-.
  apply bulk_create_loop_writes in Hbulk as (new & -> & Hlen & Hlog).
  exists model, new. simpl. split; [done|].
  rewrite length_fmap in Hlen. split; [done|].
  unfold new_writes. rewrite Hlog, drop_app_length.
  clear Hlog. revert rows Hlen.
  induction new as [|pk new IH]; intros [|values rows] Hlen; simpl in *;
    try done.
  f_equal. apply IH. by injection Hlen.
Qed.

(** ** Operation keys that [update] does not know *)

Lemma always_raises_raise {A} (e : exn) : always_raises (@raise A e).
Proof. intros st. by exists e. Qed.

Lemma always_raises_bind_l {A B} (m : M A) (k : A → M B) :
  always_raises m → always_raises (do a <- m; k a).
Proof.
  intros Hm st. destruct (Hm st) as (e & He). unfold mbind'.
  destruct (m st) as [[a|e'] st']; simpl in *; [done | eauto].
Qed.

Lemma always_raises_bind_r {A B} (m : M A) (k : A → M B) :
  (∀ a, always_raises (k a)) → always_raises (do a <- m; k a).
Proof.
  intros Hk st. unfold mbind'.
  destruct (m st) as [[a|e'] st']; simpl; [apply Hk | eauto].
Qed.

Lemma always_raises_for_each {A} (l : list A) (body : A → M unit) (x : A) :
  x ∈ l → always_raises (body x) → always_raises (for_each l body).
Proof.
  intros Hin Hx. induction l as [|y l IH]; simpl; [by inversion Hin|].
  apply elem_of_cons in Hin as [<-|Hin].
  - by apply always_raises_bind_l.
  - apply always_raises_bind_r. intros _. by apply IH.
Qed.

Section UnknownOperation.
Variable get_fields : dict field_obj.
Variable Meta_model : model_class.
Variable is_valid : string → row → bool.
Variable add_error : store → Z → string → list Z → option string.
Variable remove_error : store → Z → string → list Z → option string.

Lemma update_many_to_many_related_unknown_operation
    (instance : Z) (data : dict value) (field : string) (ops : dict operand)
    (operation : string) (operand : operand) :
  (field, Operations ops) ∈ data →
  (operation, operand) ∈ ops →
  operation ∉ [ADD; CREATE; REMOVE; UPDATE] →
  always_raises
    (update_many_to_many_related get_fields is_valid add_error remove_error
       instance data).
Proof.
  intros Hfield Hop Hnot. unfold update_many_to_many_related.
  apply always_raises_bind_l.
  apply (always_raises_for_each _ _ _ Hfield). simpl.
  apply (always_raises_for_each _ _ _ Hop). simpl.
  rewrite update_many_to_many_operation_other by done.
  apply always_raises_raise.
Qed.

Lemma update_many_to_one_related_unknown_operation
    (instance : Z) (data : dict value) (field : string) (ops : dict operand)
    (operation : string) (operand : operand) :
  (field, Operations ops) ∈ data →
  (operation, operand) ∈ ops →
  operation ∉ [ADD; CREATE; REMOVE; UPDATE] →
  always_raises
    (update_many_to_one_related get_fields Meta_model is_valid instance data).
Proof.
  intros Hfield Hop Hnot. unfold update_many_to_one_related.
  apply always_raises_bind_l.
  apply (always_raises_for_each _ _ _ Hfield). simpl.
  apply always_raises_bind_r. intros d.
  apply (always_raises_for_each _ _ _ Hop). simpl.
  rewrite update_many_to_one_operation_other by done.
  apply always_raises_raise.
Qed.

(** X15. [update] raises whenever a collection field it has filed carries
    an operation key other than the four. *)
Lemma update_unknown_operation_raises
    (instance : Z) (validated_data validated_data' : dict value)
    (fields : partition) (field : string) (ops : dict operand)
    (operation : string) (operand : operand) (st : store) :
  classify get_fields Meta_model validated_data = Ok (validated_data', fields) →
  (field, Operations ops) ∈ many_related fields ++ one_related fields →
  (operation, operand) ∈ ops →
  operation ∉ [ADD; CREATE; REMOVE; UPDATE] →
  ∃ e,
    (update get_fields Meta_model is_valid add_error remove_error instance
       validated_data st).1
    = Raise e.
Proof.
  intros Hclass Hfield Hop Hnot. revert st.
  change (always_raises
            (update get_fields Meta_model is_valid add_error remove_error
               instance validated_data)).
  unfold update. rewrite Hclass.
  intros st. unfold mbind' at 1, lift at 1. cbv beta iota. revert st.
  apply always_raises_bind_r. intros _.
  apply always_raises_bind_r. intros _.
  apply elem_of_app in Hfield as [Hfield|Hfield].
  - apply always_raises_bind_l.
    by eapply update_many_to_many_related_unknown_operation.
  - apply always_raises_bind_r. intros _. apply always_raises_bind_l.
    by eapply update_many_to_one_related_unknown_operation.
Qed.
End UnknownOperation.

(** * Further properties *)

(** ** The [fields] and [exclude] arguments *)

Lemma set_iteration_first_occurrence_order :
  set_iteration first_occurrence_order.
Proof.
  intros l. split; [apply NoDup_remove_dups | apply elem_of_remove_dups].
Qed.

Lemma filter_all {A} (P : A → Prop) `{∀ x, Decision (P x)} (l : list A) :
  (∀ x, x ∈ l → P x) → filter P l = l.
Proof.
  induction l as [|x l IH]; intros Hall; [done|].
  rewrite filter_cons, decide_True by (apply Hall, elem_of_cons; by left).
  f_equal. apply IH. intros y Hy. apply Hall, elem_of_cons. by right.
Qed.

Lemma filter_ext_in {A} (P Q : A → Prop)
    `{∀ x, Decision (P x)} `{∀ x, Decision (Q x)} (l : list A) :
  (∀ x, x ∈ l → (P x ↔ Q x)) → filter P l = filter Q l.
Proof.
  induction l as [|x l IH]; intros Hall; [done|].
  rewrite !filter_cons.
  assert (Hx : P x ↔ Q x) by (apply Hall, elem_of_cons; by left).
  assert (Hl : filter P l = filter Q l).
  { apply IH. intros y Hy. apply Hall, elem_of_cons. by right. }
  destruct (decide (P x)), (decide (Q x)); try tauto; by rewrite Hl.
Qed.

Lemma remove_filter {V} (d : dict V) (k : string) :
  wf d → remove d k = filter (λ kv, kv.1 ≠ k) d.
Proof.
  unfold wf, keys, dict. induction d as [|[k' v'] d IH]; simpl; intros Hwf.
  - done.
  - apply NoDup_cons in Hwf as [Hnotin Hwf]. rewrite filter_cons. simpl.
    destruct (decide (k = k')) as [->|Hne].
    + rewrite decide_False by (intros Hne; by apply Hne).
      symmetry. apply filter_all. intros [k v] Hin Heq. simpl in Heq. subst k.
      apply Hnotin, list_elem_of_fmap. by exists (k', v).
    + rewrite decide_True by done. f_equal. by apply IH.
Qed.

Lemma keys_remove_ne {V} (d : dict V) (k x : string) :
  x ≠ k → x ∈ keys d → x ∈ keys (remove d k).
Proof.
  unfold keys. induction d as [|[k' v'] d IH]; simpl; intros Hne Hin; [done|].
  apply elem_of_cons in Hin as [->|Hin].
  - rewrite decide_False by done. simpl. apply elem_of_cons. by left.
  - destruct (decide (k = k')); [done|]. simpl. apply elem_of_cons. right.
    by apply IH.
Qed.

Lemma keys_remove_elem_of {V} (d : dict V) (k x : string) :
  x ∈ keys (remove d k) → x ∈ keys d.
Proof.
  intros Hin. eapply elem_of_sublist; [exact Hin | apply keys_remove_sublist].
Qed.

Lemma pop_not_allowed_filter (fs : dict field_obj) (names : list string) :
  wf fs → NoDup names → (∀ n, n ∈ names → n ∈ keys fs) →
  DynamicFieldsMixin.pop_not_allowed fs names
  = Ok (filter (λ kv, kv.1 ∉ names) fs).
Proof.
  revert fs. induction names as [|n names IH]; simpl; intros fs Hwf Hnd Hin.
  - f_equal. symmetry. unfold dict in *. apply filter_all.
    intros x _ Hx. inversion Hx.
  - apply NoDup_cons in Hnd as [Hn Hnd].
    assert (Hget : is_Some (get fs n)).
    { apply get_is_Some, Hin, elem_of_cons. by left. }
    destruct Hget as [v Hv]. unfold pop. rewrite Hv.
    rewrite IH; [|by apply wf_remove|done|].
    + f_equal. rewrite remove_filter by done. unfold dict in *.
      rewrite list_filter_filter. apply list_filter_iff.
      intros [k w]. simpl. rewrite not_elem_of_cons. tauto.
    + intros m Hm. apply keys_remove_ne.
      * intros ->. done.
      * apply Hin, elem_of_cons. by right.
Qed.

Lemma pop_not_allowed_raises (fs : dict field_obj) (names : list string) :
  NoDup names → (∃ n, n ∈ names ∧ n ∉ keys fs) →
  ∃ n, n ∈ names ∧ n ∉ keys fs
       ∧ DynamicFieldsMixin.pop_not_allowed fs names
         = Raise (FieldNotFound (DynamicFieldsMixin.msg_field_is_not_found n)).
Proof.
  revert fs. induction names as [|m names IH]; simpl; intros fs Hnd (n & Hn & Hbad).
  - inversion Hn.
  - apply NoDup_cons in Hnd as [Hm Hnd]. unfold pop.
    destruct (get fs m) as [v|] eqn:Hget.
    + assert (Hmkey : m ∈ keys fs) by (apply get_is_Some; eauto).
      apply elem_of_cons in Hn as [->|Hn]; [done|].
      destruct (IH (remove fs m) Hnd) as (n' & Hn' & Hbad' & Hrun).
      { exists n. split; [done|]. intros H. by apply Hbad, (keys_remove_elem_of fs m). }
      exists n'. split; [apply elem_of_cons; by right|]. split; [|done].
      intros Hkey. apply Hbad', keys_remove_ne; [|done]. by intros ->.
    + exists m. split; [apply elem_of_cons; by left|]. split; [|done].
      by apply get_None.
Qed.

(** X1. With the [fields] argument naming existing fields only,
    [get_allowed_fields] keeps exactly the named fields, in the order of the
    serializer. *)
Theorem get_allowed_fields_keeps_named
    (set_iter : list string → list string) (self : serializer)
    (allowed : list string) :
  set_iteration set_iter →
  wf (super_fields self) →
  allowed_fields self = Some allowed →
  excluded_fields self = None →
  (∀ n, n ∈ allowed → n ∈ keys (super_fields self)) →
  DynamicFieldsMixin.get_allowed_fields set_iter self
  = Ok (filter (λ kv, kv.1 ∈ allowed) (super_fields self)).
Proof.
  intros Hset Hwf Hallowed Hexcluded Hexist.
  unfold DynamicFieldsMixin.get_allowed_fields.
  rewrite Hallowed, Hexcluded.
  set (names := set_iter _).
  destruct (Hset (filter (λ x, x ∉ allowed) (keys (super_fields self))
                  ++ filter (λ x, x ∉ keys (super_fields self)) allowed))
    as [Hnd Helem].
  fold names in Hnd, Helem.
  assert (Hnames : ∀ x, x ∈ names ↔ x ∈ keys (super_fields self) ∧ x ∉ allowed).
  { intros x. rewrite Helem, elem_of_app, !list_elem_of_filter.
    split; [|tauto]. intros [?|[Hx Hin]]; [tauto|]. by apply Hexist in Hin. }
  rewrite pop_not_allowed_filter; [|done|done|].
  - simpl. f_equal. unfold dict in *. apply filter_ext_in. intros [k v] Hkv.
    simpl. rewrite Hnames.
    assert (Hk : k ∈ keys (super_fields self)).
    { unfold keys. apply list_elem_of_fmap. by exists (k, v). }
    destruct (decide (k ∈ allowed)); tauto.
  - intros n Hn. by apply Hnames in Hn as [? _].
Qed.

Lemma get_allowed_fields_keeps_named_witness :
  DynamicFieldsMixin.get_allowed_fields first_occurrence_order
    (Post_serializer_with (Some ["tags"; "title"]) None)
  = Ok (filter (λ kv, kv.1 ∈ ["tags"; "title"]) Post_fields).
Proof.
  apply (get_allowed_fields_keeps_named first_occurrence_order
           (Post_serializer_with (Some ["tags"; "title"]) None)
           ["tags"; "title"]).
  - exact set_iteration_first_occurrence_order.
  - apply (bool_decide_unpack _). vm_compute. reflexivity.
  - reflexivity.
  - reflexivity.
  - intros n Hn. apply (bool_decide_unpack _).
    apply elem_of_cons in Hn as [->|Hn]; [vm_compute; reflexivity|].
    apply list_elem_of_singleton in Hn as ->. vm_compute. reflexivity.
Defined.

(** X2. With the [exclude] argument naming existing fields only,
    [get_allowed_fields] drops exactly the named fields and keeps the others
    in the order of the serializer. *)
Theorem get_allowed_fields_drops_excluded
    (set_iter : list string → list string) (self : serializer)
    (excluded : list string) :
  set_iteration set_iter →
  wf (super_fields self) →
  allowed_fields self = None →
  excluded_fields self = Some excluded →
  (∀ n, n ∈ excluded → n ∈ keys (super_fields self)) →
  DynamicFieldsMixin.get_allowed_fields set_iter self
  = Ok (filter (λ kv, kv.1 ∉ excluded) (super_fields self)).
Proof.
  intros Hset Hwf Hallowed Hexcluded Hexist.
  unfold DynamicFieldsMixin.get_allowed_fields.
  rewrite Hallowed, Hexcluded. simpl.
  destruct (Hset excluded) as [Hnd Helem].
  rewrite pop_not_allowed_filter; [|done|done|].
  - f_equal. unfold dict in *. apply list_filter_iff. intros [k v]. simpl.
    by rewrite Helem.
  - intros n Hn. by apply Hexist, Helem.
Qed.

Lemma get_allowed_fields_drops_excluded_witness :
  DynamicFieldsMixin.get_allowed_fields first_occurrence_order
    (Post_serializer_with None (Some ["author"; "author"]))
  = Ok (filter (λ kv, kv.1 ∉ ["author"; "author"]) Post_fields).
Proof.
  apply (get_allowed_fields_drops_excluded first_occurrence_order
           (Post_serializer_with None (Some ["author"; "author"]))
           ["author"; "author"]).
  - exact set_iteration_first_occurrence_order.
  - apply (bool_decide_unpack _). vm_compute. reflexivity.
  - reflexivity.
  - reflexivity.
  - intros n Hn. apply (bool_decide_unpack _).
    apply elem_of_cons in Hn as [->|Hn]; [vm_compute; reflexivity|].
    apply list_elem_of_singleton in Hn as ->. vm_compute. reflexivity.
Defined.

(** X3. When the [fields] or the [exclude] argument names something that is
    no field of the serializer, [get_allowed_fields] raises [FieldNotFound]
    with the message for one of the names that are no field. *)
Theorem get_allowed_fields_unknown_name
    (set_iter : list string → list string) (self : serializer)
    (names : list string) (unknown : string) :
  set_iteration set_iter →
  (allowed_fields self = Some names
   ∨ (allowed_fields self = None ∧ excluded_fields self = Some names)) →
  unknown ∈ names →
  unknown ∉ keys (super_fields self) →
  ∃ n, n ∈ names ∧ n ∉ keys (super_fields self)
       ∧ DynamicFieldsMixin.get_allowed_fields set_iter self
         = Raise (FieldNotFound (DynamicFieldsMixin.msg_field_is_not_found n)).
Proof.
  intros Hset Hargs Hin Hunknown.
  unfold DynamicFieldsMixin.get_allowed_fields.
  destruct Hargs as [Hallowed | [Hallowed Hexcluded]].
  - rewrite Hallowed.
    set (l := filter (λ x, x ∉ names) (keys (super_fields self))
              ++ filter (λ x, x ∉ keys (super_fields self)) names).
    destruct (Hset l) as [Hnd Helem].
    destruct (pop_not_allowed_raises (super_fields self) (set_iter l) Hnd)
      as (n & Hn & Hbad & Hrun).
    { exists unknown. split; [|done]. apply Helem. unfold l.
      apply elem_of_app. right. by apply list_elem_of_filter. }
    exists n. rewrite Hrun. split; [|done].
    apply Helem in Hn. unfold l in Hn.
    apply elem_of_app in Hn as [Hn|Hn]; apply list_elem_of_filter in Hn.
    + by destruct Hn.
    + by destruct Hn.
  - rewrite Hallowed, Hexcluded. simpl.
    destruct (Hset names) as [Hnd Helem].
    destruct (pop_not_allowed_raises (super_fields self) (set_iter names) Hnd)
      as (n & Hn & Hbad & Hrun).
    { exists unknown. split; [|done]. by apply Helem. }
    exists n. rewrite Hrun. split; [|done]. by apply Helem.
Qed.

Lemma get_allowed_fields_unknown_name_witness :
  ∃ n, n ∈ ["title"; "subtitle"] ∧ n ∉ keys Post_fields
       ∧ DynamicFieldsMixin.get_allowed_fields first_occurrence_order
           (Post_serializer_with None (Some ["title"; "subtitle"]))
         = Raise (FieldNotFound (DynamicFieldsMixin.msg_field_is_not_found n)).
Proof.
  apply (get_allowed_fields_unknown_name first_occurrence_order
           (Post_serializer_with None (Some ["title"; "subtitle"]))
           ["title"; "subtitle"] "subtitle").
  - exact set_iteration_first_occurrence_order.
  - right. split; reflexivity.
  - apply (bool_decide_unpack _). vm_compute. reflexivity.
  - apply (bool_decide_unpack _). vm_compute. reflexivity.
Defined.

(** ** Errors and edges of [fields] *)

Section FieldsFacts.
Import DynamicFieldsMixin.
Variable get_parsed : string → (string * string) + query_t.
Variable set_iter : list string → list string.

Lemma scan_query_app fs all pre rest nested flat :
  scan_query fs all (pre ++ rest) nested flat
  = (let* r := scan_query fs all pre nested flat in
     scan_query fs all rest r.1 r.2).
Proof.
  revert nested flat. induction pre as [|[name|d] pre IH]; simpl;
    intros nested flat.
  - done.
  - destruct (negb (mem name all)); [done | apply IH].
  - destruct (check_nested_fields fs all (QNested d) (keys d)); simpl;
      [apply IH | done].
Qed.

Lemma check_nested_fields_app fs all field pre rest :
  check_nested_fields fs all field (pre ++ rest)
  = (let* _ := check_nested_fields fs all field pre in
     check_nested_fields fs all field rest).
Proof.
  induction pre as [|k pre IH]; simpl; [done|].
  destruct (negb (mem k all)); [done|].
  destruct (getitem fs k) as [f|]; simpl; [|done].
  destruct (negb (nested_classes (cls f))); [done | apply IH].
Qed.

(** What [fields] does once it holds a parsed query. *)
Lemma fields_selects self q full :
  selects get_parsed self q →
  get_allowed_fields set_iter self = Ok full →
  ∃ self',
    fields get_parsed set_iter self
    = (let* r := scan_query full (keys full) q [] [] in
       let* vis := pop_unselected full (keys full) (r.2 ++ keys r.1) in
       Ok (vis, set_nested_fields_queries self' r.1)).
Proof.
  intros (req & self' & Hreq & Hproc & Hloc & Hq) Hfull. exists self'.
  unfold fields. rewrite Hfull. simpl. rewrite Hreq, Hproc, Hloc. simpl.
  rewrite Hq. by destruct (scan_query full (keys full) q [] []) as [[]|].
Qed.
End FieldsFacts.

(** X4. [fields] only hides: whatever the query, the fields it returns are
    fields [get_allowed_fields] gave, in the same order. *)
Theorem fields_only_hides
    (get_parsed : string → (string * string) + query_t)
    (set_iter : list string → list string)
    (self self' : serializer) (full vis : dict field_obj) :
  wf (super_fields self) →
  DynamicFieldsMixin.get_allowed_fields set_iter self = Ok full →
  DynamicFieldsMixin.fields get_parsed set_iter self = Ok (vis, self') →
  vis `sublist_of` full.
Proof.
  intros Hwf Hfull Hrun.
  apply wf_get_allowed_fields in Hfull as Hwf'; [|done].
  unfold DynamicFieldsMixin.fields in Hrun. rewrite Hfull in Hrun.
  simpl in Hrun.
  destruct (DynamicFieldsMixin.is_not_a_request_to_process _);
    [by injection Hrun as <- _|].
  destruct (context_request self) as [req|]; [|by injection Hrun as <- _].
  destruct (DynamicFieldsMixin.locate_query get_parsed self req) as [[|s]|];
    simpl in Hrun; [by injection Hrun as <- _| |done].
  destruct (query s) as [q|]; [|by injection Hrun as <- _].
  destruct (DynamicFieldsMixin.scan_query full (keys full) q [] [])
    as [[nested flat]|]; simpl in Hrun; [|done].
  rewrite (pop_unselected_filter _ [] full Hwf') in Hrun. simpl in Hrun.
  injection Hrun as <- _. unfold dict in *. apply sublist_filter.
Qed.

Lemma fields_only_hides_witness :
  filter (λ kv, kv.1 ∈ ["title"]) Post_fields `sublist_of` Post_fields.
Proof.
  apply (fields_only_hides (constant_parser [QFlat "title"])
           first_occurrence_order (Post_serializer "{title}" None)
           (set_nested_fields_queries
              (Post_serializer "{title}" (Some [QFlat "title"])) [])
           Post_fields (filter (λ kv, kv.1 ∈ ["title"]) Post_fields)).
  - apply (bool_decide_unpack _). vm_compute. reflexivity.
  - reflexivity.
  - reflexivity.
Defined.

(** X5. A flat element of the query that names no field makes [fields]
    raise the error that names it, when everything before it in the query
    is in order. *)
Theorem fields_absent_leaf_raises
    (get_parsed : string → (string * string) + query_t)
    (set_iter : list string → list string)
    (self : serializer) (full : dict field_obj)
    (pre post : query_t) (name : string) :
  DynamicFieldsMixin.get_allowed_fields set_iter self = Ok full →
  selects get_parsed self (pre ++ QFlat name :: post) →
  (∀ x, x ∈ leaf_names pre → x ∈ keys full) →
  (∀ x, x ∈ nested_keys pre → x ∈ keys full ∧ is_nested_field full x) →
  name ∉ keys full →
  DynamicFieldsMixin.fields get_parsed set_iter self
  = Raise (ValidationError ("'" +:+ name +:+ "' field is not found")).
Proof.
  intros Hfull Hsel Hleaf Hnest Hname.
  destruct (fields_selects get_parsed set_iter self _ full Hsel Hfull)
    as (self' & ->).
  rewrite scan_query_app, (scan_query_ok full (keys full) pre Hleaf Hnest).
  simpl. apply mem_false in Hname. by rewrite Hname.
Qed.

Lemma fields_absent_leaf_raises_witness :
  DynamicFieldsMixin.fields
    (constant_parser [QFlat "title"; QFlat "replies"; QFlat "tags"])
    first_occurrence_order (Post_serializer "{title, replies, tags}" None)
  = Raise (ValidationError ("'" +:+ "replies" +:+ "' field is not found")).
Proof.
  apply (fields_absent_leaf_raises
           (constant_parser [QFlat "title"; QFlat "replies"; QFlat "tags"])
           first_occurrence_order
           (Post_serializer "{title, replies, tags}" None) Post_fields
           [QFlat "title"] [QFlat "tags"] "replies").
  - reflexivity.
  - eexists _, _. repeat split; reflexivity.
  - intros x Hx. apply list_elem_of_singleton in Hx as ->.
    apply (bool_decide_unpack _). vm_compute. reflexivity.
  - intros x Hx. inversion Hx.
  - apply (bool_decide_unpack _). vm_compute. reflexivity.
Defined.

(** X6. A nested element of the query whose key names a field that is of
    no nested class makes [fields] raise the error that names the field,
    when everything before it in the query, and every key before it in the
    element, is in order. *)
Theorem fields_flat_field_as_nested_key_raises
    (get_parsed : string → (string * string) + query_t)
    (set_iter : list string → list string)
    (self : serializer) (full : dict field_obj)
    (pre post : query_t) (d dpre dpost : dict query_t)
    (key : string) (sub : query_t) (f : field_obj) :
  DynamicFieldsMixin.get_allowed_fields set_iter self = Ok full →
  selects get_parsed self (pre ++ QNested d :: post) →
  (∀ x, x ∈ leaf_names pre → x ∈ keys full) →
  (∀ x, x ∈ nested_keys pre → x ∈ keys full ∧ is_nested_field full x) →
  d = dpre ++ (key, sub) :: dpost →
  (∀ x, x ∈ keys dpre → x ∈ keys full ∧ is_nested_field full x) →
  get full key = Some f →
  DynamicFieldsMixin.nested_classes (cls f) = false →
  DynamicFieldsMixin.fields get_parsed set_iter self
  = Raise (ValidationError ("'" +:+ key +:+ "' is not a nested field")).
Proof.
  intros Hfull Hsel Hleaf Hnest -> Hdpre Hkey Hcls.
  destruct (fields_selects get_parsed set_iter self _ full Hsel Hfull)
    as (self' & ->).
  rewrite scan_query_app, (scan_query_ok full (keys full) pre Hleaf Hnest).
  simpl. unfold keys at 2. rewrite fmap_app. simpl.
  rewrite check_nested_fields_app.
  rewrite (check_nested_fields_ok full (keys full) _ (dpre.*1) Hdpre). simpl.
  assert (Hin : mem key (keys full) = true).
  { apply mem_true, get_is_Some. eauto. }
  rewrite Hin. simpl. unfold getitem. rewrite Hkey. simpl. by rewrite Hcls.
Qed.

Lemma fields_flat_field_as_nested_key_raises_witness :
  DynamicFieldsMixin.fields
    (constant_parser
       [QFlat "title";
        QNested [("comments", [QFlat "text"]); ("title", [QFlat "x"])]])
    first_occurrence_order (Post_serializer "{title, comments{text}}" None)
  = Raise (ValidationError ("'" +:+ "title" +:+ "' is not a nested field")).
Proof.
  apply (fields_flat_field_as_nested_key_raises
           (constant_parser
              [QFlat "title";
               QNested [("comments", [QFlat "text"]); ("title", [QFlat "x"])]])
           first_occurrence_order
           (Post_serializer "{title, comments{text}}" None) Post_fields
           [QFlat "title"] []
           [("comments", [QFlat "text"]); ("title", [QFlat "x"])]
           [("comments", [QFlat "text"])] [] "title" [QFlat "x"]
           {| cls := Field; is_replaceable := false; is_writable := false;
              nested_model := "" |}).
  - reflexivity.
  - eexists _, _. repeat split; reflexivity.
  - intros x Hx. apply list_elem_of_singleton in Hx as ->.
    apply (bool_decide_unpack _). vm_compute. reflexivity.
  - intros x Hx. inversion Hx.
  - reflexivity.
  - intros x Hx. apply list_elem_of_singleton in Hx as ->. split.
    + apply (bool_decide_unpack _). vm_compute. reflexivity.
    + eexists. split; reflexivity.
  - reflexivity.
  - reflexivity.
Defined.

(** X7. At the top of a request to process, a serializer built without a
    query has the query text of the request parsed, and a syntax error of
    the parser comes out of [fields] as a validation error that carries the
    message and the text of the syntax error. *)
Theorem fields_query_format_error
    (get_parsed : string → (string * string) + query_t)
    (set_iter : list string → list string)
    (self : serializer) (req : request) (full : dict field_obj)
    (raw_query msg text : string) :
  DynamicFieldsMixin.get_allowed_fields set_iter self = Ok full →
  context_request self = Some req →
  method req = "GET" →
  get (query_params req) "query" = Some raw_query →
  field_name self = None → parent self = None → query self = None →
  get_parsed raw_query = inl (msg, text) →
  DynamicFieldsMixin.fields get_parsed set_iter self
  = Raise (ValidationError
             ("QueryFormatError: " +:+ msg +:+ " on " +:+ text)).
Proof.
  intros Hfull Hreq Hmethod Hraw Hname Hparent Hquery Hparse.
  unfold DynamicFieldsMixin.fields. rewrite Hfull. simpl. rewrite Hreq.
  assert (Hproc : DynamicFieldsMixin.is_not_a_request_to_process (Some req)
                  = false).
  { simpl. rewrite Hmethod. simpl.
    unfold DynamicFieldsMixin.has_query_param,
      DynamicFieldsMixin.query_param_name.
    assert (Hin : mem "query" (keys (query_params req)) = true).
    { apply mem_true, get_is_Some. eauto. }
    by rewrite Hin. }
  rewrite Hproc.
  unfold DynamicFieldsMixin.locate_query,
    DynamicFieldsMixin.is_top_retrieve_request.
  rewrite Hname, Hparent, Hquery. simpl.
  unfold DynamicFieldsMixin.get_parsed_query_from_req,
    DynamicFieldsMixin.get_raw_query, DynamicFieldsMixin.query_param_name,
    getitem.
  rewrite Hraw. simpl. by rewrite Hparse.
Qed.

Lemma fields_query_format_error_witness :
  DynamicFieldsMixin.fields (λ _, inl ("expected '}'", "{title"))
    first_occurrence_order (Post_serializer "{title" None)
  = Raise (ValidationError
             ("QueryFormatError: " +:+ "expected '}'" +:+ " on " +:+ "{title")).
Proof.
  apply (fields_query_format_error (λ _, inl ("expected '}'", "{title"))
           first_occurrence_order (Post_serializer "{title" None)
           (get_request "{title") Post_fields "{title" "expected '}'" "{title");
    reflexivity.
Defined.

(** X8. The query text of the request is parsed only by a serializer built
    without a query that stands at the top of the request, as the root
    serializer or as the item of a root list. A serializer that was given a
    query, or that stands at neither place (a nested field, the item of a
    nested list), gives the same whatever the parser is. *)
Theorem fields_parses_only_at_top_without_query
    (get_parsed get_parsed' : string → (string * string) + query_t)
    (set_iter : list string → list string) (self : serializer) :
  (query self ≠ None
   ∨ DynamicFieldsMixin.is_top_retrieve_request self
     || DynamicFieldsMixin.is_top_list_request self = false) →
  DynamicFieldsMixin.fields get_parsed set_iter self
  = DynamicFieldsMixin.fields get_parsed' set_iter self.
Proof.
  intros Hcase. unfold DynamicFieldsMixin.fields.
  destruct (DynamicFieldsMixin.get_allowed_fields set_iter self); [|done].
  simpl. destruct (DynamicFieldsMixin.is_not_a_request_to_process _); [done|].
  destruct (context_request self) as [req|]; [|done].
  assert (Hloc : DynamicFieldsMixin.locate_query get_parsed self req
                 = DynamicFieldsMixin.locate_query get_parsed' self req).
  { unfold DynamicFieldsMixin.locate_query.
    destruct Hcase as [Hq | Htop].
    - destruct (query self); [|done].
      by destruct (_ || _).
    - by rewrite Htop. }
  by rewrite Hloc.
Qed.

Lemma fields_parses_only_at_top_without_query_witness :
  (DynamicFieldsMixin.fields (constant_parser [QFlat "title"])
     first_occurrence_order (Post_serializer "{title}" (Some [QFlat "tags"]))
   = DynamicFieldsMixin.fields (constant_parser [QFlat "author"])
       first_occurrence_order (Post_serializer "{title}" (Some [QFlat "tags"])))
  ∧ (DynamicFieldsMixin.fields (constant_parser [QFlat "title"])
       first_occurrence_order
       (nested_Post_serializer [("post", [QFlat "tags"])])
     = DynamicFieldsMixin.fields (constant_parser [QFlat "author"])
         first_occurrence_order
         (nested_Post_serializer [("post", [QFlat "tags"])]))
  ∧ (DynamicFieldsMixin.fields (constant_parser [QFlat "title"])
       first_occurrence_order
       (Comment_serializer "{title}" (Some [("comments", [QFlat "text"])]))
     = DynamicFieldsMixin.fields (constant_parser [QFlat "author"])
         first_occurrence_order
         (Comment_serializer "{title}" (Some [("comments", [QFlat "text"])]))).
Proof.
  split; [|split].
  - apply (fields_parses_only_at_top_without_query
             (constant_parser [QFlat "title"])
             (constant_parser [QFlat "author"]) first_occurrence_order
             (Post_serializer "{title}" (Some [QFlat "tags"]))).
    left. discriminate.
  - apply (fields_parses_only_at_top_without_query
             (constant_parser [QFlat "title"])
             (constant_parser [QFlat "author"]) first_occurrence_order
             (nested_Post_serializer [("post", [QFlat "tags"])])).
    right. reflexivity.
  - apply (fields_parses_only_at_top_without_query
             (constant_parser [QFlat "title"])
             (constant_parser [QFlat "author"]) first_occurrence_order
             (Comment_serializer "{title}"
                (Some [("comments", [QFlat "text"])]))).
    right. reflexivity.
Defined.

(** X9. A parsed query that is empty is a query all the same: [fields]
    hides every field and records an empty nested scope. *)
Theorem fields_empty_query_hides_all
    (get_parsed : string → (string * string) + query_t)
    (set_iter : list string → list string)
    (self : serializer) (full : dict field_obj) :
  wf (super_fields self) →
  DynamicFieldsMixin.get_allowed_fields set_iter self = Ok full →
  selects get_parsed self [] →
  ∃ self',
    DynamicFieldsMixin.fields get_parsed set_iter self = Ok ([], self')
    ∧ nested_fields_queries self' = Some [].
Proof.
  intros Hwf Hfull Hsel.
  apply wf_get_allowed_fields in Hfull as Hwf'; [|done].
  destruct (fields_selects get_parsed set_iter self _ full Hsel Hfull)
    as (self' & ->).
  simpl. rewrite (pop_unselected_filter _ [] full Hwf'). simpl.
  assert (Hnone : filter (λ kv : string * field_obj, kv.1 ∈ []) full = []).
  { unfold dict in *. clear. induction full as [|x full IH]; [done|].
    rewrite filter_cons, decide_False; [done|]. intros H. inversion H. }
  unfold dict in *. rewrite Hnone. by eexists.
Qed.

Lemma fields_empty_query_hides_all_witness :
  ∃ self',
    DynamicFieldsMixin.fields (constant_parser []) first_occurrence_order
      (Post_serializer "{}" None)
    = Ok ([], self')
    ∧ nested_fields_queries self' = Some [].
Proof.
  apply (fields_empty_query_hides_all (constant_parser [])
           first_occurrence_order (Post_serializer "{}" None) Post_fields).
  - apply (bool_decide_unpack _). vm_compute. reflexivity.
  - reflexivity.
  - eexists _, _. repeat split; reflexivity.
Defined.

(** ** The writes of [create] *)

Lemma super_create_log (Meta_model : model_class) (data : dict value)
    (st : store) :
  match (super_create Meta_model data st).1 with
  | Ok i =>
      ∃ r, log (super_create Meta_model data st).2
           = log st ++ [(Base, SuperCreate i r)]
  | Raise _ => log (super_create Meta_model data st).2 = log st
  end.
Proof.
  unfold super_create, mbind' at 1, lift at 1.
  destruct (to_row data) as [r|e]; simpl; eauto.
Qed.

(** X10. The writes of [create] come in a fixed order: first the objects
    created for the writable single nested fields, then the base create,
    once, then every write of the many-to-many relations, then every write
    of the has-many relations. No relation of a collection is written
    unless the base create has been made, and the instance [create] returns
    is the one the base create made. *)
Theorem create_writes_in_order
    (get_fields : dict field_obj) (Meta_model : model_class)
    (is_valid : string → row → bool)
    (add_error : store → Z → string → list Z → option string)
    (validated_data : dict value) (st : store) :
  let run :=
    create get_fields Meta_model is_valid add_error validated_data st in
  ∃ fk base m2m m2o,
    log (run.2) = log st ++ fk ++ base ++ m2m ++ m2o
    ∧ Forall (λ e, e.1 = WritableFK) fk
    ∧ Forall (λ e, e.1 = ManyToMany) m2m
    ∧ Forall (λ e, e.1 = ManyToOne) m2o
    ∧ ((base = [] ∧ m2m = [] ∧ m2o = [] ∧ ∃ e, run.1 = Raise e)
       ∨ ∃ i r, base = [(Base, SuperCreate i r)]
                ∧ ((∃ e, run.1 = Raise e) ∨ run.1 = Ok i)).
Proof.
  cbv zeta.
  remember (create get_fields Meta_model is_valid add_error validated_data st)
    as r eqn:Hrun.
  unfold create in Hrun. unfold mbind' at 1, lift at 1 in Hrun.
  destruct (classify get_fields Meta_model validated_data)
    as [[validated_data' fields]|e]; cbv beta iota in Hrun.
  2:{ exists [], [], [], []. subst r. simpl. rewrite app_nil_r.
      repeat (split; [done|]). left. eauto. }
  run_stage_in Hrun (λ o, o = WritableFK) fk objs st1 Hfk Hlog1.
  { by apply writes_only_create_writable. }
  2:{ exists fk, [], [], []. subst r. simpl. rewrite !app_nil_r.
      repeat (split; [done|]). left. eauto. }
  unfold mbind' at 1 in Hrun.
  pose proof (super_create_log Meta_model
                (PyDict.update validated_data'
                   (PyDict.update (replaceable fields) objs)) st1) as Hbase.
  destruct (super_create Meta_model _ st1) as [[instance|e] st2];
    simpl in Hbase.
  2:{ exists fk, [], [], []. subst r. simpl.
      rewrite Hbase, Hlog1, !app_nil_r.
      repeat (split; [done|]). left. eauto. }
  destruct Hbase as (row & Hlog2).
  run_stage_in Hrun (λ o, o = ManyToMany) m2m a3 st3 Hm2m Hlog3.
  { by apply writes_only_create_many_to_many. }
  2:{ exists fk, [(Base, SuperCreate instance row)], m2m, []. subst r. simpl.
      rewrite Hlog3, Hlog2, Hlog1, !app_nil_r, <- !app_assoc.
      repeat (split; [done|]). right. eauto 6. }
  run_stage_in Hrun (λ o, o = ManyToOne) m2o a4 st4 Hm2o Hlog4.
  { by apply writes_only_create_many_to_one. }
  2:{ exists fk, [(Base, SuperCreate instance row)], m2m, m2o. subst r. simpl.
      rewrite Hlog4, Hlog3, Hlog2, Hlog1, <- !app_assoc.
      repeat (split; [done|]). right. eauto 6. }
  exists fk, [(Base, SuperCreate instance row)], m2m, m2o. subst r. simpl.
  rewrite Hlog4, Hlog3, Hlog2, Hlog1, <- !app_assoc.
  repeat (split; [done|]). right. eauto 6.
Qed.

Lemma create_many_to_one_CREATE_creates_all_witness :
  ∃ model pks,
    [("comments", [10%Z])] = setitem [] "comments" pks
    ∧ length pks = length [[("text", SStr "hi")]]
    ∧ new_writes some_store
        (create_many_to_one_operation Post_fields all_valid 5 "comments"
           "post" [] CREATE (Rows [[("text", SStr "hi")]]) some_store).2
      = zip_with
          (λ pk values,
             (ManyToOne,
              SerializerCreate model pk (setitem values "post" (SInt 5))))
          pks [[("text", SStr "hi")]].
Proof.
  apply (create_many_to_one_CREATE_creates_all Post_fields all_valid 5
           "comments" "post" [] [("comments", [10%Z])]
           [[("text", SStr "hi")]] some_store).
  vm_compute. reflexivity.
Defined.

(** ** What [classify] does with the validated data *)

Lemma get_remove {V} (d : dict V) (k k' : string) :
  wf d → get (remove d k) k' = if decide (k' = k) then None else get d k'.
Proof.
  unfold wf, keys. induction d as [|[k0 v0] d IH]; simpl; intros Hwf.
  - by destruct (decide (k' = k)).
  - apply NoDup_cons in Hwf as [Hnotin Hwf].
    destruct (decide (k = k0)) as [->|Hne]; simpl.
    + destruct (decide (k' = k0)) as [->|Hne']; [|done].
      apply get_None. done.
    + destruct (decide (k' = k0)) as [->|Hne'].
      * by rewrite decide_False.
      * by apply IH.
Qed.

Lemma remove_sublist {V} (d : dict V) (k : string) : remove d k `sublist_of` d.
Proof.
  induction d as [|[k0 v0] d IH]; simpl; [done|].
  destruct (decide (k = k0)); [by apply sublist_cons | by apply sublist_skip].
Qed.

Lemma filed_files fs f x fs' k v :
  files fs f x fs' →
  filed fs' k v →
  (k = f ∧ (v = x ∨ filed fs k v)) ∨ (k ≠ f ∧ filed fs k v).
Proof.
  unfold filed.
  intros [ -> | [ -> | [ -> | -> ] ] ]; simpl; rewrite get_setitem;
    destruct (decide (k = f)) as [->|Hne]; naive_solver.
Qed.

Lemma files_filed_eq fs f x fs' : files fs f x fs' → filed fs' f x.
Proof.
  unfold filed.
  intros [ -> | [ -> | [ -> | -> ] ] ]; simpl; rewrite get_setitem, decide_True by done;
    tauto.
Qed.

Lemma files_filed_ne fs f x fs' k v :
  files fs f x fs' → k ≠ f → filed fs k v → filed fs' k v.
Proof.
  unfold filed.
  intros [ -> | [ -> | [ -> | -> ] ] ] Hne; simpl; rewrite get_setitem, decide_False by done;
    tauto.
Qed.

Lemma classify_field_cases
    (get_fields : dict field_obj) (Meta_model : model_class)
    (acc acc' : dict value * partition) (field : string) :
  classify_field get_fields Meta_model acc field = Ok acc' →
  acc' = acc
  ∨ ∃ x, get acc.1 field = Some x
         ∧ acc'.1 = remove acc.1 field
         ∧ files acc.2 field x acc'.2.
Proof.
  destruct acc as [vd fs]. unfold classify_field, files, pop.
  destruct (getitem get_fields field) as [f|]; simpl; [|done].
  destruct (get vd field) as [x|]; simpl;
    destruct (cls f); simpl;
    repeat match goal with
           | |- context [if ?b then _ else _] => destruct b; simpl
           end;
    try (destruct (getattr_model Meta_model field) as [d|]; simpl; [|done];
         destruct (rel d); simpl);
    intros Hrun; try done; injection Hrun as <-; eauto 10.
Qed.

(** The state of the loop of [classify] over the validated data [vd0]. *)
Lemma classify_loop_invariant
    (get_fields : dict field_obj) (Meta_model : model_class)
    (vd0 : dict value) (data : list string)
    (acc acc' : dict value * partition) :
  classify_loop get_fields Meta_model data acc = Ok acc' →
  wf acc.1 ∧ acc.1 `sublist_of` vd0
  ∧ (∀ k v, get vd0 k = Some v ↔ get acc.1 k = Some v ∨ filed acc.2 k v)
  ∧ (∀ k v, filed acc.2 k v → k ∉ keys acc.1) →
  wf acc'.1 ∧ acc'.1 `sublist_of` vd0
  ∧ (∀ k v, get vd0 k = Some v ↔ get acc'.1 k = Some v ∨ filed acc'.2 k v)
  ∧ (∀ k v, filed acc'.2 k v → k ∉ keys acc'.1).
Proof.
  revert acc. induction data as [|field data IH]; simpl; intros acc Hrun Hinv.
  - by injection Hrun as <-.
  - destruct (classify_field get_fields Meta_model acc field) as [acc1|]
      eqn:Hstep; simpl in Hrun; [|done].
    apply (IH acc1 Hrun). clear IH Hrun.
    apply classify_field_cases in Hstep as [->|(x & Hx & Hvd & Hfiles)];
      [done|].
    destruct Hinv as (Hwf & Hsub & Hiff & Hdisj).
    destruct acc as [vd fs], acc1 as [vd1 fs1]. simpl in *. subst vd1.
    assert (Hfield : ∀ v, ¬ filed fs field v).
    { intros v Hv. apply (Hdisj _ _ Hv), get_is_Some. eauto. }
    split; [by apply wf_remove|].
    split; [by etrans; [apply remove_sublist|]|].
    split.
    + intros k v. rewrite get_remove by done. rewrite Hiff. split.
      * intros [Hget|Hfiled].
        -- destruct (decide (k = field)) as [->|Hne]; [|by left].
           right. rewrite Hx in Hget. injection Hget as <-.
           by eapply files_filed_eq.
        -- right. eapply files_filed_ne; [done| |done].
           intros ->. by apply Hfield in Hfiled.
      * intros [Hget|Hfiled].
        -- case_decide; [done | by left].
        -- apply (filed_files _ _ _ _ _ _ Hfiles) in Hfiled
             as [[-> [->|Hf]]|[Hne Hf]];
             [by left | by apply Hfield in Hf | by right].
    + intros k v Hfiled Hin.
      apply (filed_files _ _ _ _ _ _ Hfiles) in Hfiled as [[-> _]|[Hne Hf]].
      * apply get_is_Some in Hin as [w Hw]. rewrite get_remove in Hw by done.
        by rewrite decide_True in Hw.
      * apply (Hdisj _ _ Hf). by eapply keys_remove_elem_of.
Qed.

(** X12. [classify] loses nothing and invents nothing: every entry of the
    validated data is either left, in place, in the data for the base call
    or filed under one of the four kinds, never both, and nothing else is
    left or filed. *)
Theorem classify_files_or_leaves
    (get_fields : dict field_obj) (Meta_model : model_class)
    (validated_data validated_data' : dict value) (fields : partition) :
  wf validated_data →
  classify get_fields Meta_model validated_data
  = Ok (validated_data', fields) →
  validated_data' `sublist_of` validated_data
  ∧ (∀ k v, get validated_data k = Some v
            ↔ get validated_data' k = Some v ∨ filed fields k v)
  ∧ (∀ k v, filed fields k v → k ∉ keys validated_data').
Proof.
  intros Hwf Hrun. unfold classify in Hrun.
  eapply classify_loop_invariant in Hrun as (_ & Hsub & Hiff & Hdisj).
  - done.
  - simpl. split; [done|]. split; [done|]. unfold filed. simpl.
    split; [|naive_solver]. intros k v. naive_solver.
Qed.

Lemma classify_files_or_leaves_witness :
  [("title", Plain (SStr "x"))] `sublist_of` payload_add_and_create_tags
  ∧ (∀ k v, get payload_add_and_create_tags k = Some v
            ↔ get [("title", Plain (SStr "x"))] k = Some v
              ∨ filed {| replaceable := []; writable := [];
                         many_related :=
                           [("tags",
                             Operations [(ADD, Pks [1; 2]%Z);
                                         (CREATE, Rows [[("name", SStr "c")]])])];
                         one_related := [] |} k v)
  ∧ (∀ k v, filed {| replaceable := []; writable := [];
                     many_related :=
                       [("tags",
                         Operations [(ADD, Pks [1; 2]%Z);
                                     (CREATE, Rows [[("name", SStr "c")]])])];
                     one_related := [] |} k v
            → k ∉ keys [("title", Plain (SStr "x"))]).
Proof.
  apply (classify_files_or_leaves Post_fields Post
           payload_add_and_create_tags).
  - apply (bool_decide_unpack _). vm_compute. reflexivity.
  - reflexivity.
Defined.

(** ** Data without nested writes *)

Lemma classify_loop_passes_through
    (get_fields : dict field_obj) (Meta_model : model_class)
    (data : list string) (acc : dict value * partition) :
  (∀ k, k ∈ data → ∃ f, get get_fields k = Some f ∧ passes_through f) →
  classify_loop get_fields Meta_model data acc = Ok acc.
Proof.
  induction data as [|field data IH]; simpl; intros Hall; [done|].
  destruct (Hall field) as (f & Hf & Hpass); [apply elem_of_cons; by left|].
  assert (Hstep : classify_field get_fields Meta_model acc field = Ok acc).
  { destruct acc as [vd fs]. unfold classify_field, getitem. rewrite Hf.
    simpl. destruct Hpass as [->|[->|[-> ->]]]; try done.
    by destruct (cls f). }
  rewrite Hstep. simpl. apply IH. intros k Hk. apply Hall, elem_of_cons.
  by right.
Qed.

Lemma update_nil {V} (d : dict V) : PyDict.update d [] = d.
Proof. done. Qed.

(** X13. When every field of the validated data is one that is not written
    through (no serializer, or neither replaceable nor writable), [create]
    is the base create on the same data and [update] the base update on the
    same data: nothing else is written. *)
Theorem plain_data_goes_to_the_base_call
    (get_fields : dict field_obj) (Meta_model : model_class)
    (is_valid : string → row → bool)
    (add_error remove_error : store → Z → string → list Z → option string)
    (instance : Z) (validated_data : dict value) (st : store) :
  (∀ k, k ∈ keys validated_data →
        ∃ f, get get_fields k = Some f ∧ passes_through f) →
  create get_fields Meta_model is_valid add_error validated_data st
  = super_create Meta_model validated_data st
  ∧ update get_fields Meta_model is_valid add_error remove_error instance
      validated_data st
    = super_update Meta_model instance validated_data st.
Proof.
  intros Hall.
  pose proof (classify_loop_passes_through get_fields Meta_model
                (keys validated_data) (validated_data, empty_partition) Hall)
    as Hclass.
  split.
  - unfold create, classify. rewrite Hclass.
    unfold mbind' at 1, lift at 1. simpl.
    unfold mbind', ret. simpl.
    by destruct (super_create Meta_model validated_data st) as [[i|e] st'].
  - unfold update, classify. rewrite Hclass.
    unfold mbind' at 1, lift at 1. simpl. unfold mbind', ret. simpl. done.
Qed.

Lemma plain_data_goes_to_the_base_call_witness :
  create Post_fields Post all_valid no_error payload_plain some_store
  = super_create Post payload_plain some_store
  ∧ update Post_fields Post all_valid no_error no_error 5 payload_plain
      some_store
    = super_update Post 5 payload_plain some_store.
Proof.
  apply (plain_data_goes_to_the_base_call Post_fields Post all_valid
           no_error no_error 5 payload_plain some_store).
  intros k Hk. apply list_elem_of_singleton in Hk as ->.
  eexists. split; [reflexivity|]. left. reflexivity.
Defined.

(** ** Rows of a has-many relation *)

Lemma update_rows_lookup_Some (model : string) (pks : list Z) (column : string)
    (v : Z) (t : gmap (string * Z) row) (key : string * Z) (r : row) :
  t !! key = Some r →
  ∃ r', update_rows model pks column v t !! key = Some r'
        ∧ (∀ c, c ≠ column → get r' c = get r c)
        ∧ (key.1 = model ∧ key.2 ∈ pks → get r' column = Some (SInt v))
        ∧ (¬ (key.1 = model ∧ key.2 ∈ pks) → r' = r).
Proof.
  intros Ht. unfold update_rows, row, dict in *. destruct key as [m z].
  induction pks as [|pk pks (r1 & Hr1 & Hother & Htarget & Hrest)]; simpl.
  - exists r. split; [done|]. split; [done|]. split; [|done].
    intros [_ Hin]. inversion Hin.
  - rewrite lookup_alter.
    destruct (decide ((model, pk) = (m, z))) as [[= <- <-]|Hne].
    + rewrite Hr1. simpl. eexists. split; [done|]. split; [|split].
      * intros c Hc. rewrite get_setitem, decide_False by done. by apply Hother.
      * intros _. by rewrite get_setitem, decide_True.
      * intros Hnot. destruct Hnot. split; [done|]. simpl. apply elem_of_cons.
        by left.
    + exists r1. split; [done|]. split; [done|]. split.
      * intros [Hm Hin]. apply Htarget. split; [done|].
        apply elem_of_cons in Hin as [Hz|Hin]; [|done].
        simpl in *. destruct Hne. by subst.
      * intros Hnot. apply Hrest. intros [Hm Hin]. apply Hnot. split; [done|].
        apply elem_of_cons. by right.
Qed.

Lemma update_rows_lookup_None (model : string) (pks : list Z) (column : string)
    (v : Z) (t : gmap (string * Z) row) (key : string * Z) :
  t !! key = None → update_rows model pks column v t !! key = None.
Proof.
  intros Ht. unfold update_rows, row, dict in *.
  induction pks as [|pk pks IH]; simpl; [done|].
  rewrite lookup_alter. destruct (decide ((model, pk) = key)) as [<-|Hne];
    [by rewrite IH | done].
Qed.

(** X14. ADD on a has-many field in [update] points the foreign key of the
    rows of the child model with the given keys at the instance. It changes
    no other column and no other row, creates no row (a key that names no
    row is passed over) and leaves the many-to-many relations as they
    are. *)
Theorem update_has_many_ADD_reassigns
    (get_fields : dict field_obj) (Meta_model : model_class)
    (is_valid : string → row → bool)
    (instance : Z) (field foreignkey : string) (pks : list Z)
    (st st' : store) :
  update_many_to_one_operation get_fields Meta_model is_valid instance field
    foreignkey ADD (Pks pks) st
  = (Ok tt, st') →
  ∃ f,
    get get_fields field = Some f
    ∧ (∀ key r,
         table st !! key = Some r →
         ∃ r', table st' !! key = Some r'
               ∧ (∀ c, c ≠ foreignkey → get r' c = get r c)
               ∧ (key.1 = nested_model f ∧ key.2 ∈ pks →
                  get r' foreignkey = Some (SInt instance))
               ∧ (¬ (key.1 = nested_model f ∧ key.2 ∈ pks) → r' = r))
    ∧ (∀ key, table st !! key = None → table st' !! key = None)
    ∧ related st' = related st.
Proof.
  unfold update_many_to_one_operation. rewrite decide_True by done.
  intros Hrun.
  apply bind_Ok_inv in Hrun as (f & st1 & Hf & Hrun).
  apply bind_Ok_inv in Hrun as (model & st2 & Hmodel & Hrun).
  unfold lift in Hf, Hmodel. injection Hf as Hf <-.
  injection Hmodel as Hmodel <-.
  unfold getitem in Hf. destruct (get get_fields field) as [f'|] eqn:Hget;
    [|done]. injection Hf as ->.
  unfold child_meta_model in Hmodel. destruct (cls f); try done.
  injection Hmodel as <-.
  unfold queryset_update, mbind', get_store, set_table, emit in Hrun.
  simpl in Hrun. injection Hrun as <-. simpl.
  exists f. split; [done|]. split; [|split; [|done]].
  - intros key r Hr. by apply update_rows_lookup_Some.
  - intros key Hkey. by apply update_rows_lookup_None.
Qed.

Lemma update_has_many_ADD_reassigns_witness :
  ∃ f,
    get Post_fields "tags" = Some f
    ∧ (∀ key r,
         table some_store !! key = Some r →
         ∃ r',
           table (update_many_to_one_operation Post_fields Post all_valid 5
                    "tags" "post" ADD (Pks [1; 7]%Z) some_store).2
           !! key = Some r'
           ∧ (∀ c, c ≠ "post" → get r' c = get r c)
           ∧ (key.1 = nested_model f ∧ key.2 ∈ [1; 7]%Z →
              get r' "post" = Some (SInt 5))
           ∧ (¬ (key.1 = nested_model f ∧ key.2 ∈ [1; 7]%Z) → r' = r))
    ∧ (∀ key,
         table some_store !! key = None →
         table (update_many_to_one_operation Post_fields Post all_valid 5
                  "tags" "post" ADD (Pks [1; 7]%Z) some_store).2
         !! key = None)
    ∧ related (update_many_to_one_operation Post_fields Post all_valid 5
                 "tags" "post" ADD (Pks [1; 7]%Z) some_store).2
      = related some_store.
Proof.
  apply (update_has_many_ADD_reassigns Post_fields Post all_valid 5 "tags"
           "post" [1; 7]%Z some_store).
  vm_compute. reflexivity.
Defined.

(** ** Operations of [update] on a many-to-many relation *)

Lemma update_unknown_operation_raises_witness :
  ∃ e,
    (update Post_fields Post all_valid no_error no_error 5
       payload_unknown_operation some_store).1
    = Raise e.
Proof.
  apply (update_unknown_operation_raises Post_fields Post all_valid no_error
           no_error 5 payload_unknown_operation
           [("title", Plain (SStr "x"))]
           {| replaceable := []; writable := []; many_related := [];
              one_related :=
                [("comments",
                  Operations [("replace", Rows [[("text", SStr "hi")]])])] |}
           "comments" [("replace", Rows [[("text", SStr "hi")]])]
           "replace" (Rows [[("text", SStr "hi")]]) some_store).
  - reflexivity.
  - apply list_elem_of_here.
  - apply list_elem_of_here.
  - apply (bool_decide_unpack _). vm_compute. reflexivity.
Defined.

(** X16. In [update], ADD on a many-to-many field attaches the given keys
    to what the relation holds and REMOVE detaches them from it; no other
    relation and no row changes. *)
Theorem update_many_to_many_ADD_and_REMOVE
    (get_fields : dict field_obj) (is_valid : string → row → bool)
    (add_error remove_error : store → Z → string → list Z → option string)
    (instance : Z) (field operation : string) (pks : list Z)
    (st st' : store) :
  operation = ADD ∨ operation = REMOVE →
  update_many_to_many_operation get_fields is_valid add_error remove_error
    instance field operation (Pks pks) st
  = (Ok tt, st') →
  members st' instance field
  = (if decide (operation = ADD)
     then members st instance field ∪ list_to_set pks
     else members st instance field ∖ list_to_set pks)
  ∧ (∀ i f, (i, f) ≠ (instance, field) → members st' i f = members st i f)
  ∧ table st' = table st.
Proof.
  intros [-> | ->]; unfold update_many_to_many_operation.
  - rewrite decide_True by done. rewrite (decide_True (P := ADD = ADD)) by done.
    unfold reraise_prefixed, related_add, mbind', get_store, set_related, emit.
    destruct (add_error st instance field pks); [done|]. simpl.
    intros [= <-]. unfold members. simpl. rewrite lookup_insert_eq.
    split; [done|]. split; [|done]. intros i f Hne.
    by rewrite lookup_insert_ne.
  - rewrite (decide_False (P := REMOVE = ADD)) by done.
    rewrite (decide_False (P := REMOVE = CREATE)) by done.
    rewrite decide_True by done.
    unfold reraise_prefixed, related_remove, mbind', get_store, set_related,
      emit.
    destruct (remove_error st instance field pks); [done|]. simpl.
    intros [= <-]. unfold members. simpl. rewrite lookup_insert_eq.
    split; [done|]. split; [|done]. intros i f Hne.
    by rewrite lookup_insert_ne.
Qed.

Lemma update_many_to_many_ADD_and_REMOVE_witness :
  members (update_many_to_many_operation Post_fields all_valid no_error
             no_error 5 "tags" REMOVE (Pks [3]%Z) some_store).2 5 "tags"
  = (if decide (REMOVE = ADD)
     then members some_store 5 "tags" ∪ list_to_set [3]%Z
     else members some_store 5 "tags" ∖ list_to_set [3]%Z)
  ∧ (∀ i f, (i, f) ≠ (5%Z, "tags") →
       members (update_many_to_many_operation Post_fields all_valid no_error
                  no_error 5 "tags" REMOVE (Pks [3]%Z) some_store).2 i f
       = members some_store i f)
  ∧ table (update_many_to_many_operation Post_fields all_valid no_error
             no_error 5 "tags" REMOVE (Pks [3]%Z) some_store).2
    = table some_store.
Proof.
  apply (update_many_to_many_ADD_and_REMOVE Post_fields all_valid no_error
           no_error 5 "tags" REMOVE [3]%Z some_store).
  - right. reflexivity.
  - vm_compute. reflexivity.
Defined.

(** X17. In [update], when the data store refuses to attach (ADD) or to
    detach (REMOVE) the keys of a many-to-many field, the operation raises
    a validation error whose message is the message of the data store
    behind the prefix that names the field, and writes nothing. *)
Theorem update_many_to_many_refusal_names_the_field
    (get_fields : dict field_obj) (is_valid : string → row → bool)
    (add_error remove_error : store → Z → string → list Z → option string)
    (instance : Z) (field operation msg : string) (pks : list Z)
    (st : store) :
  (operation = ADD ∧ add_error st instance field pks = Some msg)
  ∨ (operation = REMOVE ∧ remove_error st instance field pks = Some msg) →
  update_many_to_many_operation get_fields is_valid add_error remove_error
    instance field operation (Pks pks) st
  = (Raise (ValidationError
              (("Error on " +:+ field +:+ " field: ") +:+ msg)),
     st).
Proof.
  intros [[-> Herr] | [-> Herr]]; unfold update_many_to_many_operation.
  - rewrite decide_True by done.
    unfold reraise_prefixed, related_add, mbind', get_store.
    by rewrite Herr.
  - rewrite (decide_False (P := REMOVE = ADD)) by done.
    rewrite (decide_False (P := REMOVE = CREATE)) by done.
    rewrite decide_True by done.
    unfold reraise_prefixed, related_remove, mbind', get_store.
    by rewrite Herr.
Qed.

Lemma update_many_to_many_refusal_names_the_field_witness :
  update_many_to_many_operation Post_fields all_valid
    (λ _ _ _ _, Some "no such tag") no_error 5 "tags" ADD (Pks [9]%Z)
    some_store
  = (Raise (ValidationError
              (("Error on " +:+ "tags" +:+ " field: ") +:+ "no such tag")),
     some_store).
Proof.
  apply (update_many_to_many_refusal_names_the_field Post_fields all_valid
           (λ _ _ _ _, Some "no such tag") no_error 5 "tags" ADD
           "no such tag" [9]%Z some_store).
  left. split; reflexivity.
Defined.

(** ** Operations of [update] on a has-many relation *)

Lemma is_child_ext (t t' : gmap (string * Z) row) model column owner pk :
  t' !! (model, pk) = t !! (model, pk) →
  is_child t' model column owner pk = is_child t model column owner pk.
Proof. unfold is_child, row, dict in *. intros Heq. by rewrite Heq. Qed.

Lemma delete_children_lookup (model column : string) (owner : Z)
    (pks : list Z) (t : gmap (string * Z) row) (m : string) (z : Z) :
  delete_children model column owner pks t !! (m, z)
  = if bool_decide (m = model ∧ z ∈ pks) && is_child t model column owner z
    then None else t !! (m, z).
Proof.
  revert m z. unfold delete_children.
  induction pks as [|pk pks IH]; simpl; intros m z.
  - rewrite bool_decide_false; [done|]. intros [_ Hin]. inversion Hin.
  - set (t' := foldr _ t pks) in *.
    assert (Hchild : is_child t' model column owner pk
                     = negb (bool_decide (pk ∈ pks))
                       && is_child t model column owner pk).
    { destruct (bool_decide (pk ∈ pks)) eqn:Hin; simpl.
      - unfold is_child at 1. rewrite IH.
        rewrite bool_decide_true by (by apply bool_decide_eq_true in Hin).
        simpl. destruct (is_child t model column owner pk) eqn:Hc; [done|].
        exact Hc.
      - apply is_child_ext. rewrite IH.
        rewrite bool_decide_false; [done|].
        intros [_ Hin']. by apply bool_decide_eq_false in Hin. }
    rewrite Hchild. clear Hchild.
    destruct (decide ((model, pk) = (m, z))) as [[= <- <-]|Hne].
    + rewrite (bool_decide_true (model = model ∧ pk ∈ pk :: pks))
        by (split; [done | apply elem_of_cons; by left]).
      simpl. destruct (bool_decide (pk ∈ pks)) eqn:Hin; simpl.
      * rewrite IH. rewrite bool_decide_true; [done|].
        split; [done|]. by apply bool_decide_eq_true in Hin.
      * destruct (is_child t model column owner pk) eqn:Hc.
        -- by rewrite lookup_delete_eq.
        -- rewrite IH. rewrite Hc. by rewrite andb_false_r.
    + assert (Hsame : bool_decide (m = model ∧ z ∈ pk :: pks)
                      = bool_decide (m = model ∧ z ∈ pks)).
      { apply bool_decide_ext. rewrite elem_of_cons. split; [|tauto].
        intros [-> [->|?]]; [done | tauto]. }
      rewrite Hsame.
      destruct (negb (bool_decide (pk ∈ pks))
                && is_child t model column owner pk).
      * rewrite lookup_delete_ne by done. apply IH.
      * apply IH.
Qed.

(** X18. REMOVE on a has-many field in [update] deletes every row of the
    child model that has one of the given keys and points at the instance.
    A key whose row points at another parent, or that names no row, selects
    nothing: when none of the given keys is a child of the instance, no row
    and no relation changes. *)
Theorem update_has_many_REMOVE_deletes_own_children
    (get_fields : dict field_obj) (Meta_model : model_class)
    (is_valid : string → row → bool)
    (instance : Z) (field foreignkey : string) (pks : list Z)
    (st st' : store) :
  update_many_to_one_operation get_fields Meta_model is_valid instance field
    foreignkey REMOVE (Pks pks) st
  = (Ok tt, st') →
  ∃ f,
    get get_fields field = Some f
    ∧ (∀ pk, pk ∈ pks →
         is_child (table st) (nested_model f) foreignkey instance pk = true →
         table st' !! (nested_model f, pk) = None)
    ∧ ((∀ pk, pk ∈ pks →
          is_child (table st) (nested_model f) foreignkey instance pk = false) →
       table st' = table st ∧ related st' = related st).
Proof.
  unfold update_many_to_one_operation.
  rewrite (decide_False (P := REMOVE = ADD)) by done.
  rewrite (decide_False (P := REMOVE = CREATE)) by done.
  rewrite decide_True by done.
  intros Hrun.
  apply bind_Ok_inv in Hrun as (f & st1 & Hf & Hrun).
  apply bind_Ok_inv in Hrun as (model & st2 & Hmodel & Hrun).
  unfold lift in Hf, Hmodel. injection Hf as Hf <-.
  injection Hmodel as Hmodel <-.
  unfold getitem in Hf. destruct (get get_fields field) as [f'|] eqn:Hget;
    [|done]. injection Hf as ->.
  unfold child_meta_model in Hmodel. destruct (cls f); try done.
  injection Hmodel as <-.
  unfold mbind', get_store, set_table, emit in Hrun.
  simpl in Hrun. injection Hrun as <-. simpl.
  exists f. split; [done|]. split.
  - intros pk Hin Hchild. rewrite delete_children_lookup, Hchild.
    by rewrite bool_decide_true.
  - intros Hnone. split; [|done]. apply map_eq. intros [m z].
    rewrite delete_children_lookup.
    destruct (bool_decide (m = nested_model f ∧ z ∈ pks)) eqn:Hsel; [|done].
    apply bool_decide_eq_true in Hsel as [-> Hin].
    by rewrite (Hnone z Hin).
Qed.

Lemma update_has_many_REMOVE_deletes_own_children_witness :
  let run pks :=
    update_many_to_one_operation Post_fields Post all_valid 5 "comments"
      "post" REMOVE (Pks pks) comment_store in
  (∃ f,
     get Post_fields "comments" = Some f
     ∧ (∀ pk, pk ∈ [21; 22]%Z →
          is_child (table comment_store) (nested_model f) "post" 5 pk = true →
          table (run [21; 22]%Z).2 !! (nested_model f, pk) = None)
     ∧ ((∀ pk, pk ∈ [21; 22]%Z →
           is_child (table comment_store) (nested_model f) "post" 5 pk
           = false) →
        table (run [21; 22]%Z).2 = table comment_store
        ∧ related (run [21; 22]%Z).2 = related comment_store))
  ∧ (table (run [22; 23]%Z).2 = table comment_store
     ∧ related (run [22; 23]%Z).2 = related comment_store).
Proof.
  split.
  - apply (update_has_many_REMOVE_deletes_own_children Post_fields Post
             all_valid 5 "comments" "post" [21; 22]%Z comment_store).
    vm_compute. reflexivity.
  - destruct (update_has_many_REMOVE_deletes_own_children Post_fields Post
                all_valid 5 "comments" "post" [22; 23]%Z comment_store
                (update_many_to_one_operation Post_fields Post all_valid 5
                   "comments" "post" REMOVE (Pks [22; 23]%Z) comment_store).2)
      as (f & Hf & _ & Hnone).
    + vm_compute. reflexivity.
    + injection Hf as <-. apply Hnone. intros pk Hin.
      apply elem_of_cons in Hin as [->|Hin]; [vm_compute; reflexivity|].
      apply list_elem_of_singleton in Hin as ->. vm_compute. reflexivity.
Defined.

Lemma wf_setitem {V} (d : dict V) (k : string) (v : V) :
  wf d → wf (setitem d k v).
Proof.
  unfold wf, keys. induction d as [|[k0 v0] d IH]; simpl; intros Hwf.
  - apply NoDup_singleton.
  - apply NoDup_cons in Hwf as [Hnotin Hwf].
    destruct (decide (k = k0)) as [->|Hne]; simpl.
    + by apply NoDup_cons.
    + apply NoDup_cons. split; [|by apply IH].
      intros Hin. apply (keys_setitem d k v) in Hin as [->|Hin]; done.
Qed.

Lemma get_update {V} (r d : dict V) (k : string) :
  wf d →
  get (PyDict.update r d) k
  = match get d k with Some v => Some v | None => get r k end.
Proof.
  unfold PyDict.update, wf, keys. revert r.
  induction d as [|[k0 v0] d IH]; simpl; intros r Hwf; [done|].
  apply NoDup_cons in Hwf as [Hnotin Hwf]. rewrite IH by done.
  rewrite get_setitem. destruct (decide (k = k0)) as [->|Hne]; [|done].
  apply get_None in Hnotin. unfold keys in *. by rewrite Hnotin.
Qed.

Lemma is_child_after_update (t : gmap (string * Z) row)
    (model foreignkey : string) (instance pk : Z) (values : row) :
  wf values →
  is_child t model foreignkey instance pk = true →
  is_child
    (alter (λ r, PyDict.update r (setitem values foreignkey (SInt instance)))
       (model, pk) t)
    model foreignkey instance pk
  = true.
Proof.
  intros Hwf. unfold is_child, row, dict in *. rewrite lookup_alter_eq.
  destruct (t !! (model, pk)) as [r|]; [|done]. simpl. intros _.
  apply bool_decide_eq_true. rewrite get_update by (by apply wf_setitem).
  by rewrite get_setitem, decide_True.
Qed.

(** The loop of [bulk_update_many_to_one_related] touches no row that does
    not point at the instance, and every row that points at the instance
    still does after it, whether the loop returns or raises. *)
Lemma bulk_update_many_to_one_loop
    (is_valid : string → row → bool) (model foreignkey : string)
    (instance : Z) (data : list (Z * row)) (objs : list Z) (st : store) :
  (∀ pk values, (pk, values) ∈ data → wf values) →
  let st' :=
    (for_fold data objs
       (fun objs '(pk, values) =>
          do st <- get_store;
          if is_child (table st) model foreignkey instance pk then
            let values := setitem values foreignkey (SInt instance) in
            do _ <- serializer_update is_valid ManyToOne model pk values;
            ret (objs ++ [pk])
          else raise (DoesNotExist pk)) st).2 in
  (∀ m z,
     m ≠ model ∨ is_child (table st) model foreignkey instance z = false →
     table st' !! (m, z) = table st !! (m, z))
  ∧ (∀ z, is_child (table st') model foreignkey instance z
          = is_child (table st) model foreignkey instance z)
  ∧ related st' = related st.
Proof.
  match goal with |- context [for_fold _ _ ?b] => set (body := b) end.
  revert objs st. induction data as [|[pk values] data IH]; intros objs st Hwf.
  - done.
  - cbv zeta.
    set (st1 :=
      {| table :=
           alter
             (λ r, PyDict.update r (setitem values foreignkey (SInt instance)))
             (model, pk) (table st);
         related := related st; next_pk := next_pk st;
         log :=
           log st
           ++ [(ManyToOne,
                SerializerUpdate model pk
                  (setitem values foreignkey (SInt instance)))] |}).
    assert (Hstep :
      for_fold ((pk, values) :: data) objs body st
      = if is_child (table st) model foreignkey instance pk then
          if is_valid model (setitem values foreignkey (SInt instance)) then
            for_fold data (objs ++ [pk]) body st1
          else (Raise invalid_data, st)
        else (Raise (DoesNotExist pk), st)).
    { simpl. unfold mbind' at 1. unfold body at 1. unfold mbind' at 1.
      unfold get_store at 1.
      destruct (is_child (table st) model foreignkey instance pk); [|done].
      unfold serializer_update.
      by destruct (is_valid model (setitem values foreignkey (SInt instance))). }
    rewrite Hstep. clear Hstep.
    destruct (is_child (table st) model foreignkey instance pk) eqn:Hchild;
      [|done].
    destruct (is_valid model (setitem values foreignkey (SInt instance)));
      [|done].
    assert (Hrows : ∀ m z, (m, z) ≠ (model, pk) →
                           table st1 !! (m, z) = table st !! (m, z)).
    { intros m z Hne. simpl. by rewrite lookup_alter_ne. }
    assert (Hsame : ∀ z, is_child (table st1) model foreignkey instance z
                         = is_child (table st) model foreignkey instance z).
    { intros z. destruct (decide (z = pk)) as [->|Hne].
      - rewrite Hchild. apply is_child_after_update; [|done].
        apply (Hwf pk). apply list_elem_of_here.
      - apply is_child_ext, Hrows. intros [= ?]. done. }
    destruct (IH (objs ++ [pk]) st1) as (Huntouched & Hchildren & Hrelated).
    { intros pk' values' Hin. apply (Hwf pk'), list_elem_of_further, Hin. }
    cbv zeta in Huntouched, Hchildren, Hrelated.
    split; [|split].
    + intros m z Hnot. rewrite Huntouched.
      * apply Hrows. intros [= -> ->]. destruct Hnot as [?|Hnot]; [done|].
        by rewrite Hchild in Hnot.
      * destruct Hnot as [?|Hnot]; [by left|]. right. by rewrite Hsame.
    + intros z. by rewrite Hchildren, Hsame.
    + by rewrite Hrelated.
Qed.

(** X19. UPDATE on a has-many field changes no row but rows that point at
    the instance, and every row that points at the instance still does
    afterwards, whatever foreign key the data for it carries; this holds
    also when the update stops at a key that names no such row. *)
Theorem bulk_update_many_to_one_keeps_children
    (get_fields : dict field_obj) (Meta_model : model_class)
    (is_valid : string → row → bool)
    (field : string) (instance : Z) (data : list (Z * row)) (st : store)
    (f : field_obj) (d : descriptor) :
  get get_fields field = Some f →
  get (descriptors Meta_model) field = Some d →
  (∀ pk values, (pk, values) ∈ data → wf values) →
  let st' :=
    (bulk_update_many_to_one_related get_fields Meta_model is_valid field
       instance data st).2 in
  (∀ m z,
     m ≠ nested_model f
     ∨ is_child (table st) (nested_model f) (descr_field_name d) instance z
       = false →
     table st' !! (m, z) = table st !! (m, z))
  ∧ (∀ z, is_child (table st') (nested_model f) (descr_field_name d) instance z
          = is_child (table st) (nested_model f) (descr_field_name d) instance z)
  ∧ related st' = related st.
Proof.
  intros Hf Hd Hwf. cbv zeta.
  pose proof (bulk_update_many_to_one_loop is_valid (nested_model f)
                (descr_field_name d) instance data [] st Hwf) as Hloop.
  cbv zeta in Hloop.
  assert (Hrun :
    bulk_update_many_to_one_related get_fields Meta_model is_valid field
      instance data st
    = match cls f with
      | ListSerializer =>
          for_fold data []
            (fun objs '(pk, values) =>
               do st <- get_store;
               if is_child (table st) (nested_model f) (descr_field_name d)
                    instance pk then
                 let values :=
                   setitem values (descr_field_name d) (SInt instance) in
                 do _ <- serializer_update is_valid ManyToOne
                           (nested_model f) pk values;
                 ret (objs ++ [pk])
               else raise (DoesNotExist pk)) st
      | _ => (Raise AttributeError, st)
      end).
  { unfold bulk_update_many_to_one_related, mbind' at 1 2 3, lift, getitem,
      child_meta_model, getattr_model.
    rewrite Hf, Hd. by destruct (cls f). }
  rewrite Hrun. by destruct (cls f).
Qed.

Lemma bulk_update_many_to_one_keeps_children_witness :
  let st' :=
    (bulk_update_many_to_one_related Post_fields Post all_valid "comments" 5
       [(21%Z, [("text", SStr "new"); ("post", SInt 6)]);
        (22%Z, [("text", SStr "mine now")])] comment_store).2 in
  (∀ m z,
     m ≠ "Comment" ∨ is_child (table comment_store) "Comment" "post" 5 z = false →
     table st' !! (m, z) = table comment_store !! (m, z))
  ∧ (∀ z, is_child (table st') "Comment" "post" 5 z
          = is_child (table comment_store) "Comment" "post" 5 z)
  ∧ related st' = related comment_store.
Proof.
  apply (bulk_update_many_to_one_keeps_children Post_fields Post all_valid
           "comments" 5
           [(21%Z, [("text", SStr "new"); ("post", SInt 6)]);
            (22%Z, [("text", SStr "mine now")])] comment_store
           {| cls := ListSerializer; is_replaceable := false;
              is_writable := true; nested_model := "Comment" |}
           {| rel := ManyToOneRel; descr_field_name := "post" |}).
  - reflexivity.
  - reflexivity.
  - intros pk values Hin. apply (bool_decide_unpack _).
    apply elem_of_cons in Hin as [[= -> ->]|Hin]; [vm_compute; reflexivity|].
    apply list_elem_of_singleton in Hin as [= -> ->]. vm_compute. reflexivity.
Defined.

(** ** RestQLViewMixin: mapped values and the queryset *)

Section ViewFacts.
Import RestQLViewMixin RestQLView.

Lemma select_related_loop_calls (queryset : QuerySet) (values : list mvalue) :
  select_related_loop queryset values = queryset ++ select_calls values.
Proof.
  revert queryset. induction values as [|value values IH]; simpl;
    intros queryset; [by rewrite app_nil_r|].
  rewrite IH. unfold select_calls at 2. simpl. fold (select_calls values).
  rewrite app_assoc. f_equal.
  destruct value as [|s|l|p|d]; simpl; try done; try (by rewrite app_nil_r).
  revert queryset. induction l as [|x l IHl]; simpl; intros queryset;
    [by rewrite app_nil_r|].
  by rewrite IHl, <- app_assoc.
Qed.

Lemma prefetch_related_loop_calls (queryset : QuerySet)
    (values : list mvalue) :
  prefetch_related_loop queryset values = queryset ++ prefetch_calls values.
Proof.
  revert queryset. induction values as [|value values IH]; simpl;
    intros queryset; [by rewrite app_nil_r|].
  rewrite IH. unfold prefetch_calls at 2. simpl. fold (prefetch_calls values).
  rewrite app_assoc. f_equal.
  destruct value as [|s|l|p|d]; simpl; try done; try (by rewrite app_nil_r).
  revert queryset. induction l as [|x l IHl]; simpl; intros queryset;
    [by rewrite app_nil_r|].
  by rewrite IHl, <- app_assoc.
Qed.

Lemma select_calls_are_selects (values : list mvalue) :
  Forall (λ c, ∃ v, c = SelectRelated v) (select_calls values).
Proof.
  unfold select_calls. induction values as [|value values IH]; simpl;
    [done|].
  apply Forall_app. split; [|done].
  destruct value as [|s|l|p|d]; simpl; try done.
  - repeat constructor. eauto.
  - induction l as [|x l IHl]; simpl; constructor; eauto.
Qed.

Lemma prefetch_calls_are_prefetches (values : list mvalue) :
  Forall (λ c, ∃ v, c = PrefetchRelated v) (prefetch_calls values).
Proof.
  unfold prefetch_calls. induction values as [|value values IH]; simpl;
    [done|].
  apply Forall_app. split; [|done].
  destruct value as [|s|l|p|d]; simpl; try done.
  - repeat constructor. eauto.
  - induction l as [|x l IHl]; simpl; constructor; eauto.
  - repeat constructor. eauto.
Qed.

Lemma mapping_values_loop_plain (mapping : dict mvalue)
    (items : list (string * pvalue)) (values : list mvalue) :
  (∀ k v, get mapping k = Some v → plain_directive v) →
  mapping_values_loop (MDict mapping) items values
  = Ok (values ++ omap (λ kv, get mapping kv.1) items).
Proof.
  intros Hplain. revert values.
  induction items as [|[k pv] items IH]; simpl; intros values.
  - by rewrite app_nil_r.
  - destruct (get mapping k) as [v|] eqn:Hget.
    + assert (Hmem : mem k (keys mapping) = true).
      { apply mem_true, get_is_Some. eauto. }
      rewrite Hmem. unfold getitem. rewrite Hget. simpl.
      destruct (Hplain k v Hget) as [Htruthy Hnodict].
      assert (Hbase : base_and_nested v = (v, MNone)).
      { destruct v; try done. by destruct (Hnodict d). }
      rewrite Hbase, Htruthy. simpl. rewrite IH. by rewrite <- app_assoc.
    + assert (Hmem : mem k (keys mapping) = false).
      { apply mem_false, get_None. done. }
      rewrite Hmem. apply IH.
Qed.
End ViewFacts.

(** X20. Against a mapping all of whose values stand for themselves (true
    values that are no dict: strings, lists, [Prefetch] objects),
    [get_mapping_values] gives the values mapped to the selected keys, in
    the order of the selection; selected keys the mapping does not have give
    nothing, whether they are flat or nested in the selection. *)
Theorem get_mapping_values_of_plain_mapping
    (items : list (string * pvalue)) (mapping : dict mvalue) :
  (∀ k v, get mapping k = Some v → plain_directive v) →
  RestQLViewMixin.get_mapping_values (PDict items) (MDict mapping)
  = Ok (omap (λ kv, get mapping kv.1) items).
Proof.
  intros Hplain.
  change (mapping_values_loop (MDict mapping) items []
          = Ok (omap (λ kv, get mapping kv.1) items)).
  by rewrite mapping_values_loop_plain.
Qed.

Lemma get_mapping_values_of_plain_mapping_witness :
  RestQLViewMixin.get_mapping_values
    (PDict [("tags", PNone); ("title", PNone);
            ("author", PDict [("name", PNone)])])
    (MDict [("author", MStr "author"); ("tags", MPrefetch "tags")])
  = Ok (omap (λ kv, get [("author", MStr "author"); ("tags", MPrefetch "tags")]
                      kv.1)
          [("tags", PNone); ("title", PNone);
           ("author", PDict [("name", PNone)])]).
Proof.
  apply (get_mapping_values_of_plain_mapping
           [("tags", PNone); ("title", PNone);
            ("author", PDict [("name", PNone)])]
           [("author", MStr "author"); ("tags", MPrefetch "tags")]).
  intros k v. simpl.
  destruct (decide (k = "author")); [intros [= <-]; by split|].
  destruct (decide (k = "tags")); [intros [= <-]; by split|]. done.
Defined.

Lemma all_values_leaf_of (value v : mvalue) :
  v ∈ RestQLViewMixin.all_values value ↔ leaf_of value v.
Proof.
  split.
  - revert value. fix IH 1. intros [|s|l|p|d]; simpl;
      try (clear IH; intros Hin; apply list_elem_of_singleton in Hin;
           rewrite Hin; by apply leaf_here).
    assert (Hd : ∀ d' : list (string * mvalue),
               v ∈ flat_map (λ kv, RestQLViewMixin.all_values kv.2) d' →
               ∃ key inner, (key, inner) ∈ d' ∧ leaf_of inner v).
    { induction d' as [|[k0 v0] d' IHd]; simpl; [by intros ?%elem_of_nil|].
      intros [Hin|Hin]%elem_of_app.
      - exists k0, v0. split; [by left | by apply IH].
      - destruct (IHd Hin) as (key & inner & Hel & Hleaf).
        exists key, inner. split; [by right | done]. }
    intros Hin. destruct (Hd d Hin) as (key & inner & Hel & Hleaf).
    by apply (leaf_under d key inner).
  - induction 1 as [v Hnodict | d key inner v Hel _ IH].
    + destruct v; simpl; try (by apply list_elem_of_singleton).
      by destruct (Hnodict d).
    + simpl. apply list_elem_of_In, in_flat_map. exists (key, inner).
      split; by apply list_elem_of_In.
Qed.

(** X21. [get_all_dict_values] takes the values out of the dict and of its
    nested dicts, at any depth. What it returns holds no dict; it holds
    exactly what is found in the value of some entry, at any depth; and it
    is made entry by entry, in order: a value that is no dict comes
    itself, and in the place of a value that is a dict comes what
    [get_all_dict_values] returns for that dict. *)
Theorem get_all_dict_values_flattens (dict_to_parse : dict mvalue) :
  ∃ values,
    RestQLViewMixin.get_all_dict_values (MDict dict_to_parse) = Ok values
    ∧ Forall (λ v, ∀ d, v ≠ MDict d) values
    ∧ (∀ v, v ∈ values
            ↔ ∃ key inner, (key, inner) ∈ dict_to_parse ∧ leaf_of inner v)
    ∧ (∀ before key value after,
         dict_to_parse = before ++ (key, value) :: after →
         ∃ values_before values_of values_after,
           values = values_before ++ values_of ++ values_after
           ∧ RestQLViewMixin.get_all_dict_values (MDict before)
             = Ok values_before
           ∧ RestQLViewMixin.get_all_dict_values (MDict after)
             = Ok values_after
           ∧ match value with
             | MDict _ =>
                 RestQLViewMixin.get_all_dict_values value = Ok values_of
             | _ => values_of = [value]
             end).
Proof.
  eexists. split; [reflexivity|].
  assert (Hleaf : ∀ v,
            v ∈ flat_map (λ kv, RestQLViewMixin.all_values kv.2) dict_to_parse
            ↔ ∃ key inner, (key, inner) ∈ dict_to_parse ∧ leaf_of inner v).
  { intros v. split.
    - intros ([key inner] & Hel & Hin)%list_elem_of_In%in_flat_map.
      exists key, inner. split; [by apply list_elem_of_In|].
      by apply all_values_leaf_of, list_elem_of_In.
    - intros (key & inner & Hel & Hin).
      apply list_elem_of_In, in_flat_map. exists (key, inner).
      split; [by apply list_elem_of_In|].
      by apply list_elem_of_In, all_values_leaf_of. }
  split; [|split; [exact Hleaf|]].
  - apply Forall_forall. intros v Hin d ->.
    apply Hleaf in Hin as (key & inner & _ & Hin).
    remember (MDict d) as v eqn:Hv.
    induction Hin as [v Hnodict|]; [by destruct (Hnodict d) | auto].
  - intros before key value after ->.
    exists (flat_map (λ kv, RestQLViewMixin.all_values kv.2) before),
           (RestQLViewMixin.all_values value),
           (flat_map (λ kv, RestQLViewMixin.all_values kv.2) after).
    split; [by rewrite flat_map_app|]. split; [done|]. split; [done|].
    by destruct value.
Qed.

(** ** RestQLViewMixin: the queryset *)

(** X22. When [apply_restql_orm_mapping] returns a queryset, it is the
    queryset it was given with calls made on it: first calls of
    [select_related] only, then calls of [prefetch_related] only. The
    values are those [get_mapping_values] gives for the select mapping and
    for the prefetch mapping against the dict that [get_restql_query_dict]
    makes of the parsed query of the request, where a list stands for one
    call for each of its elements. *)
Theorem apply_restql_orm_mapping_calls
    (get_parsed : string → (string * string) + query_t)
    (fuel : nat) (self : view) (queryset queryset' : QuerySet) :
  RestQLView.apply_restql_orm_mapping get_parsed fuel self queryset
  = Some (Ok queryset') →
  ∃ restql_query parsed_keys select_mapped prefetch_mapped,
    DynamicFieldsMixin.get_parsed_query_from_req get_parsed (view_request self)
    = Ok restql_query
    ∧ RestQLViewMixin.get_restql_query_dict fuel restql_query None
      = Some parsed_keys
    ∧ RestQLViewMixin.get_mapping_values (PDict parsed_keys)
        (RestQLView.get_select_related_mapping self)
      = Ok select_mapped
    ∧ RestQLViewMixin.get_mapping_values (PDict parsed_keys)
        (RestQLView.get_prefetch_related_mapping self)
      = Ok prefetch_mapped
    ∧ queryset'
      = queryset ++ select_calls select_mapped ++ prefetch_calls prefetch_mapped
    ∧ Forall (λ c, ∃ v, c = SelectRelated v) (select_calls select_mapped)
    ∧ Forall (λ c, ∃ v, c = PrefetchRelated v)
        (prefetch_calls prefetch_mapped).
Proof.
  unfold RestQLView.apply_restql_orm_mapping, RestQLView.restql_query.
  intros Hrun.
  destruct (get_serializer_class self) as [serializer_class|];
    [|simpl in Hrun; discriminate Hrun].
  destruct (has_query_param_name serializer_class);
    [|simpl in Hrun; discriminate Hrun].
  destruct (DynamicFieldsMixin.get_parsed_query_from_req get_parsed
              (view_request self)) as [q|];
    [|simpl in Hrun; discriminate Hrun].
  cbn [bind] in Hrun.
  destruct (RestQLViewMixin.get_restql_query_dict fuel q None)
    as [parsed_keys|] eqn:Hkeys; [|discriminate Hrun].
  cbn [mbind option_bind] in Hrun.
  destruct (RestQLViewMixin.get_mapping_values (PDict parsed_keys)
              (RestQLView.get_select_related_mapping self))
    as [select_mapped|] eqn:Hselect; [|discriminate Hrun].
  destruct (RestQLViewMixin.get_mapping_values (PDict parsed_keys)
              (RestQLView.get_prefetch_related_mapping self))
    as [prefetch_mapped|] eqn:Hprefetch; [|discriminate Hrun].
  cbn [bind] in Hrun. revert Hrun.
  intros [= <-]. exists q, parsed_keys, select_mapped, prefetch_mapped.
  split; [done|]. split; [done|]. split; [done|]. split; [done|]. split.
  - by rewrite prefetch_related_loop_calls, select_related_loop_calls,
      app_assoc.
  - split; [apply select_calls_are_selects|apply prefetch_calls_are_prefetches].
Qed.

Lemma apply_restql_orm_mapping_calls_witness :
  let self :=
    Post_view (Some (MDict [("author", MStr "author")]))
      (Some (MDict [("tags", MList [MStr "tags"; MStr "tags__posts"])]))
      "{tags, author}" in
  let get_parsed := constant_parser [QFlat "tags"; QFlat "author"] in
  ∃ restql_query parsed_keys select_mapped prefetch_mapped,
    DynamicFieldsMixin.get_parsed_query_from_req get_parsed (view_request self)
    = Ok restql_query
    ∧ RestQLViewMixin.get_restql_query_dict 1 restql_query None
      = Some parsed_keys
    ∧ RestQLViewMixin.get_mapping_values (PDict parsed_keys)
        (RestQLView.get_select_related_mapping self)
      = Ok select_mapped
    ∧ RestQLViewMixin.get_mapping_values (PDict parsed_keys)
        (RestQLView.get_prefetch_related_mapping self)
      = Ok prefetch_mapped
    ∧ [SelectRelated (MStr "author"); PrefetchRelated (MStr "tags");
       PrefetchRelated (MStr "tags__posts")]
      = [] ++ select_calls select_mapped ++ prefetch_calls prefetch_mapped
    ∧ Forall (λ c, ∃ v, c = SelectRelated v) (select_calls select_mapped)
    ∧ Forall (λ c, ∃ v, c = PrefetchRelated v)
        (prefetch_calls prefetch_mapped).
Proof.
  apply (apply_restql_orm_mapping_calls
           (constant_parser [QFlat "tags"; QFlat "author"]) 1
           (Post_view (Some (MDict [("author", MStr "author")]))
              (Some (MDict [("tags", MList [MStr "tags"; MStr "tags__posts"])]))
              "{tags, author}") []).
  reflexivity.
Defined.

(** X23. A view that declares no mapping, neither on itself nor on the
    [Meta] of its serializer class, never changes its queryset: whenever
    [get_queryset] returns a queryset, it is the one of
    [super().get_queryset()]. *)
Theorem get_queryset_without_mappings
    (get_parsed : string → (string * string) + query_t)
    (fuel : nat) (self : view) (queryset : QuerySet) :
  view_select_related self = None →
  view_prefetch_related self = None →
  (get_serializer_class self ≫= Meta) ≫= meta_select_related = None →
  (get_serializer_class self ≫= Meta) ≫= meta_prefetch_related = None →
  RestQLView.get_queryset get_parsed fuel self = Some (Ok queryset) →
  queryset = super_get_queryset self.
Proof.
  intros Hvs Hvp Hms Hmp.
  unfold RestQLView.get_queryset, RestQLView.get_restql_queryset,
    RestQLView.apply_restql_orm_mapping, RestQLView.get_select_related_mapping,
    RestQLView.get_prefetch_related_mapping.
  rewrite Hvs, Hvp, Hms, Hmp.
  destruct (RestQLView.restql_query get_parsed self) as [[q|]|];
    [|by intros [= <-]|done].
  destruct (RestQLViewMixin.get_restql_query_dict fuel q None)
    as [parsed_keys|]; [|done].
  cbn [mbind option_bind].
  rewrite (get_mapping_values_of_plain_mapping parsed_keys []) by done.
  assert (Hnone : omap (λ kv : string * pvalue, get (@nil (string * mvalue)) kv.1)
                    parsed_keys = []).
  { induction parsed_keys as [|kv l IH]; [done|]. simpl. apply IH. }
  rewrite Hnone. simpl. by intros [= <-].
Qed.

Lemma get_queryset_without_mappings_witness :
  [] = super_get_queryset (Post_view None None "{title}").
Proof.
  apply (get_queryset_without_mappings
           (constant_parser [QFlat "title"]) 1
           (Post_view None None "{title}") []); reflexivity.
Defined.

(** X24. [get_queryset] asks for the query text of the request whenever the
    serializer class has a [query_param_name], without asking whether the
    request carries the parameter (or is a GET): on a request without it,
    [get_queryset] raises the [KeyError] of the missing parameter. *)
Theorem get_queryset_without_query_parameter
    (get_parsed : string → (string * string) + query_t)
    (fuel : nat) (self : view) (c : serializer_class) :
  get_serializer_class self = Some c →
  has_query_param_name c = true →
  get (query_params (view_request self)) "query" = None →
  RestQLView.get_queryset get_parsed fuel self
  = Some (Raise (KeyError "query")).
Proof.
  intros Hc Hname Hparam.
  unfold RestQLView.get_queryset, RestQLView.restql_query.
  rewrite Hc, Hname.
  unfold DynamicFieldsMixin.get_parsed_query_from_req,
    DynamicFieldsMixin.get_raw_query, DynamicFieldsMixin.query_param_name,
    getitem.
  by rewrite Hparam.
Qed.

Lemma get_queryset_without_query_parameter_witness :
  RestQLView.get_queryset (constant_parser [QFlat "title"]) 1
    {| super_get_queryset := [];
       view_select_related := None;
       view_prefetch_related := None;
       get_serializer_class :=
         Some {| has_query_param_name := true; Meta := None |};
       view_request := {| method := "POST"; query_params := [] |} |}
  = Some (Raise (KeyError "query")).
Proof.
  apply (get_queryset_without_query_parameter
           (constant_parser [QFlat "title"]) 1
           {| super_get_queryset := [];
              view_select_related := None;
              view_prefetch_related := None;
              get_serializer_class :=
                Some {| has_query_param_name := true; Meta := None |};
              view_request := {| method := "POST"; query_params := [] |} |}
           {| has_query_param_name := true; Meta := None |}); reflexivity.
Defined.

(** ** [get_restql_query_dict] *)

Lemma get_restql_query_dict_S (fuel : nat) (restql_query : query_t)
    (data : option query_t) :
  RestQLViewMixin.get_restql_query_dict (S fuel) restql_query data
  = query_dict_loop fuel restql_query []
      match data with
      | None | Some [] => restql_query
      | Some data => data
      end.
Proof. reflexivity. Qed.

Lemma node_depth_le (n : qnode) (q : query_t) :
  n ∈ q → (node_depth n ≤ query_depth q)%nat.
Proof.
  unfold query_depth. induction q as [|m q IH]; intros Hin; [inversion Hin|].
  simpl. apply elem_of_cons in Hin as [->|Hin]; [lia|].
  specialize (IH Hin). lia.
Qed.

Lemma query_dict_nested_returns (fuel : nat) (restql_query : query_t)
    (items : list (string * query_t)) (keys : dict pvalue) :
  (∀ kv, kv ∈ items →
         RestQLViewMixin.get_restql_query_dict fuel restql_query (Some kv.2)
         = Some (query_dict kv.2)) →
  query_dict_nested fuel restql_query keys items
  = Some (fold_left
            (fun keys kv => setitem keys kv.1 (PDict (query_dict kv.2)))
            items keys).
Proof.
  revert keys. induction items as [|[key nested_items] items IH]; simpl;
    intros keys Hitems; [done|].
  pose proof (Hitems (key, nested_items) (list_elem_of_here _ _)) as Hhead.
  simpl in Hhead. rewrite Hhead. simpl.
  apply IH. intros kv Hkv. apply Hitems, list_elem_of_further, Hkv.
Qed.

(** X25. On a parsed query that has an element, and whose nested queries
    all have one, [get_restql_query_dict] returns as soon as its [fuel] is
    above the depth of nesting, and what it returns is the dict that has
    [None] under every flat name and the dict of the nested query under
    every nested key. *)
Theorem get_restql_query_dict_returns
    (fuel : nat) (restql_query q : query_t) :
  query_selects q = true →
  (query_depth q < fuel)%nat →
  RestQLViewMixin.get_restql_query_dict fuel restql_query (Some q)
  = Some (query_dict q)
  ∧ RestQLViewMixin.get_restql_query_dict fuel q None = Some (query_dict q).
Proof.
  assert (Hloop : ∀ fuel rq,
    (∀ q, query_selects q = true → (query_depth q < fuel)%nat →
          RestQLViewMixin.get_restql_query_dict fuel rq (Some q)
          = Some (query_dict q)) →
    ∀ data keys,
      forallb node_selects data = true → (query_depth data ≤ fuel)%nat →
      query_dict_loop fuel rq keys data = Some (fold_left node_keys data keys)).
  { intros f rq IHf data. induction data as [|[item|d] data IH]; simpl;
      intros keys Hsel Hdepth; [done|..].
    - apply IH; [done|]. unfold query_depth in *. simpl in Hdepth. lia.
    - apply andb_prop in Hsel as [Hd Hsel].
      rewrite query_dict_nested_returns.
      + simpl. apply IH; [done|]. unfold query_depth in *. simpl in Hdepth.
        lia.
      + intros [key sub] Hkv. simpl. apply IHf.
        * rewrite forallb_forall in Hd.
          specialize (Hd (key, sub) (proj1 (list_elem_of_In _ _) Hkv)).
          simpl in Hd. unfold query_selects. by destruct sub.
        * assert (Hle : (S (query_depth sub) ≤ node_depth (QNested d))%nat).
          { simpl. apply le_n_S. clear -Hkv.
            induction d as [|kv' d IHd]; [inversion Hkv|]. simpl.
            apply elem_of_cons in Hkv as [<-|Hkv].
            - unfold query_depth. simpl. lia.
            - specialize (IHd Hkv). lia. }
          unfold query_depth in Hdepth. simpl in Hdepth.
          simpl in Hle. unfold query_depth in *. lia. }
  assert (Hsome : ∀ fuel rq q,
    query_selects q = true → (query_depth q < fuel)%nat →
    RestQLViewMixin.get_restql_query_dict fuel rq (Some q)
    = Some (query_dict q)).
  { clear fuel restql_query q. intros fuel rq.
    induction fuel as [|fuel IHfuel]; intros q Hsel Hdepth; [lia|].
    rewrite get_restql_query_dict_S.
    destruct q as [|n q]; [done|].
    apply Hloop; [| |lia].
    - intros q' Hsel' Hdepth'. by apply IHfuel.
    - done. }
  intros Hsel Hdepth. split; [by apply Hsome|].
  destruct fuel as [|fuel]; [lia|]. destruct q as [|n q]; [done|].
  change (RestQLViewMixin.get_restql_query_dict (S fuel) (n :: q)
            (Some (n :: q))
          = Some (query_dict (n :: q))).
  by apply Hsome.
Qed.

Lemma get_restql_query_dict_returns_witness :
  RestQLViewMixin.get_restql_query_dict 2 [QFlat "title"]
    (Some author_and_comment_text)
  = Some (query_dict author_and_comment_text)
  ∧ RestQLViewMixin.get_restql_query_dict 2 author_and_comment_text None
    = Some (query_dict author_and_comment_text).
Proof.
  apply (get_restql_query_dict_returns 2 [QFlat "title"]
           author_and_comment_text).
  - reflexivity.
  - vm_compute. lia.
Defined.

(** X26. When the query of the request has, after flat names only, a
    nested element whose first key selects nothing (its nested query is
    empty), [get_restql_query_dict] does not return: for the empty nested
    query it starts again from the query of the request and so comes back
    to the same call without end. No [fuel] is enough. *)
Theorem get_restql_query_dict_empty_nested_query
    (fuel : nat) (names : list string) (key : string)
    (items : list (string * query_t)) (rest : query_t) :
  let restql_query :=
    map QFlat names ++ QNested ((key, []) :: items) :: rest in
  RestQLViewMixin.get_restql_query_dict fuel restql_query None = None
  ∧ RestQLViewMixin.get_restql_query_dict fuel restql_query (Some []) = None.
Proof.
  cbv zeta. set (rq := map QFlat names ++ QNested ((key, []) :: items) :: rest).
  assert (Hsame : ∀ fuel,
    RestQLViewMixin.get_restql_query_dict fuel rq (Some [])
    = RestQLViewMixin.get_restql_query_dict fuel rq None).
  { by intros [|f]. }
  assert (Hnone : ∀ fuel,
    RestQLViewMixin.get_restql_query_dict fuel rq None = None).
  { clear fuel. intros fuel. induction fuel as [|fuel IH]; [done|].
    rewrite get_restql_query_dict_S.
    assert (Hloop : ∀ ns keys,
      query_dict_loop fuel rq keys
        (map QFlat ns ++ QNested ((key, []) :: items) :: rest)
      = None).
    { intros ns. induction ns as [|name ns IHn]; simpl; intros keys.
      - by rewrite Hsame, IH.
      - apply IHn. }
    apply Hloop. }
  split; [apply Hnone | by rewrite Hsame].
Qed.

(** ** CREATE on a many-to-many relation in [update] *)

Lemma serializer_create_related (is_valid : string → row → bool)
    (o : origin) (model : string) (data : row) (st : store) :
  related (serializer_create is_valid o model data st).2 = related st.
Proof. unfold serializer_create. by destruct (is_valid model data). Qed.

Lemma bulk_create_loop_related
    (is_valid : string → row → bool) (o : origin) (model : string)
    (data : list row) (acc : list Z) (st : store) :
  related
    (for_fold data acc
       (fun pks values =>
          do obj <- serializer_create is_valid o model values;
          ret (pks ++ [obj])) st).2
  = related st.
Proof.
  revert acc st. induction data as [|values data IH]; simpl; intros acc st;
    [done|].
  unfold mbind' at 1. unfold mbind' at 1.
  pose proof (serializer_create_related is_valid o model values st) as Hrel.
  destruct (serializer_create is_valid o model values st) as [[obj|e] st1];
    simpl in *; [|done].
  by rewrite IH.
Qed.

(** X27. CREATE on a many-to-many field in [update] creates one object per
    sub-payload, in order, and then attaches the created objects to what the
    relation holds: what was attached before stays attached. *)
Theorem update_many_to_many_CREATE_attaches
    (get_fields : dict field_obj) (is_valid : string → row → bool)
    (add_error remove_error : store → Z → string → list Z → option string)
    (instance : Z) (field : string) (rows : list row) (st st' : store) :
  update_many_to_many_operation get_fields is_valid add_error remove_error
    instance field CREATE (Rows rows) st
  = (Ok tt, st') →
  ∃ model pks,
    length pks = length rows
    ∧ members st' instance field
      = members st instance field ∪ list_to_set pks
    ∧ new_writes st st'
      = zip_with (λ pk values, (ManyToMany, SerializerCreate model pk values))
          pks rows
        ++ [(ManyToMany, RelatedAdd instance field pks)].
Proof.
  unfold update_many_to_many_operation.
  rewrite (decide_False (P := CREATE = ADD)) by done.
  rewrite decide_True by done.
  intros Hrun.
  apply bind_Ok_inv in Hrun as (pks & st1 & Hbulk & Hret).
  injection Hret as <-. unfold bulk_create_many_to_many_related in Hbulk.
  apply bind_Ok_inv in Hbulk as (f & st2 & Hf & Hbulk).
  apply bind_Ok_inv in Hbulk as (model & st3 & Hmodel & Hbulk).
  unfold lift in Hf, Hmodel. injection Hf as _ <-. injection Hmodel as _ <-.
  apply bind_Ok_inv in Hbulk as (pks' & st4 & Hloop & Hadd).
  apply bind_Ok_inv in Hadd as ([] & st5 & Hadd & Hret).
  injection Hret as -> ->.
  pose proof (bulk_create_loop_related is_valid ManyToMany model rows [] st)
    as Hrel.
  rewrite Hloop in Hrel. simpl in Hrel.
  apply bulk_create_loop_writes in Hloop as (new & -> & Hlen & Hlog).
  simpl in *. exists model, new. split; [done|].
  unfold related_add, mbind', get_store in Hadd.
  destruct (add_error st4 instance field new); [done|]. simpl in Hadd.
  injection Hadd as <-. unfold members, new_writes. simpl.
  rewrite lookup_insert_eq, Hrel, Hlog, <- app_assoc, drop_app_length.
  done.
Qed.

Lemma update_many_to_many_CREATE_attaches_witness :
  ∃ model pks,
    length pks = length [[("name", SStr "c")]]
    ∧ members (update_many_to_many_operation Post_fields all_valid no_error
                 no_error 5 "tags" CREATE (Rows [[("name", SStr "c")]])
                 some_store).2 5 "tags"
      = members some_store 5 "tags" ∪ list_to_set pks
    ∧ new_writes some_store
        (update_many_to_many_operation Post_fields all_valid no_error
           no_error 5 "tags" CREATE (Rows [[("name", SStr "c")]])
           some_store).2
      = zip_with (λ pk values, (ManyToMany, SerializerCreate model pk values))
          pks [[("name", SStr "c")]]
        ++ [(ManyToMany, RelatedAdd 5 "tags" pks)].
Proof.
  apply (update_many_to_many_CREATE_attaches Post_fields all_valid no_error
           no_error 5 "tags" [[("name", SStr "c")]] some_store).
  vm_compute. reflexivity.
Defined.

(** ** Single nested objects in [update] *)

(** X28. When the instance has no object under a writable single nested
    field, [update] with data for that field creates an object of the
    nested model from the data and leaves the field of the instance empty:
    the created object is not assigned to the instance. *)
Theorem update_writable_without_object_creates_unattached
    (get_fields : dict field_obj) (Meta_model : model_class)
    (is_valid : string → row → bool)
    (instance : Z) (field : string) (f : field_obj) (r : row) (st : store) :
  get get_fields field = Some f →
  getattr_instance Meta_model st instance field = None →
  is_valid (nested_model f) r = true →
  (instance < next_pk st)%Z →
  ∃ st',
    update_writable_foreignkey_related get_fields Meta_model is_valid instance
      [(field, Data r)] st
    = (Ok tt, st')
    ∧ table st' = <[(nested_model f, next_pk st) := r]> (table st)
    ∧ new_writes st st'
      = [(WritableFK, SerializerCreate (nested_model f) (next_pk st) r)]
    ∧ getattr_instance Meta_model st' instance field = None.
Proof.
  intros Hf Hnone Hvalid Hfresh.
  unfold update_writable_foreignkey_related. simpl.
  unfold mbind' at 1. unfold mbind' at 1. unfold lift at 1, getitem.
  rewrite Hf. unfold mbind' at 1, get_store at 1. rewrite Hnone.
  unfold serializer_create. rewrite Hvalid. simpl. eexists.
  split; [reflexivity|]. split; [done|]. split.
  - unfold new_writes. simpl. by rewrite drop_app_length.
  - unfold getattr_instance in *. simpl.
    rewrite lookup_insert_ne; [done|]. intros [= _ ?]. lia.
Qed.

Lemma update_writable_without_object_creates_unattached_witness :
  ∃ st',
    update_writable_foreignkey_related
      [("author", {| cls := Serializer; is_replaceable := false;
                     is_writable := true; nested_model := "User" |})]
      Post all_valid 5 [("author", Data [("name", SStr "n")])] some_store
    = (Ok tt, st')
    ∧ table st'
      = <[("User", next_pk some_store) := [("name", SStr "n")]]>
          (table some_store)
    ∧ new_writes some_store st'
      = [(WritableFK,
          SerializerCreate "User" (next_pk some_store) [("name", SStr "n")])]
    ∧ getattr_instance Post st' 5 "author" = None.
Proof.
  apply (update_writable_without_object_creates_unattached
           [("author", {| cls := Serializer; is_replaceable := false;
                          is_writable := true; nested_model := "User" |})]
           Post all_valid 5 "author"
           {| cls := Serializer; is_replaceable := false;
              is_writable := true; nested_model := "User" |}
           [("name", SStr "n")] some_store).
  - reflexivity.
  - vm_compute. reflexivity.
  - reflexivity.
  - vm_compute. reflexivity.
Defined.

(** ** Replaceable single nested objects in [update] *)

Lemma getattr_instance_get (Meta_model : model_class) (st : store)
    (instance : Z) (field : string) :
  getattr_instance Meta_model st instance field
  = match get (default [] (table st !! (model_name Meta_model, instance)))
            field with
    | Some (SInt pk) => Some pk
    | _ => None
    end.
Proof.
  unfold getattr_instance.
  by destruct (table st !! (model_name Meta_model, instance)).
Qed.

Lemma update_replaceable_loop (Meta_model : model_class) (instance : Z)
    (data : dict value) (st st' : store) :
  update_replaceable_foreignkey_related Meta_model instance data st
  = (Ok tt, st') →
  (∀ key, key ≠ (model_name Meta_model, instance) →
     table st' !! key = table st !! key)
  ∧ (∀ column, column ∉ keys data →
       get (default [] (table st' !! (model_name Meta_model, instance))) column
       = get (default [] (table st !! (model_name Meta_model, instance)))
           column)
  ∧ (wf data → ∀ field nested_obj, (field, nested_obj) ∈ data →
       ∃ v, to_scalar nested_obj = Ok v
            ∧ get (default [] (table st' !! (model_name Meta_model, instance)))
                field = Some v).
Proof.
  unfold update_replaceable_foreignkey_related.
  revert st. induction data as [|[f0 v0] data IH]; intros st Hrun.
  - injection Hrun as <-. split; [done|]. split; [done|].
    intros _ field nested_obj Hin. inversion Hin.
  - simpl in Hrun. apply bind_Ok_inv in Hrun as ([] & st1 & Hbody & Hrest).
    apply bind_Ok_inv in Hbody as (v & st0 & Hv & Hbody).
    unfold lift in Hv. injection Hv as Hv <-.
    unfold mbind', get_store, set_table, emit in Hbody. simpl in Hbody.
    injection Hbody as <-.
    apply IH in Hrest as (Hother & Hcolumn & Hset). simpl in *.
    split; [|split].
    + intros key Hne. rewrite Hother by done. by rewrite lookup_insert_ne.
    + intros column Hnotin. apply not_elem_of_cons in Hnotin as [Hne Hnotin].
      rewrite Hcolumn by done. rewrite lookup_insert_eq. simpl.
      rewrite get_setitem. by rewrite decide_False.
    + intros Hwf field nested_obj Hin. apply NoDup_cons in Hwf as [Hf0 Hwf].
      apply elem_of_cons in Hin as [[= -> ->]|Hin].
      * exists v. split; [done|]. rewrite Hcolumn by done.
        rewrite lookup_insert_eq. simpl. rewrite get_setitem.
        by rewrite decide_True.
      * by apply Hset.
Qed.

(** X29. [update_replaceable_foreignkey_related] assigns: after it,
    the instance refers, under every field of the data, to the object given
    for that field. The other fields of the instance refer to what they
    referred to, and no row but the one of the instance is changed. *)
Theorem update_replaceable_assigns
    (Meta_model : model_class) (instance : Z) (data : dict value)
    (st st' : store) :
  wf data →
  update_replaceable_foreignkey_related Meta_model instance data st
  = (Ok tt, st') →
  (∀ field pk, (field, Obj pk) ∈ data →
     getattr_instance Meta_model st' instance field = Some pk)
  ∧ (∀ field, field ∉ keys data →
       getattr_instance Meta_model st' instance field
       = getattr_instance Meta_model st instance field)
  ∧ (∀ key, key ≠ (model_name Meta_model, instance) →
       table st' !! key = table st !! key).
Proof.
  intros Hwf Hrun.
  apply update_replaceable_loop in Hrun as (Hother & Hcolumn & Hset).
  split; [|split; [|done]].
  - intros field pk Hin. apply (Hset Hwf) in Hin as (v & [= <-] & Hget).
    by rewrite getattr_instance_get, Hget.
  - intros field Hnotin. by rewrite !getattr_instance_get, Hcolumn.
Qed.

Lemma update_replaceable_assigns_witness :
  let data := [("author", Obj 7%Z); ("editor", Obj 8%Z)] in
  let st' := (update_replaceable_foreignkey_related Post 5 data some_store).2 in
  (∀ field pk, (field, Obj pk) ∈ data →
     getattr_instance Post st' 5 field = Some pk)
  ∧ (∀ field, field ∉ keys data →
       getattr_instance Post st' 5 field
       = getattr_instance Post some_store 5 field)
  ∧ (∀ key, key ≠ (model_name Post, 5%Z) →
       table st' !! key = table some_store !! key).
Proof.
  apply (update_replaceable_assigns Post 5
           [("author", Obj 7%Z); ("editor", Obj 8%Z)] some_store).
  - unfold wf. simpl. repeat constructor; set_solver.
  - vm_compute. reflexivity.
Defined.

(** ** Writable single nested objects in [create] *)

Lemma create_writable_loop
    (get_fields : dict field_obj) (is_valid : string → row → bool)
    (data0 l : dict value) (acc objs : dict value) (st st' : store) :
  let Inv (objs : dict value) (st : store) :=
    ∀ field v, get objs field = Some v →
      ∃ pk f r, v = Obj pk ∧ get get_fields field = Some f
        ∧ (field, Data r) ∈ data0
        ∧ table st !! (nested_model f, pk) = Some r
        ∧ (pk < next_pk st)%Z in
  (∀ x, x ∈ l → x ∈ data0) →
  Inv acc st →
  for_fold l acc (fun objs '(field, value) =>
    do f <- lift (getitem get_fields field);
    match value with
    | Data r =>
        do obj <- serializer_create is_valid WritableFK (nested_model f) r;
        ret (setitem objs field (Obj obj))
    | _ => raise TypeError
    end) st = (Ok objs, st') →
  Inv objs st'
  ∧ (∀ field, field ∈ keys objs ↔ field ∈ keys acc ∨ field ∈ keys l).
Proof.
  intros Inv. revert acc st.
  induction l as [|[f0 v0] l IH]; intros acc st Hsub Hacc Hrun.
  - injection Hrun as <- <-. split; [done|]. intros field. simpl.
    split; [auto|]. intros [?|Hin]; [done|]. inversion Hin.
  - simpl in Hrun. apply bind_Ok_inv in Hrun as (acc1 & st1 & Hbody & Hrest).
    apply bind_Ok_inv in Hbody as (f & st0 & Hf & Hbody).
    unfold lift, getitem in Hf.
    destruct (get get_fields f0) as [f'|] eqn:Hget; [|done].
    injection Hf as -> <-.
    destruct v0 as [s|pk0|r|ops]; try done.
    apply bind_Ok_inv in Hbody as (obj & st2 & Hcreate & Hret).
    injection Hret as <- <-.
    unfold serializer_create in Hcreate.
    destruct (is_valid (nested_model f) r); [|done].
    unfold mbind', fresh_pk, get_store, set_table, emit in Hcreate.
    simpl in Hcreate. injection Hcreate as <- <-.
    apply IH in Hrest as [Hinv Hkeys].
    + split; [done|]. intros field. rewrite Hkeys, keys_setitem. simpl.
      rewrite elem_of_cons. naive_solver.
    + intros x Hin. apply Hsub. by right.
    + intros field v. rewrite get_setitem. simpl.
      destruct (decide (field = f0)) as [->|Hne].
      * intros [= <-]. exists (next_pk st), f, r.
        split; [done|]. split; [done|]. split; [apply Hsub; by left|].
        split; [by rewrite lookup_insert_eq | lia].
      * intros Hv. apply Hacc in Hv as (pk & f1 & r1 & -> & Hf1 & Hin & Hrow & Hlt).
        exists pk, f1, r1. split; [done|]. split; [done|]. split; [done|].
        split; [|lia]. rewrite lookup_insert_ne; [done|].
        intros [= _ ?]. lia.
Qed.

(** X30. What [create_writable_foreignkey_related] returns has the fields
    of the data as its keys, and holds under each field an object it
    created: the store has, for the nested model of the field, a row under
    the key of that object, and the row is data the field came with. *)
Theorem create_writable_foreignkey_related_creates
    (get_fields : dict field_obj) (is_valid : string → row → bool)
    (data objs : dict value) (st st' : store) :
  create_writable_foreignkey_related get_fields is_valid data st
  = (Ok objs, st') →
  (∀ field, field ∈ keys objs ↔ field ∈ keys data)
  ∧ (∀ field v, get objs field = Some v →
       ∃ pk f r, v = Obj pk ∧ get get_fields field = Some f
         ∧ (field, Data r) ∈ data
         ∧ table st' !! (nested_model f, pk) = Some r).
Proof.
  unfold create_writable_foreignkey_related. intros Hrun.
  apply (create_writable_loop get_fields is_valid data) in Hrun
    as [Hinv Hkeys]; [|done|done].
  split.
  - intros field. rewrite Hkeys. simpl. split; [|auto].
    intros [Hin|?]; [inversion Hin | done].
  - intros field v Hv.
    apply Hinv in Hv as (pk & f & r & ? & ? & ? & ? & ?). by exists pk, f, r.
Qed.

Lemma create_writable_foreignkey_related_creates_witness :
  let get_fields :=
    [("author", {| cls := Serializer; is_replaceable := false;
                   is_writable := true; nested_model := "User" |})] in
  let data := [("author", Data [("name", SStr "n")])] in
  let run :=
    create_writable_foreignkey_related get_fields all_valid data some_store in
  let objs := [("author", Obj 10%Z)] in
  (∀ field, field ∈ keys objs ↔ field ∈ keys data)
  ∧ (∀ field v, get objs field = Some v →
       ∃ pk f r, v = Obj pk ∧ get get_fields field = Some f
         ∧ (field, Data r) ∈ data
         ∧ table (run.2) !! (nested_model f, pk) = Some r).
Proof.
  apply (create_writable_foreignkey_related_creates
           [("author", {| cls := Serializer; is_replaceable := false;
                          is_writable := true; nested_model := "User" |})]
           all_valid [("author", Data [("name", SStr "n")])]
           [("author", Obj 10%Z)] some_store).
  vm_compute. reflexivity.
Defined.
